(** * tlsfingerprint.com: fingerprint kernel, HTTP engines and HTTPBin handlers

    A shallow embedding of the Go sources of the fingerprinting service
    (JA4 / JA4H kernels, the HTTP/1.1 line parser, the HTTP/2 connection
    engine and the /bytes and /redirect handlers), together with the
    properties stated about them.

    Go strings are byte strings; they are modelled by [string] (a list of
    8-bit [ascii] characters).  Go [int] values are modelled by [Z]. *)

From Stdlib Require Import ZArith List String Ascii Bool Lia Arith.
From Stdlib Require Import Sorting.Sorted Sorting.Permutation.
Import ListNotations.

Local Open Scope string_scope.
Local Open Scope Z_scope.

Set Implicit Arguments.

(** ** The fragment of Go's [strings], [strconv] and [fmt] used by the sources *)

Module GoStrings.

Definition byte_of (c : ascii) : Z := Z.of_N (N_of_ascii c).
Definition ascii_of (b : Z) : ascii := ascii_of_N (Z.to_N b).

Definition bytes_of_string (s : string) : list Z :=
  map byte_of (list_ascii_of_string s).

Definition str1 (c : ascii) : string := String c EmptyString.

(** [len(s)] *)
Definition len (s : string) : Z := Z.of_nat (String.length s).

(** [strings.HasPrefix(s, p)] *)
Definition HasPrefix (s p : string) : bool := String.prefix p s.

(** [strings.ToLower] on the ASCII range (bytes above 127 are left
    unchanged; every literal the sources compare against is ASCII). *)
Definition lower_ascii (c : ascii) : ascii :=
  let n := byte_of c in
  if (65 <=? n) && (n <=? 90) then ascii_of (n + 32) else c.

Definition upper_ascii (c : ascii) : ascii :=
  let n := byte_of c in
  if (97 <=? n) && (n <=? 122) then ascii_of (n - 32) else c.

Fixpoint map_string (f : ascii -> ascii) (s : string) : string :=
  match s with
  | EmptyString => EmptyString
  | String c r => String (f c) (map_string f r)
  end.

Definition ToLower : string -> string := map_string lower_ascii.
Definition ToUpper : string -> string := map_string upper_ascii.

(** [strings.Split(s, sep)] for a non-empty separator.  [skip] counts the
    bytes of a separator that has just been recognised and still have to be
    stepped over. *)
Fixpoint split_from (sep : string) (skip : nat) (cur : string) (s : string)
  : list string :=
  match s with
  | EmptyString => [cur]
  | String c rest =>
      match skip with
      | S k => split_from sep k cur rest
      | O =>
          if String.prefix sep s
          then cur :: split_from sep (String.length sep - 1) EmptyString rest
          else split_from sep 0 (cur ++ str1 c) rest
      end
  end.

Definition Split (s sep : string) : list string :=
  split_from sep 0 EmptyString s.

(** [strings.SplitN(s, sep, n)] for [n >= 0]: at most [n] pieces, the last
    one being the unsplit remainder. *)
Fixpoint splitn_from (sep : string) (n : nat) (skip : nat) (cur : string)
  (s : string) : list string :=
  match s with
  | EmptyString => [cur]
  | String c rest =>
      match skip with
      | S k => splitn_from sep n k cur rest
      | O =>
          match n with
          | O => [cur ++ s]
          | S O => [cur ++ s]
          | S n' =>
              if String.prefix sep s
              then cur :: splitn_from sep n' (String.length sep - 1)
                            EmptyString rest
              else splitn_from sep n 0 (cur ++ str1 c) rest
          end
      end
  end.

Definition SplitN (s sep : string) (n : nat) : list string :=
  match n with
  | O => []
  | _ => splitn_from sep n 0 EmptyString s
  end.

(** [strings.Join(elems, sep)] *)
Fixpoint Join (elems : list string) (sep : string) : string :=
  match elems with
  | [] => EmptyString
  | [x] => x
  | x :: rest => x ++ sep ++ Join rest sep
  end.

(** [strings.Contains(s, sub)] *)
Fixpoint Contains (s sub : string) : bool :=
  String.prefix sub s ||
  match s with
  | EmptyString => false
  | String _ rest => Contains rest sub
  end.

(** [strings.TrimSpace] with the ASCII white space set. *)
Definition is_space (c : ascii) : bool :=
  let n := byte_of c in
  (n =? 32) || ((9 <=? n) && (n <=? 13)).

Fixpoint trim_left (p : ascii -> bool) (s : string) : string :=
  match s with
  | EmptyString => EmptyString
  | String c r => if p c then trim_left p r else s
  end.

Fixpoint rev_string (s acc : string) : string :=
  match s with
  | EmptyString => acc
  | String c r => rev_string r (String c acc)
  end.

Definition trim_right (p : ascii -> bool) (s : string) : string :=
  rev_string (trim_left p (rev_string s EmptyString)) EmptyString.

Definition TrimSpace (s : string) : string :=
  trim_right is_space (trim_left is_space s).

(** [strings.Trim(s, cutset)] for a one-byte cutset. *)
Definition Trim1 (s : string) (c : ascii) : string :=
  trim_right (Ascii.eqb c) (trim_left (Ascii.eqb c) s).

(** [strings.Replace(s, old, new, -1)] for a non-empty [old]. *)
Fixpoint replace_from (old new : string) (skip : nat) (s : string) : string :=
  match s with
  | EmptyString => EmptyString
  | String c rest =>
      match skip with
      | S k => replace_from old new k rest
      | O =>
          if String.prefix old s
          then new ++ replace_from old new (String.length old - 1) rest
          else String c (replace_from old new 0 rest)
      end
  end.

Definition ReplaceAll (s old new : string) : string :=
  replace_from old new 0 s.

(** Decimal and hexadecimal rendering. *)
Definition digit_char (upper : bool) (d : Z) : ascii :=
  if d <? 10 then ascii_of (48 + d)
  else if upper then ascii_of (55 + d) else ascii_of (87 + d).

Fixpoint render_nat (fuel : nat) (base : Z) (upper : bool) (n : Z)
  (acc : string) : string :=
  match fuel with
  | O => acc
  | S f =>
      let acc' := String (digit_char upper (n mod base)) acc in
      if n <? base then acc' else render_nat f base upper (n / base) acc'
  end.

Definition render (base : Z) (upper : bool) (n : Z) : string :=
  if n <? 0
  then "-" ++ render_nat (S (Z.to_nat (Z.log2 (- n)))) base upper (- n) ""
  else render_nat (S (Z.to_nat (Z.log2 n))) base upper n "".

(** [strconv.Itoa] *)
Definition Itoa (n : Z) : string := render 10 false n.

Fixpoint zeros (k : nat) : string :=
  match k with
  | O => EmptyString
  | S k' => String "0" (zeros k')
  end.

Definition pad0 (width : nat) (s : string) : string :=
  zeros (width - String.length s) ++ s.

(** [fmt.Sprintf("%02d", n)] for [n >= 0] (the counters are never negative). *)
Definition fmt_02d (n : Z) : string := pad0 2 (Itoa n).

(** [fmt.Sprintf("%04x", n)] and [fmt.Sprintf("0x%04X", n)] for [n >= 0]. *)
Definition fmt_04x (n : Z) : string := pad0 4 (render 16 false n).
Definition fmt_0x04X (n : Z) : string := "0x" ++ pad0 4 (render 16 true n).

(** [strconv.Atoi]: an optional sign followed by at least one decimal digit;
    a value outside the 64-bit [int] range is an error. *)
Definition is_digit (c : ascii) : bool :=
  let n := byte_of c in (48 <=? n) && (n <=? 57).

Fixpoint parse_digits (s : string) (acc : Z) : option Z :=
  match s with
  | EmptyString => Some acc
  | String c r =>
      if is_digit c then parse_digits r (10 * acc + (byte_of c - 48))
      else None
  end.

Definition parse_unsigned (s : string) : option Z :=
  match s with
  | EmptyString => None
  | _ => parse_digits s 0
  end.

Definition in_int64 (v : Z) : bool :=
  (- 9223372036854775808 <=? v) && (v <=? 9223372036854775807).

Definition Atoi (s : string) : option Z :=
  let signed :=
    match s with
    | String "+" r => parse_unsigned r
    | String "-" r => option_map Z.opp (parse_unsigned r)
    | _ => parse_unsigned s
    end in
  match signed with
  | Some v => if in_int64 v then Some v else None
  | None => None
  end.

(** String comparison as Go's [<] on strings: byte-wise lexicographic. *)
Fixpoint str_leb (a b : string) : bool :=
  match a, b with
  | EmptyString, _ => true
  | String _ _, EmptyString => false
  | String x a', String y b' =>
      if byte_of x <? byte_of y then true
      else if byte_of x =? byte_of y then str_leb a' b'
      else false
  end.

Definition str_le (a b : string) : Prop := str_leb a b = true.

End GoStrings.

Import GoStrings.

(** ** SHA-256 (FIPS 180-4), as computed by Go's [crypto/sha256] *)

Module SHA256.

Definition mask32 : Z := 4294967295.
Definition add32 (a b : Z) : Z := (a + b) mod 4294967296.
Definition rotr (n x : Z) : Z :=
  Z.lor (Z.shiftr x n) (Z.land (Z.shiftl x (32 - n)) mask32).
Definition not32 (x : Z) : Z := Z.lxor x mask32.

Definition Ch (x y z : Z) : Z := Z.lxor (Z.land x y) (Z.land (not32 x) z).
Definition Maj (x y z : Z) : Z :=
  Z.lxor (Z.lxor (Z.land x y) (Z.land x z)) (Z.land y z).
Definition bsig0 (x : Z) : Z := Z.lxor (Z.lxor (rotr 2 x) (rotr 13 x)) (rotr 22 x).
Definition bsig1 (x : Z) : Z := Z.lxor (Z.lxor (rotr 6 x) (rotr 11 x)) (rotr 25 x).
Definition ssig0 (x : Z) : Z := Z.lxor (Z.lxor (rotr 7 x) (rotr 18 x)) (Z.shiftr x 3).
Definition ssig1 (x : Z) : Z := Z.lxor (Z.lxor (rotr 17 x) (rotr 19 x)) (Z.shiftr x 10).

(** The round constants are the first 32 bits of the fractional parts of
    the cube roots of the first 64 primes, the initial chaining values
    those of the square roots of the first 8 primes. *)
Definition is_prime (n : nat) : bool :=
  forallb (fun d => negb (Nat.eqb (Nat.modulo n d) 0)) (seq 2 (n - 2)).

Definition first_primes (count : nat) : list Z :=
  map Z.of_nat (firstn count (filter is_prime (seq 2 310))).

(** The integer cube root below [2^35], one bit at a time. *)
Fixpoint icbrt_bits (bits : nat) (n r : Z) : Z :=
  match bits with
  | O => r
  | S k =>
      let r' := r + Z.shiftl 1 (Z.of_nat k) in
      icbrt_bits k n (if r' * r' * r' <=? n then r' else r)
  end.

Definition frac_cbrt32 (p : Z) : Z :=
  icbrt_bits 35 (Z.shiftl p 96) 0 mod 4294967296.

Definition frac_sqrt32 (p : Z) : Z :=
  Z.sqrt (Z.shiftl p 64) mod 4294967296.

Definition K : list Z := Eval vm_compute in map frac_cbrt32 (first_primes 64).

(** The eight working variables / chaining values. *)
Record regs : Type := Regs {
  ra : Z; rb : Z; rc : Z; rd : Z; re : Z; rf : Z; rg : Z; rh : Z
}.

Definition regs_of_list (l : list Z) : regs :=
  Regs (nth 0 l 0) (nth 1 l 0) (nth 2 l 0) (nth 3 l 0)
       (nth 4 l 0) (nth 5 l 0) (nth 6 l 0) (nth 7 l 0).

Definition H0 : regs :=
  Eval vm_compute in regs_of_list (map frac_sqrt32 (first_primes 8)).

(** Padding: a 1 bit, zero bits up to 56 mod 64 bytes, then the bit length
    as a 64-bit big-endian integer. *)
Definition be_bytes (nbytes : nat) (v : Z) : list Z :=
  map (fun i => Z.shiftr v (8 * Z.of_nat (nbytes - 1 - i)) mod 256)
      (seq 0 nbytes).

Definition pad (msg : list Z) : list Z :=
  let l := Z.of_nat (List.length msg) in
  (msg ++ [128] ++ repeat 0 (Z.to_nat ((55 - l) mod 64)) ++ be_bytes 8 (8 * l))%list.

Fixpoint words_of_bytes (bs : list Z) : list Z :=
  match bs with
  | b0 :: b1 :: b2 :: b3 :: r =>
      (b0 * 16777216 + b1 * 65536 + b2 * 256 + b3) :: words_of_bytes r
  | _ => []
  end.

(** The message schedule, kept most-recent-first while it is extended. *)
Fixpoint extend (n : nat) (wrev : list Z) : list Z :=
  match n with
  | O => wrev
  | S k =>
      let w := add32 (add32 (ssig1 (nth 1 wrev 0)) (nth 6 wrev 0))
                     (add32 (ssig0 (nth 14 wrev 0)) (nth 15 wrev 0)) in
      extend k (w :: wrev)
  end.

Definition schedule (block : list Z) : list Z :=
  rev (extend 48 (rev block)).

Definition round (s : regs) (kw : Z * Z) : regs :=
  let t1 := add32 (add32 (add32 (rh s) (bsig1 (re s)))
                         (add32 (Ch (re s) (rf s) (rg s)) (fst kw))) (snd kw) in
  let t2 := add32 (bsig0 (ra s)) (Maj (ra s) (rb s) (rc s)) in
  Regs (add32 t1 t2) (ra s) (rb s) (rc s) (add32 (rd s) t1) (re s) (rf s) (rg s).

Definition compress (h : regs) (block : list Z) : regs :=
  let s := fold_left round (combine K (schedule block)) h in
  Regs (add32 (ra h) (ra s)) (add32 (rb h) (rb s)) (add32 (rc h) (rc s))
       (add32 (rd h) (rd s)) (add32 (re h) (re s)) (add32 (rf h) (rf s))
       (add32 (rg h) (rg s)) (add32 (rh h) (rh s)).

Fixpoint blocks (n : nat) (ws : list Z) (h : regs) : regs :=
  match n with
  | O => h
  | S k => blocks k (skipn 16 ws) (compress h (firstn 16 ws))
  end.

Definition digest_regs (msg : list Z) : regs :=
  let ws := words_of_bytes (pad msg) in
  blocks (List.length ws / 16) ws H0.

Definition regs_words (r : regs) : list Z :=
  [ra r; rb r; rc r; rd r; re r; rf r; rg r; rh r].

(** [sha256.Sum256]: the 32 digest bytes. *)
Definition Sum256 (msg : list Z) : list Z :=
  flat_map (be_bytes 4) (regs_words (digest_regs msg)).

End SHA256.

(** [hex.EncodeToString]: two lowercase hexadecimal digits per byte. *)
Fixpoint hex_encode (bs : list Z) : string :=
  match bs with
  | [] => EmptyString
  | b :: r =>
      String (digit_char false ((b / 16) mod 16))
        (String (digit_char false (b mod 16)) (hex_encode r))
  end.

Definition sha256_hex (s : string) : string :=
  hex_encode (SHA256.Sum256 (bytes_of_string s)).

(** Modelled from the spec: [utils.SHA256trunc] is not among the sources;
    the specification describes it as the SHA-256 of the text, "truncated
    to 12 lowercase hex chars". *)
Definition SHA256trunc (text : string) : string :=
  String.substring 0 12 (sha256_hex text).

(** ** Interfaces of code the kernel calls but does not define *)

(** [sort.Strings] sorts in place with an unspecified (not stable)
    algorithm.  Its contract is all the kernel may rely on: the result is
    an ascending rearrangement of the input. *)
Class StringSorter : Type := {
  sortStrings : list string -> list string;
  sortStrings_sorted : forall l, Sorted str_le (sortStrings l);
  sortStrings_perm : forall l, Permutation l (sortStrings l)
}.

(** Helpers of package [types] and of Go's [net] that the kernel calls and
    that are not among the sources: [types.GetCipherSuiteName],
    [types.IsGrease] (applied to a cipher-suite name or to the
    ["0x%04X"] rendering of an extension id) and the test
    [net.ParseIP(s) != nil]. *)
Class KernelDeps : Type := {
  GetCipherSuiteName : Z -> string;
  IsGrease : string -> bool;
  ParseIP_ok : string -> bool
}.

(** Go map literals used for lookups only. *)
Fixpoint map_get (key : string) (m : list (string * string)) : option string :=
  match m with
  | [] => None
  | (k, v) :: r => if String.eqb key k then Some v else map_get key r
  end.

(** ** The parsed ClientHello *)

(** An element of [ClientHello.Extensions] ([[]interface{}]), seen through
    the two type assertions [detectSNI] performs on it. *)
Inductive Extension : Type :=
| ExtMap (server_name : option string)
    (** a [map[string]interface{}]; its ["server_name"] entry when that
        entry is a string *)
| ExtStruct (Name ServerName : string)
    (** the anonymous struct with [Name] and [ServerName] fields *)
| ExtOther.

(** Modelled from the spec: the [ClientHello] struct declaration is not
    among the sources; these are the fields the kernel reads, "all kept in
    wire order".  Identifiers are 16-bit values on the wire. *)
Record ClientHello : Type := {
  Version : Z;
  CipherSuites : list Z;
  Extensions : list Extension;
  AllExtensions : list Z;
  SupportedGroups : list Z;
  SupportedPoints : list Z;
  SignatureAlgorithms : list Z;
  SupportedProtocols : list string
}.

Definition is_uint16 (v : Z) : Prop := 0 <= v < 65536.

(** ** JA4 (package tls) *)

Section JA4.

Context {sorter : StringSorter} {deps : KernelDeps}.

(** Modelled from the spec: [getOrReturnOG] is not among the sources; as its
    name and its use on the version table say, it returns the table entry
    of the key, or the key itself when there is none. *)
Definition getOrReturnOG (key : string) (m : list (string * string)) : string :=
  match map_get key m with
  | Some v => v
  | None => key
  end.

Fixpoint detectSNI_loop (exts : list Extension) : string :=
  match exts with
  | [] => "d"
  | ExtMap (Some serverName) :: rest =>
      if negb (String.eqb serverName "")
      then (if ParseIP_ok serverName then "i" else "d")
      else detectSNI_loop rest
  | ExtStruct _ serverName :: rest =>
      if negb (String.eqb serverName "")
      then (if ParseIP_ok serverName then "i" else "d")
      else detectSNI_loop rest
  | _ :: rest => detectSNI_loop rest
  end.

Definition detectSNI (parsed : ClientHello) : string :=
  detectSNI_loop (Extensions parsed).

Definition tlsVersionMapping : list (string * string) :=
  [("769", "10"); ("770", "11"); ("771", "12"); ("772", "13")].

Definition httpVersionMapping : list (string * string) :=
  [("h2", "h2"); ("h3", "h3"); ("2", "h2");
   ("1.1", "h1"); ("1.0", "h1"); ("0.9", "h1")].

(** [string(b)] for a byte [b]: the UTF-8 encoding of the code point [b]. *)
Definition string_of_byte (c : ascii) : string :=
  let b := byte_of c in
  if b <? 128 then str1 c
  else String (ascii_of (192 + b / 64)) (str1 (ascii_of (128 + b mod 64))).

Fixpoint last_byte (c : ascii) (s : string) : ascii :=
  match s with
  | EmptyString => c
  | String c' r => last_byte c' r
  end.

Definition cap99 (n : Z) : Z := if n >? 99 then 99 else n.

Definition cipher_kept (cipher : Z) : bool :=
  negb (IsGrease (GetCipherSuiteName cipher)).

Definition ext_counted (ext : Z) : bool :=
  negb (IsGrease (fmt_0x04X ext)) && negb (ext =? 0) && negb (ext =? 16).

Definition ext_listed (ext : Z) : bool :=
  negb (IsGrease (fmt_0x04X ext)) && negb (ext =? 0) && negb (ext =? 16)
  && negb (ext =? 21).

Definition count_if (p : Z -> bool) (l : list Z) : Z :=
  fold_left (fun n x => if p x then n + 1 else n) l 0.

Definition firstALPN_of (protocols : list string) : string :=
  match protocols with
  | [] => "00"
  | alpn :: _ =>
      match map_get alpn httpVersionMapping with
      | Some mapped => mapped
      | None =>
          match map_get (ToLower alpn) httpVersionMapping with
          | Some mapped => mapped
          | None =>
              match alpn with
              | EmptyString => "00"
              | String c0 EmptyString => string_of_byte c0 ++ string_of_byte c0
              | String c0 r => string_of_byte c0 ++ string_of_byte (last_byte c0 r)
              end
          end
      end
  end.

Definition ja4a_direct (parsed : ClientHello) (negotiatedVersion : string)
  : string :=
  let proto := "t" in
  let tlsVersion := getOrReturnOG negotiatedVersion tlsVersionMapping in
  let sniMode := detectSNI parsed in
  let numSuites := cap99 (count_if cipher_kept (CipherSuites parsed)) in
  let numExtensions := cap99 (count_if ext_counted (AllExtensions parsed)) in
  let firstALPN := firstALPN_of (SupportedProtocols parsed) in
  proto ++ tlsVersion ++ sniMode ++ fmt_02d numSuites
        ++ fmt_02d numExtensions ++ firstALPN.

Definition ja4b_r_direct (parsed : ClientHello) : string :=
  let ciphers := map fmt_04x (filter cipher_kept (CipherSuites parsed)) in
  Join (sortStrings ciphers) ",".

Definition ja4b_direct (parsed : ClientHello) : string :=
  let result := ja4b_r_direct parsed in
  if String.eqb result "" then "000000000000" else SHA256trunc result.

Definition ja4c_r_direct (parsed : ClientHello) : string :=
  let extensions :=
    sortStrings (map fmt_04x (filter ext_listed (AllExtensions parsed))) in
  let sigAlgs := map fmt_04x (SignatureAlgorithms parsed) in
  let result := Join extensions "," in
  if 0 <? Z.of_nat (List.length sigAlgs)
  then result ++ "_" ++ Join sigAlgs ","
  else result.

Definition ja4c_direct (parsed : ClientHello) : string :=
  let result := ja4c_r_direct parsed in
  if String.eqb result "" then "000000000000" else SHA256trunc result.

Definition CalculateJa4Direct (parsed : ClientHello)
  (negotiatedVersion : string) : string :=
  ja4a_direct parsed negotiatedVersion ++ "_" ++ ja4b_direct parsed
    ++ "_" ++ ja4c_direct parsed.

Definition CalculateJa4Direct_r (parsed : ClientHello)
  (negotiatedVersion : string) : string :=
  ja4a_direct parsed negotiatedVersion ++ "_" ++ ja4b_r_direct parsed
    ++ "_" ++ ja4c_r_direct parsed.

End JA4.

(** ** JA4H (package http) *)

Section JA4H.

Context {sorter : StringSorter}.

Definition getMethodPrefix (method : string) : string :=
  let method := ToLower method in
  if 2 <=? len method then String.substring 0 2 method else method.

Definition one_of (s : string) (l : list string) : bool :=
  existsb (String.eqb s) l.

Definition getVersionString (httpVersion : string) : string :=
  let v := ToLower httpVersion in
  if one_of v ["http/0.9"; "0.9"] then "09"
  else if one_of v ["http/1.0"; "1.0"] then "10"
  else if one_of v ["http/1.1"; "1.1"; "http/1"] then "11"
  else if one_of v ["http/2"; "http/2.0"; "h2"; "2"; "2.0"] then "2"
  else if one_of v ["http/3"; "http/3.0"; "h3"; "3"; "3.0"] then "3"
  else "00".

Definition extractHeaderName (header : string) : string :=
  match SplitN header ":" 2 with
  | part0 :: _ => ToLower (TrimSpace part0)
  | [] => ""
  end.

Definition isCookieHeader (header : string) : bool :=
  HasPrefix (ToLower header) "cookie:".

Definition isRefererHeader (header : string) : bool :=
  let lower := ToLower header in
  HasPrefix lower "referer:" || HasPrefix lower "referrer:".

Definition headerHash_filtered (headers : list string) : list string :=
  fold_left
    (fun filtered header =>
       if isCookieHeader header || isRefererHeader header then filtered
       else
         let name := extractHeaderName header in
         if negb (String.eqb name "") then (filtered ++ [name])%list else filtered)
    headers [].

Definition calculateHeaderHash (headers : list string) : string :=
  let filtered := sortStrings (headerHash_filtered headers) in
  if Z.of_nat (List.length filtered) =? 0 then "000000000000"
  else SHA256trunc (Join filtered ",").

Definition extractCookieValue (header : string) : string :=
  match SplitN header ":" 2 with
  | [_; part1] => TrimSpace part1
  | _ => ""
  end.

Definition cookie_values (headers : list string) : list string :=
  fold_left
    (fun cookies header =>
       if isCookieHeader header then
         let value := extractCookieValue header in
         if negb (String.eqb value "") then (cookies ++ [value])%list else cookies
       else cookies)
    headers [].

Definition calculateCookieHash (headers : list string) : string :=
  let cookies := cookie_values headers in
  if Z.of_nat (List.length cookies) =? 0 then "000000000000"
  else SHA256trunc (Join (sortStrings cookies) ";").

Definition countHeaders (headers : list string) : Z :=
  fold_left
    (fun count header =>
       if negb (isCookieHeader header) && negb (isRefererHeader header)
       then count + 1 else count)
    headers 0.

Definition CalculateJA4H (method httpVersion : string) (headers : list string)
  : string :=
  let methodPrefix := getMethodPrefix method in
  let versionStr := getVersionString httpVersion in
  let count := countHeaders headers in
  let count := if count >? 99 then 99 else count in
  let headerCount := fmt_02d count in
  let headerHash := calculateHeaderHash headers in
  let cookieHash := calculateCookieHash headers in
  methodPrefix ++ versionStr ++ headerCount ++ "_" ++ headerHash
    ++ "_" ++ cookieHash.

(** The loop of [CalculateJA4H_r]: one pass filling [filtered] and [cookies]. *)
Definition ja4h_r_collect (headers : list string) : list string * list string :=
  fold_left
    (fun (acc : list string * list string) header =>
       let (filtered, cookies) := acc in
       if isCookieHeader header then
         let value := extractCookieValue header in
         if negb (String.eqb value "") then (filtered, (cookies ++ [value])%list)
         else (filtered, cookies)
       else if isRefererHeader header then (filtered, cookies)
       else
         let name := extractHeaderName header in
         if negb (String.eqb name "") then ((filtered ++ [name])%list, cookies)
         else (filtered, cookies))
    headers ([], []).

Definition CalculateJA4H_r (method httpVersion : string)
  (headers : list string) : string :=
  let methodPrefix := getMethodPrefix method in
  let versionStr := getVersionString httpVersion in
  let (filtered0, cookies0) := ja4h_r_collect headers in
  let filtered := sortStrings filtered0 in
  let cookies := sortStrings cookies0 in
  let count := Z.of_nat (List.length filtered) in
  let count := if count >? 99 then 99 else count in
  let headerCount := fmt_02d count in
  let headerList := Join filtered "," in
  let headerList := if String.eqb headerList "" then "none" else headerList in
  let cookieList := Join cookies ";" in
  let cookieList := if String.eqb cookieList "" then "none" else cookieList in
  methodPrefix ++ versionStr ++ headerCount ++ "_" ++ headerList
    ++ "_" ++ cookieList.

(** The first segment of a fingerprint: everything before the first [_]. *)
Fixpoint first_segment (s : string) : string :=
  match s with
  | EmptyString => EmptyString
  | String c r => if Ascii.eqb c "_" then EmptyString else String c (first_segment r)
  end.

End JA4H.

(** ** Request descriptors (package types) *)

(** A captured HTTP/2 frame, restricted to the fields the modelled
    functions read. *)
Record ParsedFrame : Type := {
  pf_Type : string;
  pf_Stream : Z;
  pf_Settings : list string;
  pf_Headers : list string;
  pf_Payload : list Z
}.

Record TLSDetails : Type := {
  JA3Hash : string;
  JA4H : string;
  JA4H_r : string
}.

Record Http1Details : Type := { h1_Headers : list string }.
Record Http2Details : Type := { SendFrames : list ParsedFrame }.

(** [types.Response].  The pointer fields [Http1], [Http2] and [TLS] are
    options: [None] is Go's [nil]. *)
Record Response : Type := {
  IP : string;
  HTTPVersion : string;
  Path : string;
  Method : string;
  UserAgent : string;
  Http1 : option Http1Details;
  Http2 : option Http2Details;
  TLS : option TLSDetails
}.

(** What a handler returns: the body bytes and the content-type tag. *)
Definition Handler : Type := Response -> list Z * string.

(** ** HTTPBin handlers (package server) *)

Definition extractBody (res : Response) : list Z :=
  match Http2 res with
  | Some h2 =>
      fold_left
        (fun body frame =>
           if String.eqb (pf_Type frame) "DATA"
           then (body ++ pf_Payload frame)%list else body)
        (SendFrames h2) []
  | None => []
  end.

(** [data[i] = byte(i % 256)] for [i < n] *)
Definition pattern_bytes (n : Z) : list Z :=
  map (fun i => Z.of_nat i mod 256) (seq 0 (Z.to_nat n)).

(** The path parameter as the handlers read it: [parts[2]] of
    [strings.Split(path, "/")] when there are at least three parts, passed
    to [strconv.Atoi]. *)
Definition path_param (path : string) : option Z :=
  let parts := Split path "/" in
  if 3 <=? Z.of_nat (List.length parts) then Atoi (nth 2 parts "") else None.

Definition httpbinBytes : Handler := fun res =>
  let body := extractBody res in
  if (String.eqb (Method res) "POST" || String.eqb (Method res) "PUT")
     && (0 <? Z.of_nat (List.length body))
  then (body, "application/octet-stream")
  else
    let n :=
      match path_param (Path res) with
      | Some parsed =>
          if (0 <? parsed) && (parsed <=? 102400) then parsed else 100
      | None => 100
      end in
    (pattern_bytes n, "application/octet-stream").

Definition httpbinRedirect : Handler := fun res =>
  let n :=
    match path_param (Path res) with
    | Some parsed => if (0 <? parsed) && (parsed <=? 10) then parsed else 1
    | None => 1
    end in
  let location :=
    if 1 <? n then "/redirect/" ++ Itoa (n - 1) else "/get" in
  ([], "redirect:302:" ++ location).

(** ** The server around the handlers *)

(** What the engines use of the server and of Go's [net/http]: the handlers
    that are not modelled here (named by their Go identifier), the page
    served when no route matches, the configured admin key
    ([Server.GetAdmin]) and [http.StatusText]. *)
Record Server : Type := {
  other_handler : string -> Handler;
  not_found : Handler;
  GetAdmin : string * bool;
  StatusText : Z -> string
}.

Section Routing.

Variable srv : Server.

Definition getHTTPBinPaths : list (string * Handler) :=
  map (fun p => (fst p, other_handler srv (snd p)))
    [("/get", "httpbinGet"); ("/post", "httpbinPost"); ("/put", "httpbinPut");
     ("/patch", "httpbinPatch"); ("/delete", "httpbinDelete");
     ("/anything", "httpbinAnything"); ("/headers", "httpbinHeaders");
     ("/ip", "httpbinIP"); ("/user-agent", "httpbinUserAgent");
     ("/gzip", "httpbinGzip"); ("/deflate", "httpbinDeflate");
     ("/brotli", "httpbinBrotli"); ("/cookies", "httpbinCookies");
     ("/cookies/set", "httpbinCookiesSet");
     ("/cookies/delete", "httpbinCookiesDelete");
     ("/image/jpeg", "httpbinImageJPEG"); ("/image/png", "httpbinImagePNG");
     ("/image/svg", "httpbinImageSVG"); ("/image/gif", "httpbinImageGIF");
     ("/image/webp", "httpbinImageWebP"); ("/html", "httpbinHTML");
     ("/xml", "httpbinXML"); ("/json", "httpbinJSON");
     ("/robots.txt", "httpbinRobots"); ("/deny", "httpbinDeny")].

Definition getAllPaths : list (string * Handler) :=
  (map (fun p => (fst p, other_handler srv (snd p)))
     [("/", "index"); ("/explore", "staticFile(static/explore.html)");
      ("/docs", "staticFile(static/docs.html)");
      ("/openapi.json", "httpbinOpenAPI"); ("/api/all", "apiAll");
      ("/api/tls", "apiTLS"); ("/api/clean", "apiClean");
      ("/api/raw", "apiRaw"); ("/api/sni", "apiSNI");
      ("/api/request-count", "apiRequestCount");
      ("/api/search-ja3", "apiSearchJA3"); ("/api/search-ja4", "apiSearchJA4");
      ("/api/search-ja4h", "apiSearchJA4H"); ("/api/search-h2", "apiSearchH2");
      ("/api/search-peetprint", "apiSearchPeetPrint");
      ("/api/search-useragent", "apiSearchUserAgent")]
   ++ getHTTPBinPaths)%list.

Definition getDynamicPaths : list (string * Handler) :=
  [("/bytes/", httpbinBytes);
   ("/base64/", other_handler srv "httpbinBase64");
   ("/redirect/", httpbinRedirect);
   ("/redirect-to", other_handler srv "httpbinRedirectTo");
   ("/status/", other_handler srv "httpbinStatus");
   ("/delay/", other_handler srv "httpbinDelay");
   ("/sse", other_handler srv "httpbinSSE");
   ("/sse/", other_handler srv "httpbinSSE");
   ("/stream/", other_handler srv "httpbinStream");
   ("/anything/", other_handler srv "httpbinAnything")].

Fixpoint lookup_exact (path : string) (table : list (string * Handler))
  : option Handler :=
  match table with
  | [] => None
  | (k, h) :: r => if String.eqb path k then Some h else lookup_exact path r
  end.

Fixpoint lookup_prefix (path : string) (table : list (string * Handler))
  : option Handler :=
  match table with
  | [] => None
  | (k, h) :: r => if HasPrefix path k then Some h else lookup_prefix path r
  end.

(** Modelled from the spec: [Router] is not among the sources.  "Static
    routes: exact path map.  Dynamic routes: any path matched by a
    registered prefix.  Exact-match wins over prefix.  The router returns
    (body, content_type_tag)"; its contract is infallible. *)
Definition Router (path : string) (res : Response) : list Z * string :=
  match lookup_exact path getAllPaths with
  | Some h => h res
  | None =>
      match lookup_prefix path getDynamicPaths with
      | Some h => h res
      | None => not_found srv res
      end
  end.

(** [extractStatusCode] (connection_handler.go) *)
Definition extractStatusCode (path : string) : Z :=
  if negb (HasPrefix path "/status/") then 200
  else
    let parts := Split path "/" in
    if 3 <=? Z.of_nat (List.length parts) then
      match Atoi (nth 2 parts "") with
      | Some code => if (100 <=? code) && (code <? 600) then code else 200
      | None => 200
      end
    else 200.

End Routing.

(** ** The HTTP/1.1 line engine (connection_handler.go) *)

Definition CRLF : string := String "013" (String "010" EmptyString).

Definition parseHTTP1_headers (lines : list string) : list string * string :=
  fold_left
    (fun (acc : list string * string) line =>
       let (headers, userAgent) := acc in
       if Contains line ":" then
         ((headers ++ [line])%list,
          if HasPrefix (ToLower line) "user-agent"
          then TrimSpace (nth 1 (Split line ":") "")
          else userAgent)
       else acc)
    lines ([], "").

Definition parseHTTP1 (request : string) : Response :=
  let lines := Split request CRLF in
  let firstLine := Split (nth 0 lines "") " " in
  let (headers, userAgent) := parseHTTP1_headers lines in
  if negb (Z.of_nat (List.length firstLine) =? 3) then
    {| IP := ""; HTTPVersion := "--"; Path := "--"; Method := "--";
       UserAgent := ""; Http1 := None; Http2 := None; TLS := None |}
  else
    {| IP := ""; HTTPVersion := nth 2 firstLine ""; Path := nth 1 firstLine "";
       Method := nth 0 firstLine ""; UserAgent := userAgent;
       Http1 := Some {| h1_Headers := headers |}; Http2 := None; TLS := None |}.

(** What running [respondToHTTP1] does to the connection: it either calls
    [conn.Write] with the response text (and then closes), or it stops with
    a run-time panic before anything is written. *)
Inductive H1Outcome : Type :=
| H1Wrote (text : string)
| H1Panic (reason : string).

(** The content-type directives, shared by the engines: the status code,
    the extra header values, the effective content type and body. *)
Definition redirect_directive (ctype : string)
  : option (option Z * string) :=
  if HasPrefix ctype "redirect:" then
    match SplitN ctype ":" 3 with
    | [_; code; location] => Some (Atoi code, location)
    | _ => None
    end
  else None.

Definition cookies_directive (ctype : string) : option (list string * string) :=
  if HasPrefix ctype "set-cookies:" then
    match SplitN ctype ":" 3 with
    | [_; cookies; real] => Some (Split cookies "|", real)
    | _ => None
    end
  else None.

Fixpoint string_of_bytes (bs : list Z) : string :=
  match bs with
  | [] => EmptyString
  | b :: r => String (ascii_of b) (string_of_bytes r)
  end.

(** The value [h3=":443"; ma=86400] of the Alt-Svc header. *)
Definition DQ : string := String "034" EmptyString.
Definition alt_svc_value : string := "h3=" ++ DQ ++ ":443" ++ DQ ++ "; ma=86400".

Definition content_encoding_of (path : string) : option string :=
  if HasPrefix path "/gzip" then Some "gzip"
  else if HasPrefix path "/deflate" then Some "deflate"
  else if HasPrefix path "/brotli" then Some "br"
  else None.

Section HTTP1.

Variable srv : Server.
(** The random request id and the measured response time of this call. *)
Variable requestID : string.
Variable responseTime : Z.

Definition respondToHTTP1 (resp : Response) : H1Outcome :=
  let '(res, ctype, isAdmin) :=
    if negb (String.eqb (Method resp) "OPTIONS")
    then (let (r, c) := Router srv (Path resp) resp in (r, c, false))
    else ([], "text/plain", true) in
  let (key, isKeySet) := GetAdmin srv in
  (* [for _, a := range resp.Http1.Headers] dereferences [resp.Http1] *)
  let admin_scan :=
    if isKeySet then
      match Http1 resp with
      | None => None
      | Some h1 =>
          Some (isAdmin || existsb (fun a => HasPrefix a key) (h1_Headers h1))
      end
    else Some isAdmin in
  match admin_scan with
  | None => H1Panic "invalid memory address or nil pointer dereference"
  | Some isAdmin =>
      let statusCode := extractStatusCode (Path resp) in
      let '(statusCode, extraHeaders, ctype, res) :=
        match redirect_directive ctype with
        | Some (code, location) =>
            (match code with Some c => c | None => statusCode end,
             ["Location: " ++ location], "text/html; charset=utf-8", [])
        | None => (statusCode, [], ctype, res)
        end in
      let '(extraHeaders, ctype) :=
        match cookies_directive ctype with
        | Some (cookies, real) =>
            (app extraHeaders (map (fun c => "Set-Cookie: " ++ c) cookies),
             real)
        | None => (extraHeaders, ctype)
        end in
      let res1 :=
        "HTTP/1.1 " ++ Itoa statusCode ++ " " ++ StatusText srv statusCode
          ++ CRLF in
      let res1 := res1 ++ "Content-Length: "
                    ++ Itoa (Z.of_nat (List.length res)) ++ CRLF in
      let res1 := res1 ++ "Content-Type: " ++ ctype ++ "; charset=utf-8"
                    ++ CRLF in
      let res1 := res1 ++ "X-Request-Id: " ++ requestID ++ CRLF in
      let res1 := res1 ++ "X-Response-Time: " ++ Itoa responseTime ++ CRLF in
      let res1 := fold_left (fun acc h => acc ++ h ++ CRLF) extraHeaders res1 in
      let res1 :=
        match content_encoding_of (Path resp) with
        | Some enc => res1 ++ "Content-Encoding: " ++ enc ++ CRLF
        | None => res1
        end in
      let res1 :=
        if isAdmin then
          res1 ++ "Access-Control-Allow-Origin: *" ++ CRLF
            ++ "Access-Control-Allow-Methods: *" ++ CRLF
            ++ "Access-Control-Allow-Headers: *" ++ CRLF
        else res1 in
      let res1 := res1 ++ "Server: TrackMe" ++ CRLF in
      let res1 := res1 ++ "Alt-Svc: " ++ alt_svc_value ++ CRLF in
      let res1 := res1 ++ CRLF in
      let res1 := res1 ++ string_of_bytes res in
      let res1 := res1 ++ CRLF ++ CRLF in
      H1Wrote res1
  end.

End HTTP1.

(** ** HPACK decoding (golang.org/x/net/http2/hpack, RFC 7541)

    A header block is taken as the sequence of field representations it
    carries; the integer and Huffman codings of the octets are not
    modelled.  Indexing, the static table, incremental indexing and
    eviction follow the decoder. *)

Module HPACK.

Definition HeaderField : Type := (string * string)%type.

Inductive HeaderRep : Type :=
| Indexed (index : nat)
| LiteralIncremental (nameIndex : nat) (name value : string)
| LiteralNoIndex (nameIndex : nat) (name value : string)
| TableSizeUpdate (size : Z).

Definition staticTable : list HeaderField :=
  [(":authority", ""); (":method", "GET"); (":method", "POST");
   (":path", "/"); (":path", "/index.html"); (":scheme", "http");
   (":scheme", "https"); (":status", "200"); (":status", "204");
   (":status", "206"); (":status", "304"); (":status", "400");
   (":status", "404"); (":status", "500"); ("accept-charset", "");
   ("accept-encoding", "gzip, deflate"); ("accept-language", "");
   ("accept-ranges", ""); ("accept", "");
   ("access-control-allow-origin", ""); ("age", ""); ("allow", "");
   ("authorization", ""); ("cache-control", "");
   ("content-disposition", ""); ("content-encoding", "");
   ("content-language", ""); ("content-length", "");
   ("content-location", ""); ("content-range", ""); ("content-type", "");
   ("cookie", ""); ("date", ""); ("etag", ""); ("expect", "");
   ("expires", ""); ("from", ""); ("host", ""); ("if-match", "");
   ("if-modified-since", ""); ("if-none-match", ""); ("if-range", "");
   ("if-unmodified-since", ""); ("last-modified", ""); ("link", "");
   ("location", ""); ("max-forwards", ""); ("proxy-authenticate", "");
   ("proxy-authorization", ""); ("range", ""); ("referer", "");
   ("refresh", ""); ("retry-after", ""); ("server", "");
   ("set-cookie", ""); ("strict-transport-security", "");
   ("transfer-encoding", ""); ("user-agent", ""); ("vary", "");
   ("via", ""); ("www-authenticate", "")].

(** The decoder: the dynamic table (newest entry first), its current
    maximum size and the maximum the peer may ask for. *)
Record Decoder : Type := {
  dynTab : list HeaderField;
  maxSize : Z;
  allowedMaxSize : Z
}.

(** [hpack.NewDecoder(maxDynamicTableSize, _)] *)
Definition NewDecoder (maxDynamicTableSize : Z) : Decoder :=
  {| dynTab := []; maxSize := maxDynamicTableSize;
     allowedMaxSize := maxDynamicTableSize |}.

(** [HeaderField.Size] *)
Definition field_size (f : HeaderField) : Z :=
  len (fst f) + len (snd f) + 32.

Definition table_size (t : list HeaderField) : Z :=
  fold_right (fun f acc => field_size f + acc) 0 t.

(** [dynamicTable.evict]: drop the oldest entries while the table is
    larger than [max]. *)
Fixpoint evict (max : Z) (t : list HeaderField) : list HeaderField :=
  match t with
  | [] => []
  | f :: older =>
      let kept := evict (max - field_size f) older in
      if field_size f <=? max then f :: kept else []
  end.

(** [dynamicTable.add] *)
Definition add (d : Decoder) (f : HeaderField) : Decoder :=
  {| dynTab := evict (maxSize d) (f :: dynTab d); maxSize := maxSize d;
     allowedMaxSize := allowedMaxSize d |}.

(** [Decoder.at]: index 0 is invalid, 1 to 61 is the static table, the
    dynamic table follows. *)
Definition at_index (d : Decoder) (i : nat) : option HeaderField :=
  match i with
  | O => None
  | S j =>
      if (i <=? List.length staticTable)%nat then nth_error staticTable j
      else nth_error (dynTab d) (i - List.length staticTable - 1)
  end.

Definition literal_field (d : Decoder) (nameIndex : nat) (name value : string)
  : option HeaderField :=
  match nameIndex with
  | O => Some (name, value)
  | _ => option_map (fun f => (fst f, value)) (at_index d nameIndex)
  end.

(** One representation: the new decoder state and the emitted field, or
    [None] for a decoding error.  [firstField] is the decoder's flag of the
    same name. *)
Definition decode_rep (d : Decoder) (firstField : bool) (r : HeaderRep)
  : option (Decoder * option HeaderField) :=
  match r with
  | Indexed i =>
      option_map (fun f => (d, Some f)) (at_index d i)
  | LiteralIncremental ni name value =>
      option_map (fun f => (add d f, Some f)) (literal_field d ni name value)
  | LiteralNoIndex ni name value =>
      option_map (fun f => (d, Some f)) (literal_field d ni name value)
  | TableSizeUpdate size =>
      if negb firstField && (0 <? table_size (dynTab d)) then None
      else if allowedMaxSize d <? size then None
      else Some ({| dynTab := evict size (dynTab d); maxSize := size;
                    allowedMaxSize := allowedMaxSize d |}, None)
  end.

Fixpoint decode_reps (d : Decoder) (firstField : bool) (block : list HeaderRep)
  (acc : list HeaderField) : Decoder * option (list HeaderField) :=
  match block with
  | [] => (d, Some acc)
  | r :: rest =>
      match decode_rep d firstField r with
      | None => (d, None)
      | Some (d', Some f) => decode_reps d' false rest (acc ++ [f])%list
      | Some (d', None) => decode_reps d' firstField rest acc
      end
  end.

(** [Decoder.DecodeFull]: the decoded fields, or an error; the decoder
    keeps whatever state the block left it in. *)
Definition DecodeFull (d : Decoder) (block : list HeaderRep)
  : Decoder * option (list HeaderField) :=
  decode_reps d true block [].

(** A peer's encoder, as [hpack.Encoder.WriteField] works: a field found in
    the tables is sent by index, any other one as a literal with
    incremental indexing.  The encoder's table mirrors the decoder's. *)
Fixpoint find_field (f : HeaderField) (t : list HeaderField) (i : nat)
  : option nat :=
  match t with
  | [] => None
  | g :: r =>
      if String.eqb (fst f) (fst g) && String.eqb (snd f) (snd g)
      then Some i else find_field f r (S i)
  end.

Definition encode_field (enc : Decoder) (f : HeaderField)
  : Decoder * HeaderRep :=
  match find_field f (staticTable ++ dynTab enc) 1 with
  | Some i => (enc, Indexed i)
  | None => (add enc f, LiteralIncremental 0 (fst f) (snd f))
  end.

Fixpoint encode_fields (enc : Decoder) (fs : list HeaderField)
  : Decoder * list HeaderRep :=
  match fs with
  | [] => (enc, [])
  | f :: r =>
      let (enc1, rep) := encode_field enc f in
      let (enc2, reps) := encode_fields enc1 r in
      (enc2, rep :: reps)
  end.

End HPACK.

(** ** The HTTP/2 connection engine (package server)

    The frame loop is the function [process_frame] applied to the frames in
    wire order.  A request task ([go c.handleRequest]) is run by the model
    at the moment its stream has ended on the client side: at once for a
    HEADERS frame with END_STREAM, otherwise when the DATA frame with
    END_STREAM arrives and closes the body channel the task waits on.
    A task still waiting when the loop ends is not run.  Closing races
    between tasks are the subject of [BodyClose] below. *)

Module H2.

Import HPACK.

(** Frames as [Framer.ReadFrame] returns them. *)
Inductive Frame : Type :=
| SettingsFrame (ack : bool) (settings : list (string * Z))
| HeadersFrame (StreamID : Z) (block : list HeaderRep) (StreamEnded : bool)
| DataFrame (StreamID : Z) (data : list Z) (StreamEnded : bool)
| WindowUpdateFrame (StreamID : Z) (increment : Z)
| PriorityFrame (StreamID : Z)
| PingFrame (ack : bool) (data : list Z)
| GoAwayFrame (lastStreamID : Z)
| RSTStreamFrame (StreamID : Z)
| OtherFrame (typeName : string) (StreamID : Z).

Definition frame_stream (f : Frame) : Z :=
  match f with
  | SettingsFrame _ _ | PingFrame _ _ | GoAwayFrame _ => 0
  | HeadersFrame sid _ _ | DataFrame sid _ _ | WindowUpdateFrame sid _
  | PriorityFrame sid | RSTStreamFrame sid | OtherFrame _ sid => sid
  end.

Definition frame_type (f : Frame) : string :=
  match f with
  | SettingsFrame _ _ => "SETTINGS"
  | HeadersFrame _ _ _ => "HEADERS"
  | DataFrame _ _ _ => "DATA"
  | WindowUpdateFrame _ _ => "WINDOW_UPDATE"
  | PriorityFrame _ => "PRIORITY"
  | PingFrame _ _ => "PING"
  | GoAwayFrame _ => "GOAWAY"
  | RSTStreamFrame _ => "RST_STREAM"
  | OtherFrame t _ => t
  end.

(** What the engine writes to the wire, one frame per call. *)
Inductive WireAction : Type :=
| WriteSettingsAck
| WriteHeaders (StreamID : Z) (fields : list HeaderField) (EndStream : bool)
| WriteData (StreamID : Z) (EndStream : bool) (chunk : list Z)
| WritePing (data : list Z)
| WriteRSTStream (StreamID : Z) (code : string)
| WriteGoAway (lastStreamID : Z) (code : string) (debug : string)
| ConnClose.

Inductive StreamState : Type :=
| StreamOpen | StreamHalfClosedRemote | StreamHalfClosedLocal | StreamClosed.

(** The body channel [chan []byte] of capacity 10. *)
Record Chan : Type := {
  ch_buf : list (list Z);
  ch_closed : bool
}.

Record HTTP2Stream : Type := {
  streamID : Z;
  state : StreamState;
  frames : list ParsedFrame;
  response : Chan;
  bodyClosed : bool;
  pending : list (list HeaderField)
    (** the request tasks dispatched for this stream that still wait for
        the body, each with the header list it was given *)
}.

(** One call of [handleRequest], as seen by the handler. *)
Record Delivery : Type := {
  dl_stream : Z;
  dl_headers : list HeaderField;   (** the decoded header list passed in *)
  dl_h2Headers : list string;
    (** the headers of the captured HEADERS frames, which feed JA4H *)
  dl_TLS : option TLSDetails       (** [resp.TLS] as the handler sees it *)
}.

Record HTTP2Connection : Type := {
  streams : list (Z * HTTP2Stream);
  lastStreamID : Z;
  closing : bool;
  hpackDecoder : Decoder;
  connectionFrames : list ParsedFrame;
  wire : list WireAction;
  deliveries : list Delivery;
  panicked : bool
}.

Definition NewHTTP2Connection : HTTP2Connection :=
  {| streams := []; lastStreamID := 0; closing := false;
     hpackDecoder := NewDecoder 4096; connectionFrames := [];
     wire := []; deliveries := []; panicked := false |}.

Fixpoint get_stream (sid : Z) (m : list (Z * HTTP2Stream)) : option HTTP2Stream :=
  match m with
  | [] => None
  | (k, s) :: r => if k =? sid then Some s else get_stream sid r
  end.

Fixpoint delete_stream (sid : Z) (m : list (Z * HTTP2Stream))
  : list (Z * HTTP2Stream) :=
  match m with
  | [] => []
  | (k, s) :: r =>
      if k =? sid then delete_stream sid r else (k, s) :: delete_stream sid r
  end.

Definition set_streams (c : HTTP2Connection) (m : list (Z * HTTP2Stream))
  : HTTP2Connection :=
  {| streams := m; lastStreamID := lastStreamID c; closing := closing c;
     hpackDecoder := hpackDecoder c; connectionFrames := connectionFrames c;
     wire := wire c; deliveries := deliveries c; panicked := panicked c |}.

Definition write (c : HTTP2Connection) (a : list WireAction) : HTTP2Connection :=
  {| streams := streams c; lastStreamID := lastStreamID c; closing := closing c;
     hpackDecoder := hpackDecoder c; connectionFrames := connectionFrames c;
     wire := (wire c ++ a)%list; deliveries := deliveries c;
     panicked := panicked c |}.

Definition set_panicked (c : HTTP2Connection) : HTTP2Connection :=
  {| streams := streams c; lastStreamID := lastStreamID c; closing := closing c;
     hpackDecoder := hpackDecoder c; connectionFrames := connectionFrames c;
     wire := wire c; deliveries := deliveries c; panicked := true |}.

Definition GetOrCreateStream (c : HTTP2Connection) (sid : Z)
  : HTTP2Connection * HTTP2Stream :=
  match get_stream sid (streams c) with
  | Some stream => (c, stream)
  | None =>
      let stream :=
        {| streamID := sid; state := StreamOpen; frames := [];
           response := {| ch_buf := []; ch_closed := false |};
           bodyClosed := false; pending := [] |} in
      ({| streams := (sid, stream) :: streams c;
          lastStreamID := if lastStreamID c <? sid then sid else lastStreamID c;
          closing := closing c; hpackDecoder := hpackDecoder c;
          connectionFrames := connectionFrames c; wire := wire c;
          deliveries := deliveries c; panicked := panicked c |}, stream)
  end.

(** The guarded close both closing paths share:
    [if !stream.bodyClosed { close(stream.response); stream.bodyClosed = true }] *)
Definition close_body (s : HTTP2Stream) : HTTP2Stream :=
  if bodyClosed s then s
  else {| streamID := streamID s; state := state s; frames := frames s;
          response := {| ch_buf := ch_buf (response s); ch_closed := true |};
          bodyClosed := true; pending := pending s |}.

Definition set_state (s : HTTP2Stream) (st : StreamState) : HTTP2Stream :=
  {| streamID := streamID s; state := st; frames := frames s;
     response := response s; bodyClosed := bodyClosed s;
     pending := pending s |}.

Fixpoint update_stream (s : HTTP2Stream) (m : list (Z * HTTP2Stream))
  : list (Z * HTTP2Stream) :=
  match m with
  | [] => []
  | (k, s0) :: r =>
      if k =? streamID s then (k, s) :: r else (k, s0) :: update_stream s r
  end.

(** [CloseStream]: the stream becomes closed, its channel is closed under
    the stream's mutex unless [bodyClosed] is already set, and the stream
    leaves the map. *)
Definition CloseStream (c : HTTP2Connection) (sid : Z) : HTTP2Connection :=
  match get_stream sid (streams c) with
  | Some stream =>
      let stream := close_body (set_state stream StreamClosed) in
      set_streams c (delete_stream sid (update_stream stream (streams c)))
  | None => c
  end.

Definition append_frame (s : HTTP2Stream) (p : ParsedFrame) : HTTP2Stream :=
  {| streamID := streamID s; state := state s;
     frames := (frames s ++ [p])%list; response := response s;
     bodyClosed := bodyClosed s; pending := pending s |}.

(** [strconv.Quote] on printable ASCII: the text between double quotes,
    with the double quote and the backslash escaped. *)
Fixpoint quote_body (s : string) : string :=
  match s with
  | EmptyString => EmptyString
  | String c r =>
      if Ascii.eqb c "034" then String "\" (String "034" (quote_body r))
      else if Ascii.eqb c "\" then String "\" (String "\" (quote_body r))
      else String c (quote_body r)
  end.

Definition Quote (s : string) : string := DQ ++ quote_body s ++ DQ.

(** The rendering of a captured header in [convertFrame]:
    [%q: %q], trimmed of its outer quotes, the inner [": "] replaced. *)
Definition render_header (h : HeaderField) : string :=
  let s := Quote (fst h) ++ ": " ++ Quote (snd h) in
  let s := Trim1 s "034" in
  ReplaceAll s (DQ ++ ": " ++ DQ) ": ".

Definition render_setting (s : string * Z) : string :=
  let setting := fst s ++ " = " ++ Itoa (snd s) in
  if HasPrefix setting "UNKNOWN_SETTING_9 = "
  then ReplaceAll setting "UNKNOWN_SETTING_9" "NO_RFC7540_PRIORITIES"
  else setting.

(** [convertFrame]: a HEADERS frame is decoded with a decoder created for
    this one frame ([hpack.NewDecoder(4096, ...)]); on a decoding error the
    frame is returned without headers. *)
Definition convertFrame (frame : Frame) : ParsedFrame :=
  let p := {| pf_Type := frame_type frame; pf_Stream := frame_stream frame;
              pf_Settings := []; pf_Headers := []; pf_Payload := [] |} in
  match frame with
  | SettingsFrame _ settings =>
      {| pf_Type := pf_Type p; pf_Stream := pf_Stream p;
         pf_Settings := map render_setting settings;
         pf_Headers := []; pf_Payload := [] |}
  | HeadersFrame _ block _ =>
      let d := NewDecoder 4096 in
      match snd (DecodeFull d block) with
      | None => p
      | Some h2Headers =>
          {| pf_Type := pf_Type p; pf_Stream := pf_Stream p;
             pf_Settings := []; pf_Headers := map render_header h2Headers;
             pf_Payload := [] |}
      end
  | DataFrame _ data _ =>
      {| pf_Type := pf_Type p; pf_Stream := pf_Stream p; pf_Settings := [];
         pf_Headers := []; pf_Payload := data |}
  | _ => p
  end.

Section Engine.

Context {sorter : StringSorter}.

Variable srv : Server.
(** [c.tlsFingerprint], the random request id and the measured response
    time (the same for every response of the run). *)
Variable tlsFingerprint : option TLSDetails.
Variable requestID : string.
Variable responseTime : Z.

(** Modelled from the spec: [utils.SplitBytesIntoChunks] is not among the
    sources; "emit DATA in chunks of at most 16,384 bytes". *)
Fixpoint chunks_fuel (fuel : nat) (size : nat) (bs : list Z) : list (list Z) :=
  match fuel with
  | O => []
  | S k =>
      match bs with
      | [] => []
      | _ => firstn size bs :: chunks_fuel k size (skipn size bs)
      end
  end.

Definition SplitBytesIntoChunks (bs : list Z) (size : Z) : list (list Z) :=
  chunks_fuel (List.length bs) (Z.to_nat size) bs.

Definition frame_has_key (key : string) (f : ParsedFrame) : bool :=
  String.eqb (pf_Type f) "HEADERS"
  && existsb (fun h => HasPrefix h key) (pf_Headers f).

Fixpoint data_actions (sid : Z) (chunks : list (list Z)) : list WireAction :=
  match chunks with
  | [] => []
  | [chunk] => [WriteData sid true chunk]
  | chunk :: rest => WriteData sid false chunk :: data_actions sid rest
  end.

(** [sendResponse]; the writes to the wire are taken to succeed.  The scan
    for the admin key ranges over [resp.Http2.SendFrames] and panics on a
    nil [resp.Http2] ([handleRequest] always sets it). *)
Definition sendResponse (c : HTTP2Connection) (sid : Z) (resp : Response)
  (path method : string) : HTTP2Connection :=
  let (res, ctype) := Router srv path resp in
  let (key, isKeySet) := GetAdmin srv in
  let admin_scan :=
    if isKeySet && String.eqb method "OPTIONS" then Some true
    else if isKeySet then
      match Http2 resp with
      | Some h2 => Some (existsb (frame_has_key key) (SendFrames h2))
      | None => None
      end
    else Some false in
  match admin_scan with
  | None => set_panicked c
  | Some isAdmin =>
  let statusCode := extractStatusCode path in
  let '(statusCode, extraHeaders, ctype, res) :=
    match redirect_directive ctype with
    | Some (code, location) =>
        (match code with Some code => code | None => statusCode end,
         [("location", location)], "text/html; charset=utf-8", [])
    | None => (statusCode, [], ctype, res)
    end in
  let '(extraHeaders, ctype) :=
    match cookies_directive ctype with
    | Some (cookies, real) =>
        (app extraHeaders (map (fun cookie => ("set-cookie", cookie)) cookies),
         real)
    | None => (extraHeaders, ctype)
    end in
  let fields : list HeaderField :=
    ([(":status", Itoa statusCode); ("server", "TrackMe.peet.ws");
      ("content-length", Itoa (Z.of_nat (List.length res)));
      ("content-type", ctype); ("x-request-id", requestID);
      ("x-response-time", Itoa responseTime)]
     ++ extraHeaders
     ++ match content_encoding_of path with
        | Some enc => [("content-encoding", enc)]
        | None => []
        end
     ++ [("alt-svc", alt_svc_value)]
     ++ (if isAdmin
         then [("access-control-allow-origin", "*");
               ("access-control-allow-methods", "*");
               ("access-control-allow-headers", "*")]
         else []))%list in
  let c :=
    write c [WriteHeaders sid fields (Z.of_nat (List.length res) =? 0)] in
  let c :=
    if 0 <? Z.of_nat (List.length res)
    then write c (data_actions sid (SplitBytesIntoChunks res 16384))
    else c in
  CloseStream c sid
  end.

Definition last_value (name : string) (headers : list HeaderField) : string :=
  fold_left
    (fun acc h => if String.eqb (fst h) name then snd h else acc)
    headers "".

Definition h2Headers_of (allFrames : list ParsedFrame) : list string :=
  fold_left
    (fun acc frame =>
       if String.eqb (pf_Type frame) "HEADERS"
       then (acc ++ pf_Headers frame)%list else acc)
    allFrames [].

Definition record_delivery (c : HTTP2Connection) (d : Delivery)
  : HTTP2Connection :=
  {| streams := streams c; lastStreamID := lastStreamID c; closing := closing c;
     hpackDecoder := hpackDecoder c; connectionFrames := connectionFrames c;
     wire := wire c; deliveries := (deliveries c ++ [d])%list;
     panicked := panicked c |}.

(** [handleRequest], from the point where the body wait is over. *)
Definition handleRequest (c : HTTP2Connection) (sid : Z)
  (headers : list HeaderField) (stream : HTTP2Stream) : HTTP2Connection :=
  let method := last_value ":method" headers in
  let path := last_value ":path" headers in
  let userAgent := last_value "user-agent" headers in
  let allFrames := (connectionFrames c ++ frames stream)%list in
  let h2Headers := h2Headers_of allFrames in
  let tls :=
    option_map
      (fun t => {| JA3Hash := JA3Hash t;
                   JA4H := CalculateJA4H method "h2" h2Headers;
                   JA4H_r := CalculateJA4H_r method "h2" h2Headers |})
      tlsFingerprint in
  let resp :=
    {| IP := ""; HTTPVersion := "h2"; Path := path; Method := method;
       UserAgent := userAgent; Http1 := None;
       Http2 := Some {| SendFrames := allFrames |}; TLS := tls |} in
  let c :=
    record_delivery c
      {| dl_stream := sid; dl_headers := headers; dl_h2Headers := h2Headers;
         dl_TLS := tls |} in
  sendResponse c sid resp path method.

Definition run_tasks (c : HTTP2Connection) (sid : Z) (stream : HTTP2Stream)
  : HTTP2Connection :=
  fold_left (fun c headers => handleRequest c sid headers stream)
            (pending stream) c.

Definition set_decoder (c : HTTP2Connection) (d : Decoder) : HTTP2Connection :=
  {| streams := streams c; lastStreamID := lastStreamID c; closing := closing c;
     hpackDecoder := d; connectionFrames := connectionFrames c;
     wire := wire c; deliveries := deliveries c; panicked := panicked c |}.

Definition add_connection_frame (c : HTTP2Connection) (p : ParsedFrame)
  : HTTP2Connection :=
  {| streams := streams c; lastStreamID := lastStreamID c; closing := closing c;
     hpackDecoder := hpackDecoder c;
     connectionFrames := (connectionFrames c ++ [p])%list;
     wire := wire c; deliveries := deliveries c; panicked := panicked c |}.

(** Append the captured frame to the stream of the given id. *)
Definition capture (c : HTTP2Connection) (sid : Z) (p : ParsedFrame)
  : HTTP2Connection * HTTP2Stream :=
  let (c, stream) := GetOrCreateStream c sid in
  let stream := append_frame stream p in
  (set_streams c (update_stream stream (streams c)), stream).

(** [handleData]: the payload is offered to the body channel (dropped when
    the buffer of 10 is full and nobody receives; a send on a closed
    channel is a run-time panic), then END_STREAM closes the channel once. *)
Definition handleData (c : HTTP2Connection) (sid : Z) (data : list Z)
  (ended : bool) : HTTP2Connection :=
  match get_stream sid (streams c) with
  | None => c
  | Some stream =>
      let ch := response stream in
      let '(ch, c) :=
        if ch_closed ch then (ch, set_panicked c)
        else
          match pending stream with
          | _ :: _ => (ch, c)
          | [] =>
              if (List.length (ch_buf ch) <? 10)%nat
              then ({| ch_buf := (ch_buf ch ++ [data])%list;
                       ch_closed := false |}, c)
              else (ch, c)
          end in
      let stream :=
        {| streamID := streamID stream; state := state stream;
           frames := frames stream; response := ch;
           bodyClosed := bodyClosed stream; pending := pending stream |} in
      let stream := if ended then close_body stream else stream in
      let c := set_streams c (update_stream stream (streams c)) in
      if ended then run_tasks c sid stream else c
  end.

Definition add_pending (s : HTTP2Stream) (headers : list HeaderField)
  : HTTP2Stream :=
  {| streamID := streamID s; state := state s; frames := frames s;
     response := response s; bodyClosed := bodyClosed s;
     pending := (pending s ++ [headers])%list |}.

(** One iteration of the loop of [processFrames]; the boolean tells
    whether the loop goes on. *)
Definition process_frame (c : HTTP2Connection) (frame : Frame)
  : HTTP2Connection * bool :=
  let parsedFrame := convertFrame frame in
  let c :=
    if frame_stream frame =? 0 then add_connection_frame c parsedFrame
    else c in
  match frame with
  | SettingsFrame ack _ =>
      (if negb ack then write c [WriteSettingsAck] else c, true)
  | HeadersFrame sid block ended =>
      let (c, stream) := capture c sid parsedFrame in
      let (d, decoded) := DecodeFull (hpackDecoder c) block in
      let c := set_decoder c d in
      match decoded with
      | None => (write c [WriteRSTStream sid "PROTOCOL_ERROR"], true)
      | Some headers =>
          if ended || bodyClosed stream
          then (handleRequest c sid headers stream, true)
          else (set_streams c
                  (update_stream (add_pending stream headers) (streams c)),
                true)
      end
  | DataFrame sid data ended =>
      let (c, _) := capture c sid parsedFrame in
      (handleData c sid data ended, true)
  | WindowUpdateFrame sid _ =>
      (if negb (sid =? 0) then fst (capture c sid parsedFrame) else c, true)
  | PriorityFrame sid =>
      (if negb (sid =? 0) then fst (capture c sid parsedFrame) else c, true)
  | PingFrame ack data =>
      (if negb ack then write c [WritePing data] else c, true)
  | GoAwayFrame _ => (c, false)
  | RSTStreamFrame sid =>
      match get_stream sid (streams c) with
      | Some stream => (run_tasks (CloseStream c sid) sid stream, true)
      | None => (c, true)
      end
  | OtherFrame _ _ => (c, true)
  end.

(** The loop while the connection is being read: the state after the
    given frames have arrived, and whether the loop is still running. *)
Fixpoint run_frames (c : HTTP2Connection) (fs : list Frame)
  : HTTP2Connection * bool :=
  match fs with
  | [] => (c, true)
  | f :: rest =>
      let (c', go) := process_frame c f in
      if go then run_frames c' rest else (c', false)
  end.

(** [gracefulShutdown], deferred by [processFrames]. *)
Definition gracefulShutdown (c : HTTP2Connection) : HTTP2Connection :=
  let c' :=
    {| streams := streams c; lastStreamID := lastStreamID c; closing := true;
       hpackDecoder := hpackDecoder c; connectionFrames := connectionFrames c;
       wire := wire c; deliveries := deliveries c; panicked := panicked c |} in
  if negb (closing c)
  then write c' [WriteGoAway (lastStreamID c) "NO_ERROR" "idle timeout";
                 ConnClose]
  else write c' [ConnClose].

(** [processFrames] on a connection on which exactly the given frames
    arrive before the read fails (or a GOAWAY ends the loop). *)
Definition processFrames (c : HTTP2Connection) (fs : list Frame)
  : HTTP2Connection :=
  gracefulShutdown (fst (run_frames c fs)).

End Engine.

End H2.

(** ** Tasks racing to close a stream's body channel

    A thread-level model of the guarded close that [handleData] (on
    END_STREAM) and [CloseStream] both execute on a stream they hold:
    [stream.mu.Lock(); if !stream.bodyClosed { close(stream.response);
    stream.bodyClosed = true }; stream.mu.Unlock()].  Any number of tasks
    of either kind run interleaved on the one stream, one atomic step at a
    time. *)

Module BodyClose.

Import H2.

(** The path a task runs: [handleData] on a DATA frame with END_STREAM, or
    [CloseStream] (on RST_STREAM, or after the response is written). *)
Inductive path : Type := ViaHandleData | ViaCloseStream.

Inductive pc : Type :=
| AtSetState  (** [CloseStream] only: about to set [stream.state = StreamClosed] *)
| AtLock      (** about to call [stream.mu.Lock()] *)
| AtCheck     (** holds the mutex, about to test [stream.bodyClosed] *)
| AtClose     (** about to call [close(stream.response)] *)
| AtSetFlag   (** about to set [stream.bodyClosed = true] *)
| AtUnlock    (** about to call [stream.mu.Unlock()] *)
| Done.

(** [close(stream.response)] *)
Definition close_response (s : HTTP2Stream) : HTTP2Stream :=
  {| streamID := streamID s; state := state s; frames := frames s;
     response := {| ch_buf := ch_buf (response s); ch_closed := true |};
     bodyClosed := bodyClosed s; pending := pending s |}.

(** [stream.bodyClosed = true] *)
Definition set_bodyClosed (s : HTTP2Stream) : HTTP2Stream :=
  {| streamID := streamID s; state := state s; frames := frames s;
     response := response s; bodyClosed := true; pending := pending s |}.

Record State : Type := {
  mu : option nat;        (** the task holding [stream.mu], if any *)
  stream : HTTP2Stream;   (** the stream the tasks share *)
  closes : nat;           (** calls of [close(stream.response)] so far *)
  pcs : nat -> pc         (** where each task stands *)
}.

(** The initial state for a stream and an assignment of paths to tasks. *)
Definition init (s0 : HTTP2Stream) (paths : nat -> path) : State :=
  {| mu := None; stream := s0; closes := 0;
     pcs := fun t => match paths t with
                     | ViaHandleData => AtLock
                     | ViaCloseStream => AtSetState
                     end |}.

Definition set_pc (f : nat -> pc) (t : nat) (p : pc) : nat -> pc :=
  fun t' => if Nat.eqb t' t then p else f t'.

(** One atomic step of task [t]; [None] when the task cannot move (it is
    blocked on the mutex or has finished). *)
Definition step (t : nat) (s : State) : option State :=
  match pcs s t with
  | AtSetState =>
      Some {| mu := mu s; stream := set_state (stream s) StreamClosed;
              closes := closes s; pcs := set_pc (pcs s) t AtLock |}
  | AtLock =>
      match mu s with
      | None => Some {| mu := Some t; stream := stream s; closes := closes s;
                        pcs := set_pc (pcs s) t AtCheck |}
      | Some _ => None
      end
  | AtCheck =>
      Some {| mu := mu s; stream := stream s; closes := closes s;
              pcs := set_pc (pcs s) t
                       (if bodyClosed (stream s) then AtUnlock else AtClose) |}
  | AtClose =>
      Some {| mu := mu s; stream := close_response (stream s);
              closes := S (closes s); pcs := set_pc (pcs s) t AtSetFlag |}
  | AtSetFlag =>
      Some {| mu := mu s; stream := set_bodyClosed (stream s);
              closes := closes s; pcs := set_pc (pcs s) t AtUnlock |}
  | AtUnlock =>
      Some {| mu := None; stream := stream s; closes := closes s;
              pcs := set_pc (pcs s) t Done |}
  | Done => None
  end.

(** An execution: the scheduler picks the tasks in the given order; a
    task that cannot move is passed over. *)
Fixpoint run (s : State) (schedule : list nat) : State :=
  match schedule with
  | [] => s
  | t :: rest =>
      match step t s with
      | Some s' => run s' rest
      | None => run s rest
      end
  end.

End BodyClose.

(** ** Regular expressions *)

Module Regex.

Inductive re : Type :=
| Empty
| Eps
| Chr (c : ascii)
| Rng (lo hi : ascii)          (** a character class [lo-hi] *)
| Cat (r1 r2 : re)
| Alt (r1 r2 : re).

Fixpoint rep (n : nat) (r : re) : re :=
  match n with
  | O => Eps
  | S k => Cat r (rep k r)
  end.

Fixpoint lit (s : string) : re :=
  match s with
  | EmptyString => Eps
  | String c r => Cat (Chr c) (lit r)
  end.

Definition in_range (lo hi c : ascii) : bool :=
  (byte_of lo <=? byte_of c) && (byte_of c <=? byte_of hi).

(** The whole string matches the expression. *)
Inductive Matches : re -> string -> Prop :=
| MEps : Matches Eps EmptyString
| MChr c : Matches (Chr c) (String c EmptyString)
| MRng lo hi c : in_range lo hi c = true -> Matches (Rng lo hi) (String c EmptyString)
| MCat r1 r2 s1 s2 : Matches r1 s1 -> Matches r2 s2 -> Matches (Cat r1 r2) (s1 ++ s2)
| MAltL r1 r2 s : Matches r1 s -> Matches (Alt r1 r2) s
| MAltR r1 r2 s : Matches r2 s -> Matches (Alt r1 r2) s.

Fixpoint nullable (r : re) : bool :=
  match r with
  | Empty | Chr _ | Rng _ _ => false
  | Eps => true
  | Cat r1 r2 => nullable r1 && nullable r2
  | Alt r1 r2 => nullable r1 || nullable r2
  end.

Fixpoint deriv (a : ascii) (r : re) : re :=
  match r with
  | Empty | Eps => Empty
  | Chr c => if Ascii.eqb a c then Eps else Empty
  | Rng lo hi => if in_range lo hi a then Eps else Empty
  | Cat r1 r2 =>
      if nullable r1 then Alt (Cat (deriv a r1) r2) (deriv a r2)
      else Cat (deriv a r1) r2
  | Alt r1 r2 => Alt (deriv a r1) (deriv a r2)
  end.

Fixpoint matchb (r : re) (s : string) : bool :=
  match s with
  | EmptyString => nullable r
  | String a rest => matchb (deriv a r) rest
  end.

Definition digit : re := Rng "0" "9".
Definition lower_hex : re := Alt (Rng "0" "9") (Rng "a" "f").
Definition alnum_lower : re := Alt (Rng "0" "9") (Rng "a" "z").

(** [t(10|11|12|13)[di][0-9]{2}[0-9]{2}(h1|h2|h3|[0-9a-z]{2})_[0-9a-f]{12}_[0-9a-f]{12}] *)
Definition ja4_regex : re :=
  Cat (Chr "t")
  (Cat (Alt (lit "10") (Alt (lit "11") (Alt (lit "12") (lit "13"))))
  (Cat (Alt (Chr "d") (Chr "i"))
  (Cat (rep 2 digit)
  (Cat (rep 2 digit)
  (Cat (Alt (lit "h1") (Alt (lit "h2") (Alt (lit "h3") (rep 2 alnum_lower))))
  (Cat (Chr "_")
  (Cat (rep 12 lower_hex)
  (Cat (Chr "_") (rep 12 lower_hex))))))))).

End Regex.

(** ** Sorting by insertion, for the examples and as a reference order *)

Section InsertionSort.

Variable A : Type.
Variable leb : A -> A -> bool.

Fixpoint insert (x : A) (l : list A) : list A :=
  match l with
  | [] => [x]
  | y :: r => if leb x y then x :: l else y :: insert x r
  end.

Fixpoint isort (l : list A) : list A :=
  match l with
  | [] => []
  | x :: r => insert x (isort r)
  end.

End InsertionSort.

(** The four lowercase hexadecimal digits of a 16-bit identifier. *)
Definition hex4 (v : Z) : string :=
  String (digit_char false (v / 4096 mod 16))
    (String (digit_char false (v / 256 mod 16))
       (String (digit_char false (v / 16 mod 16))
          (String (digit_char false (v mod 16)) EmptyString))).

Definition is_lower_hex (c : ascii) : bool :=
  Regex.in_range "0" "9" c || Regex.in_range "a" "f" c.

Fixpoint all_chars (p : ascii -> bool) (s : string) : bool :=
  match s with
  | EmptyString => true
  | String c r => p c && all_chars p r
  end.

(** * Properties *)

(** ** The byte-wise order on strings *)

Lemma byte_of_inj (x y : ascii) : byte_of x = byte_of y -> x = y.
Proof.
  unfold byte_of. intros H. apply N2Z.inj in H.
  rewrite <- (ascii_N_embedding x), <- (ascii_N_embedding y).
  now rewrite H.
Qed.

Lemma str_leb_refl (a : string) : str_leb a a = true.
Proof.
  induction a as [|x a IH]; simpl; [reflexivity|].
  rewrite Z.ltb_irrefl, Z.eqb_refl. exact IH.
Qed.

Lemma str_leb_trans (a b c : string) :
  str_leb a b = true -> str_leb b c = true -> str_leb a c = true.
Proof.
  revert b c. induction a as [|x a IH]; intros [|y b] [|z c]; simpl; auto;
    try discriminate.
  destruct (Z.ltb_spec (byte_of x) (byte_of y)) as [Hxy|Hxy];
  destruct (Z.ltb_spec (byte_of y) (byte_of z)) as [Hyz|Hyz];
  destruct (Z.eqb_spec (byte_of x) (byte_of y)) as [Exy|Exy];
  destruct (Z.eqb_spec (byte_of y) (byte_of z)) as [Eyz|Eyz];
  destruct (Z.ltb_spec (byte_of x) (byte_of z)) as [Hxz|Hxz];
  destruct (Z.eqb_spec (byte_of x) (byte_of z)) as [Exz|Exz];
  intros H1 H2; try reflexivity; try discriminate; try lia.
  eapply IH; eassumption.
Qed.

Lemma str_leb_antisym (a b : string) :
  str_leb a b = true -> str_leb b a = true -> a = b.
Proof.
  revert b. induction a as [|x a IH]; intros [|y b]; simpl; auto;
    try discriminate.
  destruct (Z.ltb_spec (byte_of x) (byte_of y)) as [Hxy|Hxy];
  destruct (Z.ltb_spec (byte_of y) (byte_of x)) as [Hyx|Hyx];
  destruct (Z.eqb_spec (byte_of x) (byte_of y)) as [Exy|Exy];
  destruct (Z.eqb_spec (byte_of y) (byte_of x)) as [Eyx|Eyx];
  intros H1 H2; try discriminate; try lia.
  f_equal; [now apply byte_of_inj | now apply IH].
Qed.

Lemma str_leb_total (a b : string) :
  str_leb a b = true \/ str_leb b a = true.
Proof.
  revert b. induction a as [|x a IH]; intros [|y b]; simpl; auto.
  destruct (Z.ltb_spec (byte_of x) (byte_of y)) as [Hxy|Hxy]; auto.
  destruct (Z.ltb_spec (byte_of y) (byte_of x)) as [Hyx|Hyx]; auto.
  destruct (Z.eqb_spec (byte_of x) (byte_of y)) as [Exy|Exy];
  destruct (Z.eqb_spec (byte_of y) (byte_of x)) as [Eyx|Eyx]; try lia.
  apply IH.
Qed.

(** ** Sorting: insertion sort is a sort, and sorted rearrangements are unique *)

Section SortTheory.

Variable A : Type.
Variable leb : A -> A -> bool.
Hypothesis leb_total : forall a b, leb a b = true \/ leb b a = true.
Hypothesis leb_trans :
  forall a b c, leb a b = true -> leb b c = true -> leb a c = true.
Hypothesis leb_antisym : forall a b, leb a b = true -> leb b a = true -> a = b.

Let le (a b : A) : Prop := leb a b = true.

Lemma insert_perm (x : A) (l : list A) : Permutation (x :: l) (insert leb x l).
Proof.
  induction l as [|y r IH]; simpl; [reflexivity|].
  destruct (leb x y); [reflexivity|].
  rewrite perm_swap. now constructor.
Qed.

Lemma isort_perm (l : list A) : Permutation l (isort leb l).
Proof.
  induction l as [|x r IH]; simpl; [constructor|].
  rewrite <- insert_perm. now constructor.
Qed.

Lemma insert_hdrel (a x : A) (l : list A) :
  le a x -> HdRel le a l -> HdRel le a (insert leb x l).
Proof.
  intros Hax Hl. destruct l as [|y r]; simpl; [now constructor|].
  destruct (leb x y); constructor; [exact Hax|].
  now inversion Hl.
Qed.

Lemma insert_sorted (x : A) (l : list A) :
  Sorted le l -> Sorted le (insert leb x l).
Proof.
  induction 1 as [|y r Hr IH Hy]; simpl; [repeat constructor|].
  destruct (leb x y) eqn:E.
  - constructor; [now constructor | now constructor].
  - constructor; [exact IH|].
    apply insert_hdrel; [|exact Hy].
    destruct (leb_total x y) as [H|H]; [congruence | exact H].
Qed.

Lemma isort_sorted (l : list A) : Sorted le (isort leb l).
Proof.
  induction l as [|x r IH]; simpl; [constructor | now apply insert_sorted].
Qed.

Lemma le_transitive : Relations_1.Transitive le.
Proof. intros a b c. apply leb_trans. Qed.

Lemma leb_refl (a : A) : leb a a = true.
Proof. destruct (leb_total a a); assumption. Qed.

Lemma sorted_perm_unique (l1 l2 : list A) :
  Sorted le l1 -> Sorted le l2 -> Permutation l1 l2 -> l1 = l2.
Proof.
  intros S1 S2. apply (Sorted_StronglySorted le_transitive) in S1, S2.
  revert l2 S2. induction S1 as [|a l1 S1 IH Ha]; intros l2 S2 P.
  - now apply Permutation_nil in P.
  - destruct S2 as [|b l2 S2 Hb].
    + symmetry in P. now apply Permutation_nil in P.
    + assert (Hab : le a b).
      { assert (I : In b (a :: l1))
          by (eapply Permutation_in; [symmetry; exact P | now left]).
        destruct I as [->|I]; [apply leb_refl|].
        rewrite Forall_forall in Ha. now apply Ha. }
      assert (Hba : le b a).
      { assert (I : In a (b :: l2))
          by (eapply Permutation_in; [exact P | now left]).
        destruct I as [->|I]; [apply leb_refl|].
        rewrite Forall_forall in Hb. now apply Hb. }
      assert (a = b) by now apply leb_antisym. subst b.
      f_equal. apply IH; [exact S2|].
      now apply Permutation_cons_inv in P.
Qed.

End SortTheory.

(** The reference sorter: insertion sort with the byte-wise order. *)
#[export] Instance InsertionSorter : StringSorter := {|
  sortStrings := isort str_leb;
  sortStrings_sorted := isort_sorted str_leb str_leb_total;
  sortStrings_perm := isort_perm str_leb
|}.

(** A second sorter, working on the reversed input. *)
#[export] Instance ReverseInsertionSorter : StringSorter := {|
  sortStrings := fun l => isort str_leb (rev l);
  sortStrings_sorted := fun l => isort_sorted str_leb str_leb_total (rev l);
  sortStrings_perm := fun l =>
    Permutation_trans (Permutation_rev l) (isort_perm str_leb (rev l))
|}.

(** Whatever algorithm [sort.Strings] uses, its result is the one of the
    insertion sort. *)
Lemma sortStrings_canonical (S : StringSorter) (l : list string) :
  sortStrings l = isort str_leb l.
Proof.
  apply (sorted_perm_unique str_leb str_leb_total str_leb_trans str_leb_antisym).
  - apply sortStrings_sorted.
  - apply (isort_sorted str_leb str_leb_total).
  - rewrite <- sortStrings_perm. apply isort_perm.
Qed.

(** ** Regular expressions: the derivative matcher decides [Matches] *)

Module RegexFacts.
Import Regex.

Lemma nullable_sound (r : re) : nullable r = true -> Matches r EmptyString.
Proof.
  induction r; simpl; intros H; try discriminate.
  - constructor.
  - apply andb_prop in H as [H1 H2].
    change EmptyString with (EmptyString ++ EmptyString)%string.
    constructor; auto.
  - apply orb_prop in H as [H|H]; [apply MAltL | apply MAltR]; auto.
Qed.

Lemma nullable_complete (r : re) : Matches r EmptyString -> nullable r = true.
Proof.
  intros H. remember EmptyString as s eqn:E.
  induction H; simpl; try discriminate; auto.
  - destruct s1; [|discriminate]. simpl in E. subst s2.
    rewrite IHMatches1, IHMatches2; auto.
  - rewrite IHMatches; auto.
  - rewrite IHMatches; auto. apply orb_true_r.
Qed.

Lemma deriv_sound (a : ascii) (r : re) (s : string) :
  Matches (deriv a r) s -> Matches r (String a s).
Proof.
  revert s. induction r; simpl; intros s H.
  - inversion H.
  - inversion H.
  - destruct (Ascii.eqb_spec a c) as [->|]; inversion H; subst. constructor.
  - destruct (in_range lo hi a) eqn:E; inversion H; subst. now constructor.
  - destruct (nullable r1) eqn:N.
    + inversion H as [| | | | ? ? ? H1 | ? ? ? H2]; subst.
      * inversion H1 as [| | |? ? s1 s2 M1 M2| |]; subst.
        change (String a (s1 ++ s2)) with (String a s1 ++ s2)%string.
        constructor; auto.
      * change (String a s) with (EmptyString ++ String a s)%string.
        constructor; [now apply nullable_sound | auto].
    + inversion H as [| | |? ? s1 s2 M1 M2| |]; subst.
      change (String a (s1 ++ s2)) with (String a s1 ++ s2)%string.
      constructor; auto.
  - inversion H; subst; [apply MAltL | apply MAltR]; auto.
Qed.

Lemma deriv_complete (a : ascii) (r : re) (s : string) :
  Matches r (String a s) -> Matches (deriv a r) s.
Proof.
  intros H. remember (String a s) as w eqn:E. revert a s E.
  induction H; intros a s0 E; simpl; try discriminate.
  - injection E as -> <-. rewrite Ascii.eqb_refl. constructor.
  - injection E as -> <-. rewrite H. constructor.
  - destruct s1 as [|b s1'].
    + simpl in E. subst s2.
      rewrite (nullable_complete H). apply MAltR. now apply IHMatches2.
    + simpl in E. injection E as -> <-.
      destruct (nullable r1); [apply MAltL|]; constructor; auto.
  - apply MAltL. now apply IHMatches.
  - apply MAltR. now apply IHMatches.
Qed.

Lemma matchb_sound (r : re) (s : string) : matchb r s = true -> Matches r s.
Proof.
  revert r. induction s as [|a s IH]; simpl; intros r H.
  - now apply nullable_sound.
  - apply deriv_sound. now apply IH.
Qed.

Lemma matchb_complete (r : re) (s : string) : Matches r s -> matchb r s = true.
Proof.
  revert r. induction s as [|a s IH]; simpl; intros r H.
  - now apply nullable_complete.
  - apply IH. now apply deriv_complete.
Qed.

Lemma matchb_false (r : re) (s : string) : matchb r s = false -> ~ Matches r s.
Proof.
  intros H M. apply matchb_complete in M. congruence.
Qed.

(** A string of [n] characters of a class matches the class repeated. *)
Lemma rep_class (r : re) (p : ascii -> bool) (s : string) :
  (forall c, p c = true -> Matches r (String c EmptyString)) ->
  all_chars p s = true -> Matches (rep (String.length s) r) s.
Proof.
  intros Hc. induction s as [|c s IH]; simpl; intros H.
  - constructor.
  - apply andb_prop in H as [H1 H2].
    change (String c s) with (String c EmptyString ++ s)%string.
    constructor; auto.
Qed.

Lemma lower_hex_char (c : ascii) :
  is_lower_hex c = true -> Matches lower_hex (String c EmptyString).
Proof.
  unfold is_lower_hex, lower_hex. intros H.
  apply orb_prop in H as [H|H]; [apply MAltL | apply MAltR]; now constructor.
Qed.

End RegexFacts.

(** ** Facts on the renderings, checked over their whole (finite) domain *)

Fixpoint check_from (P : Z -> bool) (fuel : nat) (z : Z) : bool :=
  match fuel with
  | O => true
  | S k => P z && check_from P k (z + 1)
  end.

Lemma check_from_spec (P : Z -> bool) (fuel : nat) (z : Z) :
  check_from P fuel z = true ->
  forall n, z <= n < z + Z.of_nat fuel -> P n = true.
Proof.
  revert z. induction fuel as [|k IH]; intros z H n Hn.
  - simpl in Hn. lia.
  - simpl in H. apply andb_prop in H as [H0 H1].
    destruct (Z.eq_dec n z) as [->|Hne]; [exact H0|].
    apply (IH (z + 1) H1 n). lia.
Qed.

Lemma check_below (P : Z -> bool) (k : Z) :
  check_from P (Z.to_nat k) 0 = true -> forall n, 0 <= n < k -> P n = true.
Proof.
  intros H n Hn. apply (@check_from_spec P (Z.to_nat k) 0 H).
  rewrite Z2Nat.id; lia.
Qed.

Lemma fmt_02d_two_digits (n : Z) :
  0 <= n <= 99 -> Regex.matchb (Regex.rep 2 Regex.digit) (fmt_02d n) = true.
Proof.
  intros H.
  apply (@check_below
           (fun n => Regex.matchb (Regex.rep 2 Regex.digit) (fmt_02d n))
           100); [vm_cast_no_check (eq_refl true) | lia].
Qed.

Lemma fmt_04x_hex4 (v : Z) : is_uint16 v -> fmt_04x v = hex4 v.
Proof.
  intros H.
  apply String.eqb_eq.
  apply (@check_below (fun v => String.eqb (fmt_04x v) (hex4 v)) 65536);
    [vm_cast_no_check (eq_refl true) | exact H].
Qed.

Lemma hex4_step (v : Z) :
  0 <= v < 65535 -> str_leb (hex4 v) (hex4 (v + 1)) = true.
Proof.
  intros H.
  apply (@check_below (fun v => str_leb (hex4 v) (hex4 (v + 1))) 65535);
    [vm_cast_no_check (eq_refl true) | exact H].
Qed.

(** On 16-bit identifiers the order of the renderings is the numeric order. *)
Lemma hex4_monotone (a b : Z) :
  is_uint16 a -> is_uint16 b -> a <= b -> str_le (hex4 a) (hex4 b).
Proof.
  unfold is_uint16, str_le. intros Ha Hb Hab.
  remember (Z.to_nat (b - a)) as k eqn:Ek.
  revert b Hb Hab Ek. induction k as [|k IH]; intros b Hb Hab Ek.
  - assert (b = a) by lia. subst b. apply str_leb_refl.
  - apply str_leb_trans with (hex4 (b - 1)).
    + apply IH; lia.
    + replace b with (b - 1 + 1) at 2 by lia. apply hex4_step. lia.
Qed.

Lemma hex_digit_lower (x : Z) :
  is_lower_hex (digit_char false (x mod 16)) = true.
Proof.
  apply (@check_below (fun d => is_lower_hex (digit_char false d)) 16);
    [vm_cast_no_check (eq_refl true)|].
  apply Z.mod_pos_bound. lia.
Qed.

Lemma hex4_shape (v : Z) :
  String.length (hex4 v) = 4%nat /\ all_chars is_lower_hex (hex4 v) = true.
Proof.
  split; [reflexivity|].
  unfold hex4. cbn [all_chars]. rewrite !hex_digit_lower. reflexivity.
Qed.

(** The SHA-256 model on the standard test vectors. *)
Example sha256_abc :
  sha256_hex "abc"
  = "ba7816bf8f01cfea414140de5dae2223b00361a396177a9cb410ff61f20015ad".
Proof. vm_compute. reflexivity. Qed.

Example sha256_empty :
  sha256_hex ""
  = "e3b0c44298fc1c149afbf4c8996fb92427ae41e4649b934ca495991b7852b855".
Proof. vm_compute. reflexivity. Qed.

Example sha256_two_blocks :
  sha256_hex "abcdbcdecdefdefgefghfghighijhijkijkljklmklmnlmnomnopnopq"
  = "248d6a61d20638b8e5c026930c3e6039a33ce45964ff2167f6ecedd419db06c1".
Proof. vm_compute. reflexivity. Qed.

(** ** The truncated SHA-256 is twelve lowercase hexadecimal digits *)

Lemma hex_encode_chars (bs : list Z) :
  all_chars is_lower_hex (hex_encode bs) = true.
Proof.
  induction bs as [|b r IH]; [reflexivity|].
  cbn [hex_encode all_chars]. rewrite !hex_digit_lower. exact IH.
Qed.

Lemma hex_encode_length (bs : list Z) :
  String.length (hex_encode bs) = (2 * List.length bs)%nat.
Proof.
  induction bs as [|b r IH]; [reflexivity|].
  cbn [hex_encode String.length List.length]. rewrite IH. lia.
Qed.

Lemma Sum256_length (msg : list Z) : List.length (SHA256.Sum256 msg) = 32%nat.
Proof.
  unfold SHA256.Sum256, SHA256.regs_words.
  cbn [flat_map]. rewrite !length_app.
  unfold SHA256.be_bytes. rewrite !length_map, !length_seq. reflexivity.
Qed.

Lemma substring0_length (n : nat) (s : string) :
  (n <= String.length s)%nat -> String.length (String.substring 0 n s) = n.
Proof.
  revert s. induction n as [|n IH]; intros [|c s] H; simpl in *; try lia;
    try reflexivity.
  rewrite IH; lia.
Qed.

Lemma substring0_chars (p : ascii -> bool) (n : nat) (s : string) :
  all_chars p s = true -> all_chars p (String.substring 0 n s) = true.
Proof.
  revert s. induction n as [|n IH]; intros [|c s] H; simpl in *; auto.
  apply andb_prop in H as [H1 H2]. rewrite H1. simpl. now apply IH.
Qed.

Lemma SHA256trunc_shape (text : string) :
  String.length (SHA256trunc text) = 12%nat
  /\ all_chars is_lower_hex (SHA256trunc text) = true.
Proof.
  unfold SHA256trunc, sha256_hex. split.
  - apply substring0_length.
    rewrite hex_encode_length, Sum256_length. lia.
  - apply substring0_chars, hex_encode_chars.
Qed.

(** ** An instance of the kernel's dependencies and a sample ClientHello *)

(** Modelled from the spec: "the 16 reserved-for-grease codepoints 0x0A0A,
    0x1A1A, ... 0xFAFA"; a cipher suite is named by its ["0x%04X"]
    rendering, and only dotted IPv4 quads count as IP literals. *)
Definition grease_values : list Z :=
  map (fun k => 4112 * k + 2570)
      [0; 1; 2; 3; 4; 5; 6; 7; 8; 9; 10; 11; 12; 13; 14; 15].

Definition is_ipv4 (s : string) : bool :=
  let parts := Split s "." in
  (List.length parts =? 4)%nat
  && forallb (fun p => match parse_unsigned p with
                       | Some v => v <=? 255
                       | None => false
                       end) parts.

#[export] Instance SpecDeps : KernelDeps := {|
  GetCipherSuiteName := fmt_0x04X;
  IsGrease := fun s => existsb (String.eqb s) (map fmt_0x04X grease_values);
  ParseIP_ok := is_ipv4
|}.

(** A TLS 1.3 hello with GREASE in its cipher and extension lists. *)
Definition sample_hello : ClientHello := {|
  Version := 771;
  CipherSuites := [0x0A0A; 0x1301; 0x1302; 0xC02F];
  Extensions := [ExtMap (Some "example.com"); ExtOther];
  AllExtensions := [0x1A1A; 0x0000; 0x0017; 0x000D; 0x0010; 0x002B; 0x000A; 0x0015];
  SupportedGroups := [0x2A2A; 0x001D; 0x0017];
  SupportedPoints := [0];
  SignatureAlgorithms := [0x0804; 0x0403];
  SupportedProtocols := ["h2"; "http/1.1"]
|}.

(** ** C2: JA4 part C *)

(** The extension identifiers part C lists, in the words of the
    specification: not GREASE, and none of SNI (0x0000), ALPN (0x0010) and
    padding (0x0015). *)
Definition ja4c_kept {deps : KernelDeps} (ext : Z) : bool :=
  negb (IsGrease (fmt_0x04X ext)) && negb (existsb (Z.eqb ext) [0; 16; 21]).

(** The signature-algorithm suffix: absent without signature algorithms,
    otherwise [_] and the identifiers in wire order. *)
Definition sigalgs_suffix (algs : list Z) : string :=
  match algs with
  | [] => ""
  | _ => "_" ++ Join (map hex4 algs) ","
  end.

Lemma map_fmt_04x_hex4 (l : list Z) :
  Forall is_uint16 l -> map fmt_04x l = map hex4 l.
Proof.
  induction 1 as [|v l Hv Hl IH]; simpl; [reflexivity|].
  now rewrite IH, fmt_04x_hex4.
Qed.

Lemma Forall_filter (A : Type) (P : A -> Prop) (f : A -> bool) (l : list A) :
  Forall P l -> Forall P (filter f l).
Proof.
  induction 1 as [|x l Hx Hl IH]; simpl; [constructor|].
  destruct (f x); [now constructor | exact IH].
Qed.

Lemma Zleb_total (a b : Z) : (a <=? b) = true \/ (b <=? a) = true.
Proof. rewrite !Z.leb_le. lia. Qed.

Lemma isortZ_sorted (l : list Z) : Sorted Z.le (isort Z.leb l).
Proof.
  pose proof (isort_sorted Z.leb Zleb_total l) as H.
  induction H as [|a r Hr IH Ha]; constructor; [exact IH|].
  destruct Ha; constructor. now apply Z.leb_le.
Qed.

Lemma hex4_sorted (ids : list Z) :
  Forall is_uint16 ids -> Sorted Z.le ids -> Sorted str_le (map hex4 ids).
Proof.
  intros Hr Hs. induction Hs as [|a r Hs IH Ha]; simpl; [constructor|].
  inversion Hr as [|? ? Hra Hrr]; subst.
  constructor; [now apply IH|].
  destruct Ha as [|b r' Hab]; simpl; constructor.
  inversion Hrr; subst. now apply hex4_monotone.
Qed.

(** Sorting the renderings is rendering the numerically sorted
    identifiers, whatever the sorting routine. *)
Lemma sort_hex4 (S : StringSorter) (l : list Z) :
  Forall is_uint16 l ->
  sortStrings (map hex4 l) = map hex4 (isort Z.leb l).
Proof.
  intros Hl.
  apply (sorted_perm_unique str_leb str_leb_total str_leb_trans str_leb_antisym).
  - apply sortStrings_sorted.
  - apply hex4_sorted; [|apply isortZ_sorted].
    eapply Permutation_Forall; [apply isort_perm | exact Hl].
  - rewrite <- sortStrings_perm. apply Permutation_map, isort_perm.
Qed.


Example ja4c_sample :
  @ja4c_r_direct InsertionSorter SpecDeps sample_hello
    = "000a,000d,0017,002b_0804,0403"
  /\ @ja4c_direct InsertionSorter SpecDeps sample_hello = "a73b35d57c2a".
Proof. split; vm_compute; reflexivity. Qed.

Lemma sample_hello_uint16 :
  Forall is_uint16 (AllExtensions sample_hello)
  /\ Forall is_uint16 (SignatureAlgorithms sample_hello).
Proof. split; repeat constructor; unfold is_uint16; lia. Defined.


(** ** C3: the shape of the JA4 string *)

Import Regex RegexFacts.

Definition is_alnum_lower (c : ascii) : bool :=
  in_range "0" "9" c || in_range "a" "z" c.

(** The first ALPN value is one of the mapped protocol names, as it stands
    or in lower case. *)
Definition alpn_mapped (alpn : string) : bool :=
  match map_get alpn httpVersionMapping with
  | Some _ => true
  | None =>
      match map_get (ToLower alpn) httpVersionMapping with
      | Some _ => true
      | None => false
      end
  end.

(** No ALPN at all, or a first ALPN value that is empty, a mapped protocol
    name, or begins and ends with a character of [0-9a-z]. *)
Definition first_alpn_plain (protocols : list string) : bool :=
  match protocols with
  | [] => true
  | alpn :: _ =>
      alpn_mapped alpn
      || match alpn with
         | EmptyString => true
         | String c0 r => is_alnum_lower c0 && is_alnum_lower (last_byte c0 r)
         end
  end.

Definition alpn_re : re :=
  Alt (lit "h1") (Alt (lit "h2") (Alt (lit "h3") (rep 2 alnum_lower))).

Lemma append_assoc (a b c : string) : ((a ++ b) ++ c = a ++ (b ++ c))%string.
Proof. induction a as [|x a IH]; simpl; [reflexivity | now rewrite IH]. Qed.

Lemma count_if_nonneg (p : Z -> bool) (l : list Z) : 0 <= count_if p l.
Proof.
  unfold count_if.
  assert (G : forall n, 0 <= n ->
                0 <= fold_left (fun n x => if p x then n + 1 else n) l n).
  { induction l as [|x l IH]; simpl; intros n Hn; [exact Hn|].
    apply IH. destruct (p x); lia. }
  apply G. lia.
Qed.

Lemma cap99_range (n : Z) : 0 <= n -> 0 <= cap99 n <= 99.
Proof. unfold cap99. destruct (Z.gtb_spec n 99); lia. Qed.

Lemma counter_two_digits (p : Z -> bool) (l : list Z) :
  Matches (rep 2 digit) (fmt_02d (cap99 (count_if p l))).
Proof.
  apply matchb_sound, fmt_02d_two_digits, cap99_range, count_if_nonneg.
Qed.

Lemma detectSNI_d_or_i (D : KernelDeps) (parsed : ClientHello) :
  Matches (Alt (Chr "d") (Chr "i")) (detectSNI parsed).
Proof.
  unfold detectSNI. induction (Extensions parsed) as [|e r IH]; simpl.
  - apply MAltL. constructor.
  - destruct e as [[sn|]|nm sn|]; try exact IH.
    + destruct (negb (String.eqb sn "")); [|exact IH].
      destruct (ParseIP_ok sn); [apply MAltR | apply MAltL]; constructor.
    + destruct (negb (String.eqb sn "")); [|exact IH].
      destruct (ParseIP_ok sn); [apply MAltR | apply MAltL]; constructor.
Qed.

Lemma version_two_digits (v : string) :
  In v ["769"; "770"; "771"; "772"] ->
  Matches (Alt (lit "10") (Alt (lit "11") (Alt (lit "12") (lit "13"))))
          (getOrReturnOG v tlsVersionMapping).
Proof.
  intros H. apply matchb_sound.
  simpl in H. decompose [or] H; subst; try contradiction; reflexivity.
Qed.

Lemma mapped_value (k m : string) :
  map_get k httpVersionMapping = Some m -> m = "h1" \/ m = "h2" \/ m = "h3".
Proof.
  unfold httpVersionMapping. simpl.
  repeat match goal with
         | |- context [String.eqb ?a ?b] => destruct (String.eqb a b)
         end; intros H; inversion H; auto.
Qed.

Lemma mapped_matches (k m : string) :
  map_get k httpVersionMapping = Some m -> Matches alpn_re m.
Proof.
  intros H. apply matchb_sound.
  destruct (mapped_value _ H) as [->|[->| ->]]; reflexivity.
Qed.

Lemma alnum_lower_char (c : ascii) :
  is_alnum_lower c = true -> Matches alnum_lower (String c EmptyString).
Proof.
  unfold is_alnum_lower, alnum_lower. intros H.
  apply orb_prop in H as [H|H]; [apply MAltL | apply MAltR]; now constructor.
Qed.

Lemma alnum_lower_plain (c : ascii) :
  is_alnum_lower c = true -> string_of_byte c = str1 c.
Proof.
  unfold is_alnum_lower, in_range, string_of_byte. intros H.
  assert (B : byte_of c < 128).
  { change (byte_of "9") with 57 in H. change (byte_of "z") with 122 in H.
    apply orb_prop in H as [H|H]; apply andb_prop in H as [_ H];
      apply Z.leb_le in H; lia. }
  apply Z.ltb_lt in B. now rewrite B.
Qed.

Lemma firstALPN_matches (protocols : list string) :
  first_alpn_plain protocols = true ->
  Matches alpn_re (firstALPN_of protocols).
Proof.
  destruct protocols as [|alpn rest]; unfold first_alpn_plain, firstALPN_of.
  - intros _. apply matchb_sound. reflexivity.
  - unfold alpn_mapped.
    destruct (map_get alpn httpVersionMapping) as [m|] eqn:E1.
    { intros _. eapply mapped_matches; eassumption. }
    destruct (map_get (ToLower alpn) httpVersionMapping) as [m|] eqn:E2.
    { intros _. eapply mapped_matches; eassumption. }
    cbn [orb]. destruct alpn as [|c0 r].
    + intros _. apply matchb_sound. reflexivity.
    + intros H. apply andb_prop in H as [H0 H1].
      assert (G : Matches alpn_re
                    (string_of_byte c0 ++ string_of_byte (last_byte c0 r))).
      { rewrite (alnum_lower_plain _ H0), (alnum_lower_plain _ H1).
        do 3 apply MAltR.
        apply (rep_class (r:=alnum_lower) is_alnum_lower
                 (String c0 (String (last_byte c0 r) EmptyString)));
          [apply alnum_lower_char|].
        simpl. now rewrite H0, H1. }
      destruct r; exact G.
Qed.

Lemma hash_part_matches (raw : string) :
  Matches (rep 12 lower_hex)
    (if String.eqb raw "" then "000000000000" else SHA256trunc raw).
Proof.
  destruct (String.eqb raw "").
  - apply matchb_sound. reflexivity.
  - destruct (SHA256trunc_shape raw) as [L C].
    rewrite <- L. apply (rep_class (r:=lower_hex) is_lower_hex);
      [apply lower_hex_char | exact C].
Qed.

(** C3, amended.  For a negotiated version among TLS 1.0 to 1.3 and a
    ClientHello whose first ALPN value (if any) is empty, a mapped protocol
    name, or begins and ends with a character of [0-9a-z], the JA4 string
    matches
    [t(10|11|12|13)[di][0-9]{2}[0-9]{2}(h1|h2|h3|[0-9a-z]{2})_[0-9a-f]{12}_[0-9a-f]{12}]. *)
Theorem ja4_matches_regex (S : StringSorter) (D : KernelDeps)
  (parsed : ClientHello) (negotiatedVersion : string) :
  In negotiatedVersion ["769"; "770"; "771"; "772"] ->
  first_alpn_plain (SupportedProtocols parsed) = true ->
  Matches ja4_regex (CalculateJa4Direct parsed negotiatedVersion).
Proof.
  intros Hv Ha.
  unfold CalculateJa4Direct, ja4a_direct, ja4_regex.
  cbv zeta. rewrite !append_assoc.
  apply MCat; [constructor|].
  apply MCat; [now apply version_two_digits|].
  apply MCat; [apply detectSNI_d_or_i|].
  apply MCat; [apply counter_two_digits|].
  apply MCat; [apply counter_two_digits|].
  apply MCat; [now apply firstALPN_matches|].
  apply MCat; [constructor|].
  apply MCat; [apply hash_part_matches|].
  apply MCat; [constructor|].
  apply hash_part_matches.
Qed.

(** A hello whose first ALPN value is the upper-case spelling [HTTP/1.1]. *)
Definition upper_alpn_hello : ClientHello := {|
  Version := 771;
  CipherSuites := [0x1301; 0xC02F];
  Extensions := [ExtMap (Some "example.com")];
  AllExtensions := [0x0000; 0x0010; 0x000D];
  SupportedGroups := [0x001D];
  SupportedPoints := [0];
  SignatureAlgorithms := [0x0403];
  SupportedProtocols := ["HTTP/1.1"]
|}.

Lemma ja4_regex_counterexample :
  @CalculateJa4Direct InsertionSorter SpecDeps upper_alpn_hello "771"
    = "t12d0201H1_c1929292aa6b_79c50902419d"
  /\ ~ Matches ja4_regex
        (@CalculateJa4Direct InsertionSorter SpecDeps upper_alpn_hello "771").
Proof.
  split; [vm_compute; reflexivity|].
  apply matchb_false. vm_compute. reflexivity.
Qed.

Lemma ja4_matches_regex_witness :
  In "772" ["769"; "770"; "771"; "772"]
  /\ first_alpn_plain (SupportedProtocols sample_hello) = true
  /\ Matches ja4_regex
       (@CalculateJa4Direct InsertionSorter SpecDeps sample_hello "772").
Proof.
  assert (Hv : In "772" ["769"; "770"; "771"; "772"])
    by (simpl; auto).
  assert (Ha : first_alpn_plain (SupportedProtocols sample_hello) = true)
    by reflexivity.
  exact (conj Hv (conj Ha
           (ja4_matches_regex InsertionSorter SpecDeps sample_hello Hv Ha))).
Defined.

(** ** C4 and C5: JA4H *)

(** The segments of a fingerprint, separated by [_]. *)
Definition segments (fp : string) : list string := Split fp "_".

(** C4.  For method GET, version HTTP/2 and the headers [user-agent: x],
    [accept: */*], the JA4H string has the segments [ge202], the first
    twelve hexadecimal digits of SHA-256("accept,user-agent") and
    [000000000000]. *)
Theorem ja4h_trivial_get (S : StringSorter) :
  segments (CalculateJA4H "GET" "HTTP/2" ["user-agent: x"; "accept: */*"])
  = ["ge202"; String.substring 0 12 (sha256_hex "accept,user-agent");
     "000000000000"]
  /\ String.substring 0 12 (sha256_hex "accept,user-agent") = "e5a56608905c".
Proof.
  unfold CalculateJA4H, calculateHeaderHash, calculateCookieHash.
  rewrite !sortStrings_canonical.
  split; vm_compute; reflexivity.
Qed.

(** The header list of an HTTP/2 GET request as [convertFrame] renders it. *)
Definition h2_get_headers : list string :=
  [":method: GET"; ":path: /get"; ":scheme: https"; "user-agent: x";
   "accept: */*"].

(** C5 at the header list of an ordinary HTTP/2 GET request.  The three
    pseudo-headers have an empty name before their first colon:
    [CalculateJA4H] counts them (count 5), [CalculateJA4H_r] counts the
    names it kept (count 2), and the first segments differ. *)
Theorem ja4h_prefix_mismatch (S : StringSorter) :
  CalculateJA4H "GET" "h2" h2_get_headers = "ge205_e5a56608905c_000000000000"
  /\ CalculateJA4H_r "GET" "h2" h2_get_headers
     = "ge202_accept,user-agent_none"
  /\ first_segment (CalculateJA4H "GET" "h2" h2_get_headers) = "ge205"
  /\ first_segment (CalculateJA4H_r "GET" "h2" h2_get_headers) = "ge202".
Proof.
  unfold CalculateJA4H, CalculateJA4H_r, calculateHeaderHash,
    calculateCookieHash.
  cbv zeta.
  destruct (ja4h_r_collect h2_get_headers) as [f c] eqn:E.
  vm_compute in E. injection E as <- <-.
  rewrite !sortStrings_canonical.
  repeat split; vm_compute; reflexivity.
Qed.

Example ja4h_single_pseudo_header :
  @CalculateJA4H InsertionSorter "GET" "h2" [":method: GET"]
  = "ge201_000000000000_000000000000"
  /\ @CalculateJA4H_r InsertionSorter "GET" "h2" [":method: GET"]
     = "ge200_none_none".
Proof. split; vm_compute; reflexivity. Qed.

(** Where the two variants do agree: when every header that is counted
    has a name before its first colon, the counts coincide and so do the
    first segments. *)
Definition counted (header : string) : bool :=
  negb (isCookieHeader header) && negb (isRefererHeader header).

Definition named (header : string) : Prop :=
  counted header = true -> extractHeaderName header <> "".

Lemma collect_filtered (headers : list string) (f c : list string) :
  fst (fold_left
         (fun (acc : list string * list string) header =>
            let (filtered, cookies) := acc in
            if isCookieHeader header then
              let value := extractCookieValue header in
              if negb (String.eqb value "")
              then (filtered, (cookies ++ [value])%list)
              else (filtered, cookies)
            else if isRefererHeader header then (filtered, cookies)
            else
              let name := extractHeaderName header in
              if negb (String.eqb name "")
              then ((filtered ++ [name])%list, cookies)
              else (filtered, cookies))
         headers (f, c))
  = fold_left
      (fun filtered header =>
         if isCookieHeader header || isRefererHeader header then filtered
         else
           let name := extractHeaderName header in
           if negb (String.eqb name "") then (filtered ++ [name])%list
           else filtered)
      headers f.
Proof.
  revert f c. induction headers as [|h r IH]; intros f c; [reflexivity|].
  cbn [fold_left].
  destruct (isCookieHeader h); cbn [orb].
  - destruct (negb (String.eqb (extractCookieValue h) "")); apply IH.
  - destruct (isRefererHeader h); [apply IH|].
    cbv zeta. destruct (negb (String.eqb (extractHeaderName h) "")); apply IH.
Qed.

Lemma count_named (headers : list string) (n : Z) (f : list string) :
  Forall named headers -> n = Z.of_nat (List.length f) ->
  fold_left
    (fun count header =>
       if negb (isCookieHeader header) && negb (isRefererHeader header)
       then count + 1 else count)
    headers n
  = Z.of_nat (List.length
      (fold_left
         (fun filtered header =>
            if isCookieHeader header || isRefererHeader header then filtered
            else
              let name := extractHeaderName header in
              if negb (String.eqb name "") then (filtered ++ [name])%list
              else filtered)
         headers f)).
Proof.
  intros H. revert n f. induction H as [|h r Hh Hr IH]; intros n f Hn;
    [exact Hn|].
  cbn [fold_left]. unfold named, counted in Hh.
  destruct (isCookieHeader h); cbn [negb andb orb]; [now apply IH|].
  destruct (isRefererHeader h); cbn [negb]; [now apply IH|].
  cbv zeta. specialize (Hh eq_refl).
  destruct (String.eqb_spec (extractHeaderName h) ""); [contradiction|].
  cbn [negb]. apply IH. rewrite length_app. simpl. lia.
Qed.

Lemma first_segment_cut (p r1 r2 : string) :
  first_segment (p ++ String "_" r1) = first_segment (p ++ String "_" r2).
Proof.
  induction p as [|c p IH]; simpl; [reflexivity|].
  destruct (Ascii.eqb c "_"); [reflexivity | now rewrite IH].
Qed.

Lemma ja4h_prefix_agree (S : StringSorter) (method version : string)
  (headers : list string) :
  Forall named headers ->
  first_segment (CalculateJA4H method version headers)
  = first_segment (CalculateJA4H_r method version headers).
Proof.
  intros H. unfold CalculateJA4H, CalculateJA4H_r.
  destruct (ja4h_r_collect headers) as [f0 c0] eqn:E. cbv zeta.
  assert (Ef : f0 = headerHash_filtered headers).
  { change f0 with (fst (f0, c0)). rewrite <- E.
    unfold ja4h_r_collect, headerHash_filtered. apply collect_filtered. }
  assert (Ec : countHeaders headers
               = Z.of_nat (List.length (sortStrings f0))).
  { rewrite <- (Permutation_length (sortStrings_perm f0)), Ef.
    unfold countHeaders, headerHash_filtered. now apply count_named. }
  rewrite Ec.
  set (mp := getMethodPrefix method). set (vs := getVersionString version).
  set (hc := fmt_02d _).
  rewrite <- !(append_assoc vs), <- !(append_assoc mp).
  apply first_segment_cut.
Qed.

(** ** Splitting at a one-byte separator *)

Fixpoint no_char (c : ascii) (s : string) : bool :=
  match s with
  | EmptyString => true
  | String x r => negb (Ascii.eqb x c) && no_char c r
  end.

Lemma append_nil_r (s : string) : (s ++ "")%string = s.
Proof. induction s as [|x s IH]; simpl; [reflexivity | now rewrite IH]. Qed.

Lemma prefix_str1 (c x : ascii) (r : string) :
  String.prefix (str1 c) (String x r) = Ascii.eqb x c.
Proof.
  unfold str1. simpl. destruct (ascii_dec c x) as [->|N].
  - rewrite Ascii.eqb_refl. now destruct r.
  - symmetry. apply Ascii.eqb_neq. congruence.
Qed.

Lemma split_from_cons (sep : string) (skip : nat) (cur s : string) :
  exists h t, split_from sep skip cur s = h :: t.
Proof.
  revert skip cur. induction s as [|x s IH]; intros skip cur; cbn [split_from].
  - eauto.
  - destruct skip as [|k]; [|apply IH].
    destruct (String.prefix sep (String x s)); [eauto | apply IH].
Qed.

Lemma Split_nonempty (s sep : string) : (1 <= List.length (Split s sep))%nat.
Proof.
  unfold Split. destruct (split_from_cons sep 0 "" s) as (h & t & ->).
  simpl. lia.
Qed.

Lemma split1_segment (c : ascii) (a rest cur : string) :
  no_char c a = true ->
  split_from (str1 c) 0 cur (a ++ String c rest)
  = (cur ++ a)%string :: split_from (str1 c) 0 "" rest.
Proof.
  revert cur. induction a as [|x a IH]; intros cur H.
  - cbn [append split_from]. rewrite prefix_str1, Ascii.eqb_refl.
    now rewrite append_nil_r.
  - cbn [no_char] in H. apply andb_prop in H as [Hx Ha].
    cbn [append split_from]. rewrite prefix_str1.
    apply negb_true_iff in Hx. rewrite Hx.
    rewrite (IH _ Ha). f_equal. unfold str1. now rewrite append_assoc.
Qed.

Lemma split1_last (c : ascii) (a cur : string) :
  no_char c a = true -> split_from (str1 c) 0 cur a = [(cur ++ a)%string].
Proof.
  revert cur. induction a as [|x a IH]; intros cur H.
  - simpl. now rewrite append_nil_r.
  - cbn [no_char] in H. apply andb_prop in H as [Hx Ha].
    cbn [split_from]. rewrite prefix_str1.
    apply negb_true_iff in Hx. rewrite Hx.
    rewrite (IH _ Ha). unfold str1. now rewrite append_assoc.
Qed.

(** ** C10: /bytes/{n} *)

Lemma pattern_bytes_length (n : Z) :
  List.length (pattern_bytes n) = Z.to_nat n.
Proof. unfold pattern_bytes. now rewrite length_map, length_seq. Qed.

Lemma pattern_bytes_nth (n i : Z) :
  0 <= i < n -> nth (Z.to_nat i) (pattern_bytes n) 0 = i mod 256.
Proof.
  intros H. unfold pattern_bytes.
  set (f := fun k : nat => Z.of_nat k mod 256).
  change (nth (Z.to_nat i) (map f (seq 0 (Z.to_nat n))) (f 0%nat) = i mod 256).
  rewrite map_nth, seq_nth by lia. subst f. cbv beta.
  simpl. now rewrite Z2Nat.id by lia.
Qed.

(** Decimal text: [strconv.Atoi] reads back what [strconv.Itoa] writes. *)
Lemma digit_cases (d : Z) (P : Z -> Prop) :
  0 <= d < 10 ->
  P 0 -> P 1 -> P 2 -> P 3 -> P 4 -> P 5 -> P 6 -> P 7 -> P 8 -> P 9 -> P d.
Proof.
  intros H; intros.
  assert (E : d = 0 \/ d = 1 \/ d = 2 \/ d = 3 \/ d = 4 \/ d = 5 \/ d = 6
              \/ d = 7 \/ d = 8 \/ d = 9) by lia.
  repeat (destruct E as [->|E]; [assumption|]). now subst.
Qed.

Lemma digit_char_digit (d : Z) :
  0 <= d < 10 ->
  is_digit (digit_char false d) = true
  /\ byte_of (digit_char false d) - 48 = d
  /\ Ascii.eqb (digit_char false d) "/" = false.
Proof.
  intros H. pattern d. apply (@digit_cases d _ H); vm_compute; auto.
Qed.

Lemma parse_render (fuel : nat) :
  forall n acc,
    0 <= n < 10 ^ Z.of_nat fuel ->
    parse_digits (render_nat fuel 10 false n acc) 0 = parse_digits acc n.
Proof.
  induction fuel as [|f IH]; intros n acc H.
  - cbn [render_nat]. change (10 ^ Z.of_nat 0) with 1 in H.
    now replace n with 0 by lia.
  - cbn [render_nat].
    assert (Hm : 0 <= n mod 10 < 10) by (apply Z.mod_pos_bound; lia).
    destruct (@digit_char_digit _ Hm) as (Hd & Hv & _).
    assert (Hstep : parse_digits (String (digit_char false (n mod 10)) acc)
                      (n / 10) = parse_digits acc n).
    { cbn [parse_digits]. rewrite Hd, Hv. f_equal.
      pose proof (Z.div_mod n 10). lia. }
    destruct (Z.ltb_spec n 10) as [Hlt|Hge].
    + rewrite <- Hstep. now rewrite Z.div_small by lia.
    + rewrite IH; [exact Hstep|].
      rewrite Nat2Z.inj_succ, Z.pow_succ_r in H by lia.
      split; [apply Z.div_pos; lia|].
      apply Z.div_lt_upper_bound; lia.
Qed.

Lemma render_nat_head (fuel : nat) :
  forall n acc, 0 <= n ->
    exists d r, 0 <= d < 10
      /\ render_nat (S fuel) 10 false n acc = String (digit_char false d) r.
Proof.
  induction fuel as [|f IH]; intros n acc H.
  - exists (n mod 10), acc. split; [apply Z.mod_pos_bound; lia|].
    cbn [render_nat]. now destruct (n <? 10).
  - assert (E : render_nat (S (S f)) 10 false n acc
                = let acc' := String (digit_char false (n mod 10)) acc in
                  if n <? 10 then acc'
                  else render_nat (S f) 10 false (n / 10) acc')
      by reflexivity.
    rewrite E. cbv zeta. destruct (Z.ltb_spec n 10).
    + exists (n mod 10), acc. split; [apply Z.mod_pos_bound; lia | reflexivity].
    + apply IH. apply Z.div_pos; lia.
Qed.

Lemma render_nat_no_slash (fuel : nat) :
  forall n acc, 0 <= n -> no_char "/" acc = true ->
    no_char "/" (render_nat fuel 10 false n acc) = true.
Proof.
  induction fuel as [|f IH]; intros n acc H Ha; cbn [render_nat]; [exact Ha|].
  assert (Hm : 0 <= n mod 10 < 10) by (apply Z.mod_pos_bound; lia).
  destruct (@digit_char_digit _ Hm) as (_ & _ & Hs).
  assert (Ha' : no_char "/" (String (digit_char false (n mod 10)) acc) = true).
  { cbn [no_char]. now rewrite Hs, Ha. }
  destruct (n <? 10); [exact Ha'|].
  apply IH; [apply Z.div_pos; lia | exact Ha'].
Qed.

Lemma fuel_enough (n : Z) :
  0 <= n -> n < 10 ^ Z.of_nat (S (Z.to_nat (Z.log2 n))).
Proof.
  intros H. rewrite Nat2Z.inj_succ, Z2Nat.id by apply Z.log2_nonneg.
  destruct (Z.eq_dec n 0) as [->|N]; [reflexivity|].
  pose proof (Z.log2_spec n ltac:(lia)) as [_ Hu].
  apply Z.lt_le_trans with (1 := Hu).
  apply Z.pow_le_mono_l. pose proof (Z.log2_nonneg n). lia.
Qed.

Lemma Atoi_digit_head (d : Z) (r : string) :
  0 <= d < 10 ->
  Atoi (String (digit_char false d) r)
  = match parse_digits (String (digit_char false d) r) 0 with
    | Some v => if in_int64 v then Some v else None
    | None => None
    end.
Proof.
  intros H. pattern d. apply (@digit_cases d _ H); reflexivity.
Qed.

Lemma parse_unsigned_render (n : Z) :
  0 <= n ->
  parse_unsigned (render_nat (S (Z.to_nat (Z.log2 n))) 10 false n "") = Some n.
Proof.
  intros H.
  destruct (@render_nat_head (Z.to_nat (Z.log2 n)) n "" H) as (d & r & Hd & E).
  pose proof (@parse_render (S (Z.to_nat (Z.log2 n))) n ""
                (conj H (@fuel_enough n H))) as P.
  rewrite E in *. exact P.
Qed.

Lemma Atoi_Itoa (n : Z) :
  Atoi (Itoa n) = if in_int64 n then Some n else None.
Proof.
  unfold Itoa, render. destruct (Z.ltb_spec n 0) as [Hneg|Hpos].
  - change ("-" ++ ?s)%string with (String "-" s).
    unfold Atoi. rewrite parse_unsigned_render by lia.
    cbn [option_map]. now rewrite Z.opp_involutive.
  - destruct (@render_nat_head (Z.to_nat (Z.log2 n)) n "" Hpos)
      as (d & r & Hd & E).
    pose proof (@parse_unsigned_render n Hpos) as P. rewrite E in *.
    rewrite (@Atoi_digit_head d r Hd).
    cbn [parse_unsigned] in P. now rewrite P.
Qed.

Lemma Itoa_no_slash (n : Z) : no_char "/" (Itoa n) = true.
Proof.
  unfold Itoa, render. destruct (Z.ltb_spec n 0).
  - change ("-" ++ ?s)%string with (String "-" s). cbn [no_char].
    rewrite render_nat_no_slash by (reflexivity || lia). reflexivity.
  - apply render_nat_no_slash; [lia | reflexivity].
Qed.

(** A decimal numeral as [strconv.Atoi] accepts it: an optional sign and
    then at least one digit, nothing else. *)
Fixpoint all_digits (s : string) : bool :=
  match s with
  | EmptyString => true
  | String c r => is_digit c && all_digits r
  end.

Definition unsigned_numeral (s : string) : bool :=
  match s with
  | EmptyString => false
  | _ => all_digits s
  end.

Definition is_numeral (s : string) : bool :=
  match s with
  | String "+" r => unsigned_numeral r
  | String "-" r => unsigned_numeral r
  | _ => unsigned_numeral s
  end.

Lemma parse_digits_none (s : string) :
  forall acc, all_digits s = false -> parse_digits s acc = None.
Proof.
  induction s as [|c r IH]; intros acc H; [discriminate|].
  cbn [all_digits] in H. cbn [parse_digits].
  destruct (is_digit c); [apply IH; exact H | reflexivity].
Qed.

Lemma parse_unsigned_none (s : string) :
  unsigned_numeral s = false -> parse_unsigned s = None.
Proof.
  destruct s as [|c r]; [reflexivity|]. unfold unsigned_numeral, parse_unsigned.
  apply parse_digits_none.
Qed.

Lemma Atoi_not_numeral (s : string) : is_numeral s = false -> Atoi s = None.
Proof.
  unfold Atoi, is_numeral. destruct s as [|c r]; [reflexivity|].
  destruct c as [[] [] [] [] [] [] [] []]; cbv beta iota; intros H;
    rewrite (@parse_unsigned_none _ H); reflexivity.
Qed.

(** The pieces [strings.Split(path, "/")] finds in a path. *)
Lemma HasPrefix_slash (s : string) :
  HasPrefix s "/" = true -> exists t, s = String "/" t.
Proof.
  unfold HasPrefix. destruct s as [|x t]; [discriminate|].
  change "/"%string with (str1 "/"). rewrite prefix_str1.
  intros H. apply Ascii.eqb_eq in H. subst x. now exists t.
Qed.

Lemma Split_third (a b seg tail : string) :
  no_char "/" a = true -> no_char "/" b = true -> no_char "/" seg = true ->
  tail = "" \/ HasPrefix tail "/" = true ->
  exists rest, Split (a ++ "/" ++ b ++ "/" ++ seg ++ tail) "/"
               = a :: b :: seg :: rest.
Proof.
  intros Ha Hb Hs Ht.
  assert (E : Split (a ++ "/" ++ b ++ "/" ++ seg ++ tail) "/"
              = split_from (str1 "/") 0 ""
                  (a ++ String "/" (b ++ String "/" (seg ++ tail))))
    by reflexivity.
  rewrite E. rewrite (@split1_segment "/" a _ "" Ha).
  rewrite (@split1_segment "/" b _ "" Hb). cbn [append].
  destruct Ht as [->|Ht].
  - rewrite append_nil_r, (@split1_last "/" seg "" Hs). now exists [].
  - apply HasPrefix_slash in Ht as (t & ->).
    rewrite (@split1_segment "/" seg _ "" Hs). eauto.
Qed.

Lemma path_param_third (a b seg tail : string) :
  no_char "/" a = true -> no_char "/" b = true -> no_char "/" seg = true ->
  tail = "" \/ HasPrefix tail "/" = true ->
  path_param (a ++ "/" ++ b ++ "/" ++ seg ++ tail) = Atoi seg.
Proof.
  intros Ha Hb Hs Ht. unfold path_param.
  destruct (@Split_third a b seg tail Ha Hb Hs Ht) as (rest & ->).
  cbn [List.length nth].
  destruct (Z.leb_spec 3 (Z.of_nat (S (S (S (List.length rest)))))); [reflexivity | lia].
Qed.

Lemma path_param_short (a b : string) :
  no_char "/" a = true -> no_char "/" b = true ->
  path_param a = None /\ path_param (a ++ "/" ++ b) = None.
Proof.
  intros Ha Hb. unfold path_param.
  assert (E1 : Split a "/" = split_from (str1 "/") 0 "" a) by reflexivity.
  assert (E2 : Split (a ++ "/" ++ b) "/"
               = split_from (str1 "/") 0 "" (a ++ String "/" b))
    by reflexivity.
  rewrite E1, E2.
  rewrite (@split1_segment "/" a _ "" Ha), (@split1_last "/" b "" Hb).
  rewrite (@split1_last "/" a "" Ha). split; reflexivity.
Qed.

(** The length the handler settles on. *)
Lemma httpbinBytes_get_count (res : Response) :
  Method res = "GET" ->
  exists n,
    httpbinBytes res = (pattern_bytes n, "application/octet-stream")
    /\ 1 <= n <= 102400
    /\ n = match path_param (Path res) with
           | Some p => if (1 <=? p) && (p <=? 102400) then p else 100
           | None => 100
           end.
Proof.
  intros Hm. unfold httpbinBytes. rewrite Hm. cbn [String.eqb Ascii.eqb Bool.eqb orb andb].
  destruct (path_param (Path res)) as [p|].
  - replace (0 <? p) with (1 <=? p) by
      (destruct (Z.leb_spec 1 p), (Z.ltb_spec 0 p); reflexivity || lia).
    destruct (Z.leb_spec 1 p), (Z.leb_spec p 102400); cbn [andb];
      eexists; (split; [reflexivity|]); split; (reflexivity || lia).
  - eexists; (split; [reflexivity|]); split; (reflexivity || lia).
Qed.

(** C10.  A GET request to [/bytes/{n}] is always answered with
    [application/octet-stream] and a body whose byte [i] is [i mod 256].
    The length is decided by the text of the path alone.  It is 100 when
    the path has no third segment, when that segment is not a decimal
    numeral (so also when it is empty), and when it is the decimal text of
    a number that is zero, negative or above 102400; it is [n] when the
    segment is the decimal text of an [n] with [1 <= n <= 102400].  In all
    cases it is the value [strconv.Atoi] gives the segment when that value
    lies in [1, 102400], and 100 otherwise. *)
Theorem httpbinBytes_get (res : Response) :
  Method res = "GET" ->
  let out := httpbinBytes res in
  let len := Z.of_nat (List.length (fst out)) in
  snd out = "application/octet-stream"
  /\ fst out = pattern_bytes len
  /\ (forall i, 0 <= i < len -> nth (Z.to_nat i) (fst out) 0 = i mod 256)
  /\ (forall a b,
        no_char "/" a = true -> no_char "/" b = true ->
        Path res = a \/ Path res = a ++ "/" ++ b ->
        len = 100)
  /\ (forall a b seg tail,
        no_char "/" a = true -> no_char "/" b = true ->
        no_char "/" seg = true ->
        tail = "" \/ HasPrefix tail "/" = true ->
        Path res = a ++ "/" ++ b ++ "/" ++ seg ++ tail ->
        (is_numeral seg = false -> len = 100)
        /\ (forall n, seg = Itoa n ->
              len = if (1 <=? n) && (n <=? 102400) then n else 100)
        /\ len = match Atoi seg with
                 | Some n => if (1 <=? n) && (n <=? 102400) then n else 100
                 | None => 100
                 end).
Proof.
  intros Hm out len.
  destruct (@httpbinBytes_get_count res Hm) as (n & E & Hn & Hp).
  assert (Hlen : len = n).
  { subst len out. rewrite E. cbn [fst].
    rewrite pattern_bytes_length. apply Z2Nat.id. lia. }
  subst out. rewrite Hlen, E. cbn [fst snd].
  split; [reflexivity|]. split; [reflexivity|].
  split; [apply pattern_bytes_nth|].
  split.
  - intros a b Ha Hb Hpath.
    destruct (@path_param_short a b Ha Hb) as (P1 & P2).
    destruct Hpath as [Hpath|Hpath]; rewrite Hpath in Hp;
      [rewrite P1 in Hp | rewrite P2 in Hp]; exact Hp.
  - intros a b seg tail Ha Hb Hs Ht Hpath.
    rewrite Hpath, (@path_param_third a b seg tail Ha Hb Hs Ht) in Hp.
    split; [|split].
    + intros Hnum. now rewrite (@Atoi_not_numeral seg Hnum) in Hp.
    + intros m ->. rewrite Atoi_Itoa in Hp. unfold in_int64 in Hp.
      destruct (Z.leb_spec (-9223372036854775808) m),
               (Z.leb_spec m 9223372036854775807);
        cbn [andb] in Hp; try exact Hp;
        destruct (Z.leb_spec 1 m), (Z.leb_spec m 102400); cbn [andb];
        (exact Hp || lia).
    + exact Hp.
Qed.

Definition get_request (path : string) : Response :=
  {| IP := "203.0.113.7:50000"; HTTPVersion := "h2"; Path := path;
     Method := "GET"; UserAgent := "curl/8"; Http1 := None; Http2 := None;
     TLS := None |}.

Example bytes_params :
  map (fun p => (p, Z.of_nat (List.length (fst (httpbinBytes (get_request p))))))
      ["/bytes/5"; "/bytes/"; "/bytes"; "/bytes/abc"; "/bytes/0"; "/bytes/-3";
       "/bytes/102400"; "/bytes/102401"; "/bytes/5/x"; "/bytes/5?x=1"]
  = [("/bytes/5", 5); ("/bytes/", 100); ("/bytes", 100); ("/bytes/abc", 100);
     ("/bytes/0", 100); ("/bytes/-3", 100); ("/bytes/102400", 102400);
     ("/bytes/102401", 100); ("/bytes/5/x", 5); ("/bytes/5?x=1", 100)].
Proof. vm_compute. reflexivity. Qed.

Example bytes_five :
  httpbinBytes (get_request "/bytes/5")
  = ([0; 1; 2; 3; 4], "application/octet-stream").
Proof. vm_compute. reflexivity. Qed.

Lemma httpbinBytes_get_witness :
  Method (get_request "/bytes/5") = "GET"
  /\ httpbinBytes (get_request "/bytes/5")
     = ([0; 1; 2; 3; 4], "application/octet-stream")
  /\ List.length (fst (httpbinBytes (get_request "/bytes/-3"))) = 100%nat.
Proof.
  split; [reflexivity|]. split.
  - destruct (httpbinBytes_get (get_request "/bytes/5") eq_refl)
      as (Hs & Hf & _ & _ & Hp).
    destruct (Hp "" "bytes" "5" "" eq_refl eq_refl eq_refl
                (or_introl eq_refl) eq_refl) as (_ & Hn & _).
    specialize (Hn 5 eq_refl).
    change (if (1 <=? 5) && (5 <=? 102400) then 5 else 100) with 5 in Hn.
    rewrite Hn in Hf.
    rewrite (surjective_pairing (httpbinBytes (get_request "/bytes/5"))).
    rewrite Hs, Hf. reflexivity.
  - destruct (httpbinBytes_get (get_request "/bytes/-3") eq_refl)
      as (_ & _ & _ & _ & Hp).
    destruct (Hp "" "bytes" "-3" "" eq_refl eq_refl eq_refl
                (or_introl eq_refl) eq_refl) as (_ & Hn & _).
    specialize (Hn (-3) eq_refl).
    change (if (1 <=? -3) && (-3 <=? 102400) then -3 else 100) with 100 in Hn.
    apply Nat2Z.inj. exact Hn.
Defined.

(** ** C6: /redirect/{n} on HTTP/2 *)

Import HPACK H2.

(** The target of the redirect issued for [/redirect/{n}]. *)
Definition redirect_next (n : Z) : string :=
  if 1 <? n then "/redirect/" ++ Itoa (n - 1) else "/get".

Lemma redirect_cases (n : Z) :
  1 <= n <= 10 -> In n [1; 2; 3; 4; 5; 6; 7; 8; 9; 10].
Proof. intros H. simpl. lia. Qed.

Lemma httpbinRedirect_tag (res : Response) (n : Z) :
  1 <= n <= 10 -> Path res = "/redirect/" ++ Itoa n ->
  httpbinRedirect res = ([], "redirect:302:" ++ redirect_next n).
Proof.
  intros Hn Hp. unfold httpbinRedirect. rewrite Hp.
  apply redirect_cases in Hn. simpl in Hn.
  decompose [or] Hn; subst; try contradiction; vm_compute; reflexivity.
Qed.

Lemma Router_redirect (srv : Server) (res : Response) (n : Z) :
  1 <= n <= 10 ->
  Router srv ("/redirect/" ++ Itoa n) res = httpbinRedirect res.
Proof.
  intros Hn. apply redirect_cases in Hn. simpl in Hn.
  decompose [or] Hn; subst; try contradiction; reflexivity.
Qed.

Lemma redirect_directive_302 (loc : string) :
  redirect_directive ("redirect:302:" ++ loc) = Some (Some 302, loc).
Proof.
  unfold redirect_directive. destruct loc; reflexivity.
Qed.

Lemma wire_CloseStream (c : HTTP2Connection) (sid : Z) :
  wire (CloseStream c sid) = wire c
  /\ closing (CloseStream c sid) = closing c
  /\ panicked (CloseStream c sid) = panicked c.
Proof.
  unfold CloseStream.
  destruct (get_stream sid (streams c)); repeat split; reflexivity.
Qed.

(** Whatever the route, a handler result tagged [redirect:302:<loc>] makes
    the engine write one HEADERS frame, with END_STREAM, status 302 and the
    location, and nothing else. *)
Lemma sendResponse_redirect (srv : Server) (requestID : string)
  (responseTime : Z) (c : HTTP2Connection) (sid : Z) (resp : Response)
  (path method : string) (body : list Z) (loc : string) (h2 : Http2Details) :
  Http2 resp = Some h2 ->
  Router srv path resp = (body, "redirect:302:" ++ loc) ->
  let c' := sendResponse srv requestID responseTime c sid resp path method in
  exists fields,
    wire c' = (wire c ++ [WriteHeaders sid fields true])%list
    /\ In (":status", "302") fields
    /\ In ("location", loc) fields
    /\ In ("content-length", "0") fields
    /\ closing c' = closing c
    /\ panicked c' = panicked c.
Proof.
  intros H2 HR. unfold sendResponse. rewrite HR, H2.
  destruct (GetAdmin srv) as [key isKeySet].
  set (scan := if isKeySet && String.eqb method "OPTIONS" then Some true
               else if isKeySet
                    then Some (existsb (frame_has_key key) (SendFrames h2))
                    else Some false).
  assert (Hs : exists isAdmin, scan = Some isAdmin).
  { subst scan. destruct (isKeySet && String.eqb method "OPTIONS");
      [|destruct isKeySet]; eexists; reflexivity. }
  destruct Hs as [isAdmin ->].
  rewrite redirect_directive_302.
  change (cookies_directive "text/html; charset=utf-8") with
    (@None (list string * string)).
  cbv iota beta zeta.
  change (Z.of_nat (List.length (@nil Z)) =? 0) with true.
  change (0 <? Z.of_nat (List.length (@nil Z))) with false.
  cbv iota.
  eexists. split; [|split; [|split; [|split; [|split]]]].
  - rewrite (proj1 (wire_CloseStream _ _)). unfold write. cbn [wire].
    reflexivity.
  - left. reflexivity.
  - cbn [app]. do 6 right. left. reflexivity.
  - do 2 right. left. reflexivity.
  - rewrite (proj1 (proj2 (wire_CloseStream _ _))). reflexivity.
  - rewrite (proj2 (proj2 (wire_CloseStream _ _))). reflexivity.
Qed.

(** C6.  For [1 <= n <= 10] the handler of [/redirect/{n}] returns an empty
    body tagged [redirect:302:<next>], with [<next>] equal to
    [/redirect/{n-1}] for [n > 1] and to [/get] for [n = 1]; serving a
    request for that path, the HTTP/2 engine writes exactly one frame, a
    HEADERS frame with END_STREAM carrying [:status 302] and
    [location: <next>]: no DATA, no GOAWAY, and the connection is not put
    into closing. *)
Theorem redirect_on_h2 (S : StringSorter) (srv : Server)
  (tlsFingerprint : option TLSDetails) (requestID : string) (responseTime : Z)
  (c : HTTP2Connection) (sid : Z) (headers : list HeaderField)
  (stream : HTTP2Stream) (n : Z) :
  1 <= n <= 10 ->
  last_value ":path" headers = "/redirect/" ++ Itoa n ->
  (forall resp, Path resp = "/redirect/" ++ Itoa n ->
     httpbinRedirect resp = ([], "redirect:302:" ++ redirect_next n))
  /\ let c' := handleRequest srv tlsFingerprint requestID responseTime c sid
                 headers stream in
     exists fields,
       wire c' = (wire c ++ [WriteHeaders sid fields true])%list
       /\ In (":status", "302") fields
       /\ In ("location", redirect_next n) fields
       /\ In ("content-length", "0") fields
       /\ closing c' = closing c
       /\ panicked c' = panicked c.
Proof.
  intros Hn Hp. split; [intros resp Hr; now apply httpbinRedirect_tag|].
  unfold handleRequest. cbv zeta. rewrite Hp.
  match goal with
  | |- context [sendResponse _ _ _ ?c0 _ ?resp _ _] =>
      pose proof (@sendResponse_redirect srv requestID responseTime c0 sid
                    resp ("/redirect/" ++ Itoa n)
                    (last_value ":method" headers) []
                    (redirect_next n) _ eq_refl) as H
  end.
  cbv zeta in H. apply H.
  rewrite (Router_redirect srv _ Hn). now apply httpbinRedirect_tag.
Qed.

(** A server for the examples: every handler that is not modelled answers
    with a fixed JSON body. *)
Definition sample_server (adminKey : string * bool) : Server :=
  {| other_handler := fun _ _ => ([123; 125], "application/json");
     not_found := fun _ => ([], "text/html");
     GetAdmin := adminKey;
     StatusText := fun code => if code =? 200 then "OK" else "Found" |}.

Definition sample_tls : TLSDetails :=
  {| JA3Hash := "d41d8cd98f00b204e9800998ecf8427e"; JA4H := ""; JA4H_r := "" |}.

Definition redirect_request_headers : list HeaderField :=
  [(":method", "GET"); (":path", "/redirect/2"); (":scheme", "https")].

Definition fresh_stream (sid : Z) : HTTP2Stream :=
  snd (GetOrCreateStream NewHTTP2Connection sid).

Lemma redirect_on_h2_witness :
  let c' := @handleRequest InsertionSorter (sample_server ("X-Admin", true))
              (Some sample_tls) "r1" 0
              (fst (GetOrCreateStream NewHTTP2Connection 1)) 1
              redirect_request_headers (fresh_stream 1) in
  exists fields,
    wire c' = [WriteHeaders 1 fields true]
    /\ In (":status", "302") fields
    /\ In ("location", "/redirect/1") fields.
Proof.
  assert (Hn : 1 <= 2 <= 10) by lia.
  assert (Hp : last_value ":path" redirect_request_headers
               = "/redirect/" ++ Itoa 2) by reflexivity.
  destruct (redirect_on_h2 InsertionSorter (sample_server ("X-Admin", true))
              (Some sample_tls) "r1" 0
              (fst (GetOrCreateStream NewHTTP2Connection 1)) 1
              redirect_request_headers (fresh_stream 1) Hn Hp)
    as [_ [fields (Hw & Hs & Hl & _)]].
  exists fields. exact (conj Hw (conj Hs Hl)).
Defined.

(** ** C8: a malformed HTTP/1.1 request line *)

(** The first line of the request, split at single spaces. *)
Definition request_line_tokens (request : string) : list string :=
  Split (nth 0 (Split request CRLF) "") " ".

(** A first line that is not made of three tokens yields the [--]
    descriptor, which carries no [Http1] details. *)
Lemma parseHTTP1_malformed (request : string) :
  List.length (request_line_tokens request) <> 3%nat ->
  Method (parseHTTP1 request) = "--"
  /\ Path (parseHTTP1 request) = "--"
  /\ HTTPVersion (parseHTTP1 request) = "--"
  /\ Http1 (parseHTTP1 request) = None.
Proof.
  unfold request_line_tokens, parseHTTP1. intros H.
  destruct (parseHTTP1_headers _) as [headers userAgent].
  destruct (Z.eqb_spec (Z.of_nat (List.length
             (Split (nth 0 (Split request CRLF) "") " "))) 3) as [E|E].
  - exfalso. apply H. lia.
  - cbn. repeat split; reflexivity.
Qed.

(** Without a configured admin key the engine answers the [--] descriptor. *)
Lemma respondToHTTP1_malformed_no_key (srv : Server) (requestID : string)
  (responseTime : Z) (request : string) (key : string) :
  List.length (request_line_tokens request) <> 3%nat ->
  GetAdmin srv = (key, false) ->
  exists text,
    respondToHTTP1 srv requestID responseTime (parseHTTP1 request)
    = H1Wrote text.
Proof.
  intros H K. destruct (parseHTTP1_malformed request H) as (Hm & Hp & Hv & H1).
  unfold respondToHTTP1. rewrite Hm, K.
  destruct (Router srv _ _) as [r ct]. cbn.
  destruct (redirect_directive ct) as [[code loc]|];
    [destruct (cookies_directive "text/html; charset=utf-8") as [[cs real]|]
    | destruct (cookies_directive ct) as [[cs real]|]];
    eexists; reflexivity.
Qed.

(** With an admin key configured, [respondToHTTP1] ranges over
    [resp.Http1.Headers]; on the [--] descriptor [resp.Http1] is nil and
    the call panics before anything is written. *)
Lemma respondToHTTP1_malformed_with_key (srv : Server) (requestID : string)
  (responseTime : Z) (request : string) (key : string) :
  List.length (request_line_tokens request) <> 3%nat ->
  GetAdmin srv = (key, true) ->
  respondToHTTP1 srv requestID responseTime (parseHTTP1 request)
  = H1Panic "invalid memory address or nil pointer dereference".
Proof.
  intros H K. destruct (parseHTTP1_malformed request H) as (Hm & Hp & Hv & H1).
  unfold respondToHTTP1. rewrite Hm, K, H1.
  destruct (Router srv _ _) as [r ct]. reflexivity.
Qed.

Definition malformed_request : string := "GARBAGE" ++ CRLF ++ CRLF.

(** C8 at the request [GARBAGE\r\n\r\n] on a server whose configuration
    sets [cors_key]: the parser returns the [--] descriptor, and the
    engine panics on its nil [Http1] instead of writing a response. *)
Theorem malformed_request_with_admin_key :
  request_line_tokens malformed_request = ["GARBAGE"]
  /\ Method (parseHTTP1 malformed_request) = "--"
  /\ Path (parseHTTP1 malformed_request) = "--"
  /\ HTTPVersion (parseHTTP1 malformed_request) = "--"
  /\ respondToHTTP1 (sample_server ("X-Admin-Key", true)) "r1" 0
       (parseHTTP1 malformed_request)
     = H1Panic "invalid memory address or nil pointer dereference".
Proof. repeat split; vm_compute; reflexivity. Qed.

Example malformed_request_without_key :
  respondToHTTP1 (sample_server ("", false)) "r1" 0
    (parseHTTP1 malformed_request)
  = H1Wrote
      ("HTTP/1.1 200 OK" ++ CRLF ++ "Content-Length: 0" ++ CRLF
         ++ "Content-Type: text/html; charset=utf-8" ++ CRLF
         ++ "X-Request-Id: r1" ++ CRLF ++ "X-Response-Time: 0" ++ CRLF
         ++ "Server: TrackMe" ++ CRLF ++ "Alt-Svc: " ++ alt_svc_value ++ CRLF
         ++ CRLF ++ CRLF ++ CRLF).
Proof. vm_compute. reflexivity. Qed.

(** ** C7: the body channel is closed once *)

Module BodyCloseFacts.
Import H2 BodyClose.

Definition in_cs (p : pc) : Prop :=
  match p with
  | AtCheck | AtClose | AtSetFlag | AtUnlock => True
  | _ => False
  end.

Definition closes_of (flag : bool) : nat := if flag then 1%nat else 0%nat.

(** What holds between the steps: only the holder of the mutex is inside
    the guarded section, the number of closes agrees with the flag except
    between the close and the setting of the flag, and a finished task
    leaves the flag set. *)
Record Inv (s : State) : Prop := {
  inv_holder : forall t, in_cs (pcs s t) -> mu s = Some t;
  inv_count :
    match mu s with
    | None => closes s = closes_of (bodyClosed (stream s))
    | Some t =>
        match pcs s t with
        | AtCheck => closes s = closes_of (bodyClosed (stream s))
        | AtClose => bodyClosed (stream s) = false /\ closes s = 0%nat
        | AtSetFlag => bodyClosed (stream s) = false /\ closes s = 1%nat
        | AtUnlock => bodyClosed (stream s) = true /\ closes s = 1%nat
        | _ => False
        end
    end;
  inv_done : forall t, pcs s t = Done -> bodyClosed (stream s) = true
}.

Lemma Inv_init (s0 : HTTP2Stream) (paths : nat -> path) :
  bodyClosed s0 = false -> Inv (init s0 paths).
Proof.
  intros B. constructor; simpl; rewrite ?B.
  - intros t. destruct (paths t); simpl; contradiction.
  - reflexivity.
  - intros t. destruct (paths t); discriminate.
Qed.

Lemma set_pc_same (f : nat -> pc) (t : nat) (p : pc) : set_pc f t p t = p.
Proof. unfold set_pc. now rewrite Nat.eqb_refl. Qed.

Lemma set_pc_other (f : nat -> pc) (t t' : nat) (p : pc) :
  t' <> t -> set_pc f t p t' = f t'.
Proof.
  unfold set_pc. intros H. destruct (Nat.eqb_spec t' t); [contradiction|].
  reflexivity.
Qed.

Lemma Inv_step (t : nat) (s s' : State) :
  Inv s -> step t s = Some s' -> Inv s'.
Proof.
  intros HI. unfold step.
  destruct (pcs s t) eqn:E.
  - (* AtSetState *)
    intros H. injection H as <-. destruct HI as [Ih Ic Id].
    constructor; simpl.
    + intros t'. destruct (Nat.eq_dec t' t) as [->|N].
      * rewrite set_pc_same. contradiction.
      * rewrite set_pc_other by exact N. apply Ih.
    + destruct (mu s) as [h|]; [|exact Ic].
      destruct (Nat.eq_dec h t) as [->|N].
      * rewrite E in Ic. contradiction.
      * rewrite set_pc_other by exact N. exact Ic.
    + intros t'. destruct (Nat.eq_dec t' t) as [->|N].
      * rewrite set_pc_same. discriminate.
      * rewrite set_pc_other by exact N. apply Id.
  - (* AtLock *)
    destruct (mu s) as [h|] eqn:M; [discriminate|].
    intros H. injection H as <-. destruct HI as [Ih Ic Id].
    rewrite M in Ic.
    constructor; simpl.
    + intros t'. destruct (Nat.eq_dec t' t) as [->|N]; [reflexivity|].
      rewrite set_pc_other by exact N. intros C.
      apply Ih in C. congruence.
    + rewrite set_pc_same. exact Ic.
    + intros t'. destruct (Nat.eq_dec t' t) as [->|N].
      * rewrite set_pc_same. discriminate.
      * rewrite set_pc_other by exact N. apply Id.
  - (* AtCheck *)
    intros H. injection H as <-. destruct HI as [Ih Ic Id].
    assert (M : mu s = Some t) by (apply Ih; rewrite E; exact Logic.I).
    rewrite M, E in Ic.
    constructor; simpl.
    + intros t'. destruct (Nat.eq_dec t' t) as [->|N]; [intros _; exact M|].
      rewrite set_pc_other by exact N. apply Ih.
    + rewrite M, set_pc_same.
      destruct (bodyClosed (stream s)); simpl in *; split; auto.
    + intros t'. destruct (Nat.eq_dec t' t) as [->|N].
      * rewrite set_pc_same. destruct (bodyClosed (stream s)); discriminate.
      * rewrite set_pc_other by exact N. apply Id.
  - (* AtClose *)
    intros H. injection H as <-. destruct HI as [Ih Ic Id].
    assert (M : mu s = Some t) by (apply Ih; rewrite E; exact Logic.I).
    rewrite M, E in Ic. destruct Ic as [Ib Ic].
    constructor; simpl.
    + intros t'. destruct (Nat.eq_dec t' t) as [->|N]; [intros _; exact M|].
      rewrite set_pc_other by exact N. apply Ih.
    + rewrite M, set_pc_same. split; [exact Ib | now rewrite Ic].
    + intros t'. destruct (Nat.eq_dec t' t) as [->|N].
      * rewrite set_pc_same. discriminate.
      * rewrite set_pc_other by exact N. apply Id.
  - (* AtSetFlag *)
    intros H. injection H as <-. destruct HI as [Ih Ic Id].
    assert (M : mu s = Some t) by (apply Ih; rewrite E; exact Logic.I).
    rewrite M, E in Ic. destruct Ic as [Ib Ic].
    constructor; simpl.
    + intros t'. destruct (Nat.eq_dec t' t) as [->|N]; [intros _; exact M|].
      rewrite set_pc_other by exact N. apply Ih.
    + rewrite M, set_pc_same. split; [reflexivity | exact Ic].
    + reflexivity.
  - (* AtUnlock *)
    intros H. injection H as <-. destruct HI as [Ih Ic Id].
    assert (M : mu s = Some t) by (apply Ih; rewrite E; exact Logic.I).
    rewrite M, E in Ic. destruct Ic as [Ib Ic].
    constructor; simpl.
    + intros t'. destruct (Nat.eq_dec t' t) as [->|N].
      * rewrite set_pc_same. contradiction.
      * rewrite set_pc_other by exact N. intros C.
        apply Ih in C. congruence.
    + rewrite Ib. exact Ic.
    + intros _ _. exact Ib.
  - discriminate.
Qed.

Lemma Inv_run (s : State) (schedule : list nat) : Inv s -> Inv (run s schedule).
Proof.
  revert s. induction schedule as [|t rest IH]; simpl; intros s I; [exact I|].
  destruct (step t s) as [s'|] eqn:E; [|now apply IH].
  apply IH. eapply Inv_step; eassumption.
Qed.

Lemma Inv_closes (s : State) :
  Inv s ->
  (closes s <= 1)%nat
  /\ (bodyClosed (stream s) = true -> closes s = 1%nat)
  /\ (forall t, pcs s t = Done -> closes s = 1%nat).
Proof.
  intros [Ih Ic Id].
  assert (B : bodyClosed (stream s) = true -> closes s = 1%nat).
  { intros B. rewrite B in Ic. destruct (mu s) as [h|]; [|exact Ic].
    destruct (pcs s h); try contradiction; try exact Ic;
      destruct Ic as [Ib Ic]; try discriminate; exact Ic. }
  split; [|split; [exact B | intros t D; apply B; eapply Id; exact D]].
  destruct (bodyClosed (stream s)) eqn:Eb; [rewrite B; auto|].
  destruct (mu s) as [h|]; [|simpl in Ic; lia].
  destruct (pcs s h); try contradiction; simpl in Ic; try lia;
    destruct Ic as [_ Ic]; lia.
Qed.

(** Progress: a closing task is never stuck for good.  The holder of the
    mutex can always move, and a task finishes within six of its own steps
    once the mutex is free or its own. *)
Definition steps_left (p : pc) : nat :=
  match p with
  | AtSetState => 6 | AtLock => 5 | AtCheck => 4 | AtClose => 3
  | AtSetFlag => 2 | AtUnlock => 1 | Done => 0
  end%nat.

Lemma run_app (s : State) (l1 l2 : list nat) :
  run s (l1 ++ l2) = run (run s l1) l2.
Proof.
  revert s. induction l1 as [|t r IH]; intros s; simpl; [reflexivity|].
  destruct (step t s); apply IH.
Qed.

Lemma run_done (s : State) (t : nat) (k : nat) :
  pcs s t = Done -> run s (repeat t k) = s.
Proof.
  intros D. induction k as [|k IH]; simpl; [reflexivity|].
  unfold step. rewrite D. exact IH.
Qed.

Lemma step_effect (t : nat) (s s' : State) :
  step t s = Some s' ->
  (forall t', t' <> t -> pcs s' t' = pcs s t')
  /\ (steps_left (pcs s' t) < steps_left (pcs s t))%nat
  /\ (mu s' = None
      \/ (mu s' = Some t /\ mu s = None)
      \/ mu s' = mu s).
Proof.
  unfold step. destruct (pcs s t) eqn:E; try discriminate;
    try (destruct (mu s) eqn:M; [discriminate|]);
    intros H; injection H as <-; cbn [pcs mu];
    (split; [intros t' N; now apply set_pc_other|]);
    rewrite set_pc_same;
    (split; [try destruct (bodyClosed (stream s)); simpl; lia|]); auto.
Qed.

Lemma holder_moves (s : State) (h : nat) :
  Inv s -> mu s = Some h -> exists s', step h s = Some s'.
Proof.
  intros [_ Ic _] M. rewrite M in Ic. unfold step.
  destruct (pcs s h); try contradiction; eexists; reflexivity.
Qed.

Lemma release (k : nat) (s : State) (h : nat) :
  Inv s -> mu s = Some h -> (steps_left (pcs s h) <= k)%nat ->
  Inv (run s (repeat h k))
  /\ mu (run s (repeat h k)) = None
  /\ (forall t, t <> h -> pcs (run s (repeat h k)) t = pcs s t).
Proof.
  revert s. induction k as [|k IH]; intros s I M L.
  - exfalso. destruct I as [_ Ic _]. rewrite M in Ic.
    destruct (pcs s h); simpl in L; try lia; contradiction.
  - cbn [repeat run].
    destruct (@holder_moves s h I M) as [s' E]. rewrite E.
    pose proof (@Inv_step h s s' I E) as I'.
    destruct (@step_effect h s s' E) as (O & D & [N|[[_ N]|N]]).
    + assert (Dn : pcs s' h = Done).
      { unfold step in E. destruct (pcs s h) eqn:P; try discriminate;
          try (rewrite M in E; discriminate);
          injection E as <-; cbn [pcs mu] in *;
          try congruence. apply set_pc_same. }
      rewrite (@run_done s' h k Dn). auto.
    + congruence.
    + rewrite M in N. destruct (IH s' I' N ltac:(lia)) as (A & B & C).
      split; [exact A|]. split; [exact B|].
      intros t Ht. rewrite C by exact Ht. now apply O.
Qed.

Lemma finish (k : nat) (s : State) (t : nat) :
  Inv s -> mu s = None \/ mu s = Some t -> (steps_left (pcs s t) <= k)%nat ->
  pcs (run s (repeat t k)) t = Done.
Proof.
  revert s. induction k as [|k IH]; intros s I M L.
  - simpl. destruct (pcs s t); simpl in L; try lia; reflexivity.
  - cbn [repeat run].
    destruct (step t s) as [s'|] eqn:E.
    + pose proof (@Inv_step t s s' I E) as I'.
      destruct (@step_effect t s s' E) as (_ & D & N).
      apply IH; [exact I' | | lia].
      destruct N as [N|[[N _]|N]]; auto. rewrite N. exact M.
    + assert (Dn : pcs s t = Done).
      { unfold step in E. destruct (pcs s t) eqn:P; try discriminate;
          try reflexivity.
        destruct M as [M|M]; rewrite M in E; [discriminate|].
        destruct I as [_ Ic _]. rewrite M, P in Ic. contradiction. }
      rewrite (@run_done s t k Dn). exact Dn.
Qed.

Lemma steps_left_bound (p : pc) : (steps_left p <= 6)%nat.
Proof. destruct p; simpl; lia. Qed.

(** After any execution, every task can still be scheduled to its end. *)
Lemma can_finish (s : State) (t : nat) :
  Inv s -> exists more, pcs (run s more) t = Done.
Proof.
  intros I. destruct (mu s) as [h|] eqn:M.
  - destruct (Nat.eq_dec h t) as [->|N].
    + exists (repeat t 6). apply finish; auto using steps_left_bound.
    + assert (L : (steps_left (pcs s h) <= 6)%nat) by apply steps_left_bound.
      destruct (@release 6 s h I M L) as (I' & M' & O).
      exists (repeat h 6 ++ repeat t 6)%list. rewrite run_app.
      apply finish; auto using steps_left_bound.
  - exists (repeat t 6). apply finish; auto using steps_left_bound.
Qed.

(** What the closing tasks leave of the stream [s0] they started on: only
    the state, the channel and the flag are written, the channel is closed
    as soon as a close has been counted, and the state is [StreamClosed]
    once a [CloseStream] task is past its first statement. *)
Record Rel (s0 : HTTP2Stream) (paths : nat -> path) (s : State) : Prop := {
  rel_fields :
    streamID (stream s) = streamID s0
    /\ frames (stream s) = frames s0
    /\ ch_buf (response (stream s)) = ch_buf (response s0)
    /\ pending (stream s) = pending s0;
  rel_channel : ch_closed (response (stream s)) = (0 <? closes s)%nat;
  rel_path : forall t, pcs s t = AtSetState -> paths t = ViaCloseStream;
  rel_closed :
    forall t, paths t = ViaCloseStream -> pcs s t <> AtSetState ->
              state (stream s) = StreamClosed;
  rel_state :
    state (stream s) = state s0
    \/ (state (stream s) = StreamClosed
        /\ exists t, paths t = ViaCloseStream)
}.

Lemma Rel_init (s0 : HTTP2Stream) (paths : nat -> path) :
  ch_closed (response s0) = false -> Rel s0 paths (init s0 paths).
Proof.
  intros C. constructor; cbn [init stream closes pcs].
  - auto.
  - exact C.
  - intros t. destruct (paths t); [discriminate | reflexivity].
  - intros t P. rewrite P. congruence.
  - now left.
Qed.

Lemma Rel_step (s0 : HTTP2Stream) (paths : nat -> path) (t : nat)
  (s s' : State) :
  Rel s0 paths s -> step t s = Some s' -> Rel s0 paths s'.
Proof.
  intros [Rf Rc Rp Rd Rs] H.
  assert (Hp : forall t' p, p <> AtSetState ->
            set_pc (pcs s) t p t' = AtSetState -> paths t' = ViaCloseStream).
  { intros t' p Np. unfold set_pc.
    destruct (Nat.eqb t' t); [congruence | apply Rp]. }
  assert (Hd : forall t' p, pcs s t <> AtSetState ->
            paths t' = ViaCloseStream -> set_pc (pcs s) t p t' <> AtSetState ->
            state (stream s) = StreamClosed).
  { intros t' p Nt P. unfold set_pc.
    destruct (Nat.eqb_spec t' t) as [->|N];
      [intros _; exact (Rd t P Nt) | exact (Rd t' P)]. }
  unfold step in H. destruct (pcs s t) eqn:E.
  - injection H as <-.
    constructor; cbn [stream closes pcs set_state streamID frames response
                      pending state].
    + exact Rf.
    + exact Rc.
    + intros t'. unfold set_pc.
      destruct (Nat.eqb t' t); [discriminate | apply Rp].
    + reflexivity.
    + right. split; [reflexivity|]. exists t. now apply Rp.
  - destruct (mu s); [discriminate|]. injection H as <-.
    constructor; cbn [stream closes pcs]; try assumption.
    + intros t'. apply Hp. congruence.
    + intros t'. apply Hd. congruence.
  - injection H as <-.
    constructor; cbn [stream closes pcs]; try assumption.
    + intros t'. apply Hp. destruct (bodyClosed (stream s)); congruence.
    + intros t'. apply Hd. congruence.
  - injection H as <-.
    constructor; cbn [stream closes pcs close_response streamID frames
                      response pending state ch_buf ch_closed];
      try assumption.
    + reflexivity.
    + intros t'. apply Hp. congruence.
    + intros t'. apply Hd. congruence.
  - injection H as <-.
    constructor; cbn [stream closes pcs set_bodyClosed streamID frames
                      response pending state];
      try assumption.
    + intros t'. apply Hp. congruence.
    + intros t'. apply Hd. congruence.
  - injection H as <-.
    constructor; cbn [stream closes pcs]; try assumption.
    + intros t'. apply Hp. congruence.
    + intros t'. apply Hd. congruence.
  - discriminate.
Qed.

Lemma Rel_run (s0 : HTTP2Stream) (paths : nat -> path) (s : State)
  (schedule : list nat) :
  Rel s0 paths s -> Rel s0 paths (run s schedule).
Proof.
  revert s. induction schedule as [|t rest IH]; simpl; intros s R; [exact R|].
  destruct (step t s) as [s'|] eqn:E; [|now apply IH].
  apply IH. eapply Rel_step; eassumption.
Qed.

(** The channel is closed exactly when one close has been counted. *)
Lemma channel_closes (s0 : HTTP2Stream) (paths : nat -> path) (s : State) :
  Inv s -> Rel s0 paths s ->
  ch_closed (response (stream s)) = (closes s =? 1)%nat.
Proof.
  intros I R. destruct (Inv_closes I) as (L & _).
  rewrite (rel_channel R).
  destruct (closes s) as [|[|n]]; [reflexivity | reflexivity | lia].
Qed.

(** Once a task has finished, the stream is what the guarded close of the
    engine makes of [s0], in the state the tasks have given it. *)
Lemma stream_done (s0 : HTTP2Stream) (paths : nat -> path) (s : State)
  (t : nat) :
  bodyClosed s0 = false -> Inv s -> Rel s0 paths s -> pcs s t = Done ->
  stream s = close_body (set_state s0 (state (stream s))).
Proof.
  intros B I R D.
  pose proof (inv_done I t D) as F.
  destruct (Inv_closes I) as (_ & _ & C). specialize (C t D).
  pose proof (rel_channel R) as Ch. rewrite C in Ch.
  destruct (rel_fields R) as (F1 & F2 & F3 & F4).
  unfold close_body, set_state. cbn [bodyClosed]. rewrite B.
  cbn [streamID state frames response pending ch_buf].
  destruct (stream s) as [i st fr [buf cl] bc pe].
  cbn [streamID state frames response pending ch_buf ch_closed bodyClosed] in *.
  subst. reflexivity.
Qed.

Lemma set_state_same (s0 : HTTP2Stream) : set_state s0 (state s0) = s0.
Proof. now destruct s0. Qed.

End BodyCloseFacts.


(** A DATA frame with END_STREAM (task 0) racing with [CloseStream]
    (task 1) on a stream [GetOrCreateStream] has just made. *)
Definition race_paths (t : nat) : BodyClose.path :=
  match t with
  | O => BodyClose.ViaHandleData
  | _ => BodyClose.ViaCloseStream
  end.

Definition race_schedule : list nat := [0; 1; 1; 0; 0; 1; 0; 0; 1; 1; 1]%nat.


(** In one interleaving the frame loop closes the channel, in the other
    [CloseStream] does; both tasks finish, there is one close, and the
    stream ends the same. *)
Example body_close_race :
  let s1 := BodyClose.run (BodyClose.init (fresh_stream 1) race_paths)
              race_schedule in
  let s2 := BodyClose.run (BodyClose.init (fresh_stream 1) race_paths)
              [1; 1; 0; 1; 0; 1; 1; 1; 0; 0; 0]%nat in
  (BodyClose.pcs s1 0%nat, BodyClose.pcs s1 1%nat, BodyClose.closes s1)
  = (BodyClose.Done, BodyClose.Done, 1%nat)
  /\ (BodyClose.pcs s2 0%nat, BodyClose.pcs s2 1%nat, BodyClose.closes s2)
     = (BodyClose.Done, BodyClose.Done, 1%nat)
  /\ BodyClose.stream s1 = BodyClose.stream s2.
Proof. repeat split; vm_compute; reflexivity. Qed.


(** ** C1: HPACK state across the streams of a connection *)

Lemma find_field_nth (f : HeaderField) (t : list HeaderField) (k i : nat) :
  find_field f t k = Some i ->
  (k <= i)%nat /\ nth_error t (i - k) = Some f.
Proof.
  revert k. induction t as [|g r IH]; simpl; intros k H; [discriminate|].
  destruct (String.eqb (fst f) (fst g) && String.eqb (snd f) (snd g)) eqn:E.
  - injection H as <-. rewrite Nat.sub_diag. split; [lia|]. simpl.
    apply andb_prop in E as [E1 E2].
    apply String.eqb_eq in E1, E2. destruct f, g; simpl in *. now subst.
  - apply IH in H as [Hk Hn]. split; [lia|].
    replace (i - k)%nat with (S (i - S k)) by lia. exact Hn.
Qed.

Lemma at_index_app (d : Decoder) (i : nat) :
  (1 <= i)%nat ->
  at_index d i = nth_error (staticTable ++ dynTab d) (i - 1).
Proof.
  intros H. destruct i as [|j]; [lia|]. unfold at_index.
  replace (S j - 1)%nat with j by lia.
  destruct (Nat.leb_spec (S j) (List.length staticTable)) as [L|L].
  - now rewrite nth_error_app1 by lia.
  - rewrite nth_error_app2 by lia. f_equal. lia.
Qed.

Lemma decode_encode_field (d : Decoder) (ff : bool) (f : HeaderField) :
  decode_rep d ff (snd (encode_field d f))
  = Some (fst (encode_field d f), Some f).
Proof.
  unfold encode_field.
  destruct (find_field f (staticTable ++ dynTab d) 1) as [i|] eqn:E; simpl.
  - apply find_field_nth in E as [Hi Hn].
    rewrite (at_index_app d Hi), Hn. reflexivity.
  - destruct f; reflexivity.
Qed.

Lemma decode_encode_fields (fs : list HeaderField) (d : Decoder) (ff : bool)
  (acc : list HeaderField) :
  decode_reps d ff (snd (encode_fields d fs)) acc
  = (fst (encode_fields d fs), Some (acc ++ fs)%list).
Proof.
  revert d ff acc. induction fs as [|f r IH]; intros d ff acc; simpl.
  - now rewrite app_nil_r.
  - pose proof (decode_encode_field d ff f) as H.
    destruct (encode_field d f) as [enc1 rep]. simpl in H.
    specialize (IH enc1 false (acc ++ [f])%list).
    destruct (encode_fields enc1 r) as [enc2 reps]. simpl in *.
    rewrite H, IH. now rewrite <- app_assoc.
Qed.

(** A decoder that has seen every block the peer's encoder produced
    decodes the next block to the fields that were encoded, and stays in
    step with the encoder. *)
Lemma DecodeFull_encode (d : Decoder) (fs : list HeaderField) :
  DecodeFull d (snd (encode_fields d fs)) = (fst (encode_fields d fs), Some fs).
Proof. unfold DecodeFull. now rewrite decode_encode_fields. Qed.

(** The client side of a connection: one HEADERS frame with END_STREAM per
    request, all encoded with the one encoder of the connection. *)
Fixpoint client_frames (enc : Decoder) (reqs : list (Z * list HeaderField))
  : list Frame :=
  match reqs with
  | [] => []
  | (sid, fs) :: rest =>
      HeadersFrame sid (snd (encode_fields enc fs)) true
        :: client_frames (fst (encode_fields enc fs)) rest
  end.

Section PersistentDecoder.

Context {sorter : StringSorter}.
Variable srv : Server.
Variable tlsFingerprint : option TLSDetails.
Variable requestID : string.
Variable responseTime : Z.

Let handle := handleRequest srv tlsFingerprint requestID responseTime.
Let frame_step := process_frame srv tlsFingerprint requestID responseTime.
Let frames_run := run_frames srv tlsFingerprint requestID responseTime.

Lemma CloseStream_keeps (c : HTTP2Connection) (sid : Z) :
  hpackDecoder (CloseStream c sid) = hpackDecoder c
  /\ deliveries (CloseStream c sid) = deliveries c.
Proof.
  unfold CloseStream. destruct (get_stream sid (streams c)); split; reflexivity.
Qed.

Lemma sendResponse_keeps (c : HTTP2Connection) (sid : Z) (resp : Response)
  (path method : string) :
  hpackDecoder (sendResponse srv requestID responseTime c sid resp path method)
  = hpackDecoder c
  /\ deliveries (sendResponse srv requestID responseTime c sid resp path method)
     = deliveries c.
Proof.
  unfold sendResponse.
  destruct (Router srv path resp) as [res ctype].
  destruct (GetAdmin srv) as [key isKeySet].
  destruct (isKeySet && String.eqb method "OPTIONS");
    [|destruct isKeySet; [destruct (Http2 resp) as [h2|]|]];
    try (split; reflexivity);
    (destruct (redirect_directive ctype) as [[code loc]|];
     match goal with
     | |- context [cookies_directive ?x] =>
         destruct (cookies_directive x) as [[cs real]|]
     end;
     match goal with
     | |- context [0 <? ?n] => destruct (0 <? n)
     end;
     rewrite !(proj1 (CloseStream_keeps _ _)),
             !(proj2 (CloseStream_keeps _ _)); split; reflexivity).
Qed.

Lemma handleRequest_delivers (c : HTTP2Connection) (sid : Z)
  (headers : list HeaderField) (stream : HTTP2Stream) :
  hpackDecoder (handle c sid headers stream) = hpackDecoder c
  /\ map dl_headers (deliveries (handle c sid headers stream))
     = (map dl_headers (deliveries c) ++ [headers])%list.
Proof.
  unfold handle, handleRequest.
  rewrite (proj1 (sendResponse_keeps _ _ _ _ _)),
          (proj2 (sendResponse_keeps _ _ _ _ _)).
  unfold record_delivery. cbn [hpackDecoder deliveries].
  rewrite map_app. split; reflexivity.
Qed.

Lemma capture_keeps (c : HTTP2Connection) (sid : Z) (p : ParsedFrame) :
  hpackDecoder (fst (capture c sid p)) = hpackDecoder c
  /\ deliveries (fst (capture c sid p)) = deliveries c.
Proof.
  unfold capture, GetOrCreateStream.
  destruct (get_stream sid (streams c)); split; reflexivity.
Qed.

(** The headers handed to the request of each stream are the ones the
    client encoded, also when a block refers to entries that earlier
    streams inserted into the dynamic table. *)
Lemma persistent_decoder_delivers (reqs : list (Z * list HeaderField))
  (c : HTTP2Connection) :
  map dl_headers (deliveries (fst (frames_run c
                      (client_frames (hpackDecoder c) reqs))))
  = (map dl_headers (deliveries c) ++ map snd reqs)%list.
Proof.
  revert c. induction reqs as [|[sid fs] rest IH]; intros c.
  - simpl. now rewrite app_nil_r.
  - cbn [client_frames map snd]. unfold frames_run. cbn [run_frames].
    unfold process_frame.
    set (p := convertFrame _).
    set (c0 := if frame_stream _ =? 0 then _ else c).
    assert (K0 : hpackDecoder c0 = hpackDecoder c /\ deliveries c0 = deliveries c).
    { subst c0. destruct (_ =? 0); split; reflexivity. }
    destruct K0 as [K0d K0l].
    pose proof (capture_keeps c0 sid p) as [K1d K1l].
    destruct (capture c0 sid p) as [c1 stream]. cbn [fst] in K1d, K1l.
    rewrite K1d, K0d, DecodeFull_encode. cbn [orb].
    pose proof (handleRequest_delivers
                  (set_decoder c1 (fst (encode_fields (hpackDecoder c) fs)))
                  sid fs stream) as [H1 H2].
    fold handle.
    set (c2 := handle _ sid fs stream) in *.
    cbn [hpackDecoder set_decoder deliveries] in H1, H2.
    rewrite <- H1. fold frames_run. rewrite IH, H2, K1l, K0l.
    now rewrite <- app_assoc.
Qed.

End PersistentDecoder.

(** The engine's behaviour does not depend on the sorting routine. *)
Section EngineSorter.

Variables S1 S2 : StringSorter.
Variable srv : Server.
Variable tlsFingerprint : option TLSDetails.
Variable requestID : string.
Variable responseTime : Z.

Lemma CalculateJA4H_sorter (method version : string) (headers : list string) :
  @CalculateJA4H S1 method version headers
  = @CalculateJA4H S2 method version headers.
Proof.
  unfold CalculateJA4H, calculateHeaderHash, calculateCookieHash.
  now rewrite !(sortStrings_canonical S1), !(sortStrings_canonical S2).
Qed.

Lemma CalculateJA4H_r_sorter (method version : string) (headers : list string) :
  @CalculateJA4H_r S1 method version headers
  = @CalculateJA4H_r S2 method version headers.
Proof.
  unfold CalculateJA4H_r. destruct (ja4h_r_collect headers) as [f c].
  now rewrite !(sortStrings_canonical S1), !(sortStrings_canonical S2).
Qed.

Lemma handleRequest_sorter (c : HTTP2Connection) (sid : Z)
  (headers : list HeaderField) (stream : HTTP2Stream) :
  @handleRequest S1 srv tlsFingerprint requestID responseTime c sid headers
    stream
  = @handleRequest S2 srv tlsFingerprint requestID responseTime c sid headers
      stream.
Proof.
  unfold handleRequest.
  now rewrite CalculateJA4H_sorter, CalculateJA4H_r_sorter.
Qed.

Lemma run_tasks_sorter (c : HTTP2Connection) (sid : Z) (stream : HTTP2Stream) :
  @run_tasks S1 srv tlsFingerprint requestID responseTime c sid stream
  = @run_tasks S2 srv tlsFingerprint requestID responseTime c sid stream.
Proof.
  unfold run_tasks. revert c.
  induction (pending stream) as [|h r IH]; intros c; simpl; [reflexivity|].
  now rewrite handleRequest_sorter, IH.
Qed.

Lemma process_frame_sorter (c : HTTP2Connection) (frame : Frame) :
  @process_frame S1 srv tlsFingerprint requestID responseTime c frame
  = @process_frame S2 srv tlsFingerprint requestID responseTime c frame.
Proof.
  unfold process_frame, handleData.
  destruct frame; try reflexivity.
  - destruct (capture _ _ _) as [c1 stream].
    destruct (DecodeFull _ _) as [d [headers|]]; [|reflexivity].
    now rewrite handleRequest_sorter.
  - destruct (capture _ _ _) as [c1 stream0].
    destruct (get_stream _ _) as [stream|]; [|reflexivity].
    destruct (ch_closed _); [|destruct (pending stream);
                               [destruct (_ <? _)%nat|]];
      destruct StreamEnded; try reflexivity; now rewrite run_tasks_sorter.
  - destruct (get_stream _ _); [|reflexivity]. now rewrite run_tasks_sorter.
Qed.

Lemma run_frames_sorter (fs : list Frame) (c : HTTP2Connection) :
  @run_frames S1 srv tlsFingerprint requestID responseTime c fs
  = @run_frames S2 srv tlsFingerprint requestID responseTime c fs.
Proof.
  revert c. induction fs as [|f r IH]; intros c; simpl; [reflexivity|].
  rewrite process_frame_sorter.
  destruct (process_frame _ _ _ _ _ f) as [c' go].
  destruct go; [apply IH | reflexivity].
Qed.

End EngineSorter.

(** A client sending the same five header fields on streams 1 and 3; the
    second block refers to the entries the first one inserted. *)
Definition client_request : list HeaderField :=
  [(":method", "GET"); (":path", "/get"); (":scheme", "https");
   ("user-agent", "x"); ("accept", "*/*")].

Definition two_stream_frames : list Frame :=
  SettingsFrame false [("HEADER_TABLE_SIZE", 65536)]
    :: client_frames (NewDecoder 4096)
         [(1, client_request); (3, client_request)].

Example two_stream_blocks :
  two_stream_frames
  = [SettingsFrame false [("HEADER_TABLE_SIZE", 65536)];
     HeadersFrame 1
       [Indexed 2; LiteralIncremental 0 ":path" "/get"; Indexed 7;
        LiteralIncremental 0 "user-agent" "x";
        LiteralIncremental 0 "accept" "*/*"] true;
     HeadersFrame 3
       [Indexed 2; Indexed 64; Indexed 7; Indexed 63; Indexed 62] true].
Proof. vm_compute. reflexivity. Qed.

(** C1 at this input.  The header list handed to the request of stream 3
    is the one the client encoded, but the header list attached to the
    captured HEADERS frame of stream 3, from which JA4H is computed, is
    empty: [convertFrame] decodes each frame with a fresh decoder, which
    knows none of the entries inserted on stream 1.  The two streams carry
    the same headers and get different JA4H strings. *)
Theorem captured_headers_lose_dynamic_entries (S : StringSorter) :
  let c := fst (run_frames (sample_server ("", false)) (Some sample_tls)
                  "r1" 0 NewHTTP2Connection two_stream_frames) in
  map dl_headers (deliveries c) = [client_request; client_request]
  /\ map dl_h2Headers (deliveries c)
     = [map render_header client_request; []]
  /\ map render_header client_request
     = [":method: GET"; ":path: /get"; ":scheme: https"; "user-agent: x";
        "accept: */*"]
  /\ map (fun d => option_map JA4H (dl_TLS d)) (deliveries c)
     = [Some "ge205_e5a56608905c_000000000000";
        Some "ge200_000000000000_000000000000"].
Proof.
  cbv zeta.
  assert (E : fst (run_frames (sample_server ("", false)) (Some sample_tls)
                     "r1" 0 NewHTTP2Connection two_stream_frames)
              = fst (@run_frames InsertionSorter (sample_server ("", false))
                       (Some sample_tls) "r1" 0 NewHTTP2Connection
                       two_stream_frames)).
  { now rewrite (run_frames_sorter S InsertionSorter). }
  rewrite E. repeat split; vm_compute; reflexivity.
Qed.

(** The scenario "/redirect/2 on H2": three requests on one connection get
    302 to [/redirect/1], 302 to [/get] and 200, and nothing but the
    SETTINGS acknowledgement and the responses is written while the
    connection is read. *)
Example redirect_chain_on_one_connection :
  let request := fun path =>
    [(":method", "GET"); (":path", path); (":scheme", "https")] in
  let frames :=
    SettingsFrame false []
      :: client_frames (NewDecoder 4096)
           [(1, request "/redirect/2"); (3, request "/redirect/1");
            (5, request "/get")] in
  let c := fst (@run_frames InsertionSorter (sample_server ("", false))
                  (Some sample_tls) "r1" 0 NewHTTP2Connection frames) in
  let common := fun (status len ctype : string) (extra : list HeaderField) =>
    ([(":status", status); ("server", "TrackMe.peet.ws");
      ("content-length", len); ("content-type", ctype);
      ("x-request-id", "r1"); ("x-response-time", "0")]
       ++ extra ++ [("alt-svc", alt_svc_value)])%list in
  wire c
  = [WriteSettingsAck;
     WriteHeaders 1 (common "302" "0" "text/html; charset=utf-8"
                       [("location", "/redirect/1")]) true;
     WriteHeaders 3 (common "302" "0" "text/html; charset=utf-8"
                       [("location", "/get")]) true;
     WriteHeaders 5 (common "200" "2" "application/json" []) false;
     WriteData 5 true [123; 125]]
  /\ closing c = false.
Proof. split; vm_compute; reflexivity. Qed.

(** * Further code and its properties *)

(** ** Splitting and joining at a one-byte separator *)

(** Joining the pieces of a split gives the string back. *)
Lemma Join_split_from (c : ascii) (s cur : string) :
  Join (split_from (str1 c) 0 cur s) (str1 c) = (cur ++ s)%string.
Proof.
  revert cur. induction s as [|x s IH]; intros cur.
  - simpl. now rewrite append_nil_r.
  - cbn [split_from]. rewrite prefix_str1.
    destruct (Ascii.eqb_spec x c) as [->|N].
    + cbn [String.length str1 Nat.sub].
      destruct (split_from_cons (str1 c) 0 "" s) as (h & t & E).
      specialize (IH ""). rewrite E in *.
      change (Join (cur :: h :: t) (str1 c))
        with (cur ++ str1 c ++ Join (h :: t) (str1 c))%string.
      now rewrite IH.
    + rewrite IH. unfold str1. now rewrite append_assoc.
Qed.

Lemma Join_Split (c : ascii) (s : string) :
  Join (Split s (str1 c)) (str1 c) = s.
Proof. unfold Split. now rewrite Join_split_from. Qed.

(** Splitting a join of separator-free pieces gives the pieces back. *)
Lemma Split_Join (c : ascii) (x : string) (l : list string) :
  Forall (fun p => no_char c p = true) (x :: l) ->
  Split (Join (x :: l) (str1 c)) (str1 c) = x :: l.
Proof.
  unfold Split. revert x. induction l as [|y l IH]; intros x H.
  - inversion H; subst. cbn [Join]. now rewrite split1_last.
  - inversion H as [|? ? Hx Hr]; subst.
    change (Join (x :: y :: l) (str1 c))
      with (x ++ String c (Join (y :: l) (str1 c)))%string.
    rewrite (@split1_segment c x _ _ Hx). cbn [append]. f_equal. now apply IH.
Qed.

Lemma splitn1_segment (c : ascii) (n : nat) (a rest cur : string) :
  no_char c a = true ->
  splitn_from (str1 c) (S (S n)) 0 cur (a ++ String c rest)
  = (cur ++ a)%string :: splitn_from (str1 c) (S n) 0 "" rest.
Proof.
  revert cur. induction a as [|x a IH]; intros cur H.
  - cbn [append splitn_from]. rewrite prefix_str1, Ascii.eqb_refl.
    now rewrite append_nil_r.
  - cbn [no_char] in H. apply andb_prop in H as [Hx Ha].
    cbn [append splitn_from]. rewrite prefix_str1.
    apply negb_true_iff in Hx. rewrite Hx.
    rewrite (IH _ Ha). f_equal. unfold str1. now rewrite append_assoc.
Qed.

Lemma splitn1_rest (sep s : string) : splitn_from sep 1 0 "" s = [s].
Proof. destruct s; reflexivity. Qed.

Lemma no_char_app (c : ascii) (a b : string) :
  no_char c (a ++ b) = no_char c a && no_char c b.
Proof.
  induction a as [|x a IH]; simpl; [reflexivity|].
  now rewrite IH, andb_assoc.
Qed.

(** ** [extractStatusCode] *)

(** X1.  Whatever the path, the status code the engines start from is a
    valid HTTP status (100 to 599), and it is 200 for every path outside
    [/status/]. *)
Theorem extractStatusCode_range (path : string) :
  100 <= extractStatusCode path < 600
  /\ (HasPrefix path "/status/" = false -> extractStatusCode path = 200).
Proof.
  unfold extractStatusCode.
  destruct (HasPrefix path "/status/"); cbn [negb].
  - split; [|discriminate].
    destruct (3 <=? _); [|lia].
    destruct (Atoi _) as [code|]; [|lia].
    destruct (Z.leb_spec 100 code); destruct (Z.ltb_spec code 600);
      cbn [andb]; lia.
  - split; [lia | reflexivity].
Qed.

(** ** The HTTP/2 engine: the stream table *)

Lemma get_delete_stream (k sid : Z) (m : list (Z * HTTP2Stream)) :
  get_stream k (delete_stream sid m)
  = if k =? sid then None else get_stream k m.
Proof.
  induction m as [|[k0 s0] r IH]; simpl.
  - now destruct (k =? sid).
  - destruct (Z.eqb_spec k0 sid) as [->|N].
    + rewrite IH. destruct (Z.eqb_spec k sid) as [->|N']; [reflexivity|].
      destruct (Z.eqb_spec sid k); [congruence | reflexivity].
    + simpl. rewrite IH. destruct (Z.eqb_spec k0 k) as [->|N'].
      * destruct (Z.eqb_spec k sid); [congruence | reflexivity].
      * reflexivity.
Qed.

Lemma delete_stream_Forall (P : Z * HTTP2Stream -> Prop) (sid : Z)
  (m : list (Z * HTTP2Stream)) :
  Forall P m -> Forall P (delete_stream sid m).
Proof.
  induction 1 as [|[k0 s0] r H0 Hr IH]; simpl; [constructor|].
  destruct (k0 =? sid); [assumption | now constructor].
Qed.

Lemma delete_stream_length (sid : Z) (m : list (Z * HTTP2Stream)) :
  (List.length (delete_stream sid m) <= List.length m)%nat.
Proof.
  induction m as [|[k0 s0] r IH]; simpl; [lia|].
  destruct (k0 =? sid); simpl; lia.
Qed.

Lemma update_stream_keys (s : HTTP2Stream) (m : list (Z * HTTP2Stream)) :
  map fst (update_stream s m) = map fst m.
Proof.
  induction m as [|[k0 s0] r IH]; simpl; [reflexivity|].
  destruct (k0 =? streamID s); simpl; [reflexivity | now rewrite IH].
Qed.

Lemma get_stream_Forall (P : Z * HTTP2Stream -> Prop) (k : Z)
  (m : list (Z * HTTP2Stream)) (s : HTTP2Stream) :
  Forall P m -> get_stream k m = Some s -> P (k, s).
Proof.
  induction 1 as [|[k0 s0] r H0 Hr IH]; simpl; [discriminate|].
  destruct (Z.eqb_spec k0 k) as [->|N]; [|assumption].
  intros E. injection E as <-. assumption.
Qed.

Lemma CloseStream_set (c : HTTP2Connection) (sid : Z) :
  CloseStream c sid = set_streams c (streams (CloseStream c sid)).
Proof.
  unfold CloseStream. destruct (get_stream sid (streams c)); [reflexivity|].
  now destruct c.
Qed.

Lemma CloseStream_gone (c : HTTP2Connection) (sid : Z) :
  get_stream sid (streams (CloseStream c sid)) = None.
Proof.
  unfold CloseStream. destruct (get_stream sid (streams c)) eqn:E; [|exact E].
  cbn [streams set_streams]. now rewrite get_delete_stream, Z.eqb_refl.
Qed.

Lemma CloseStream_count (c : HTTP2Connection) (sid : Z) :
  (List.length (streams (CloseStream c sid)) <= List.length (streams c))%nat.
Proof.
  unfold CloseStream. destruct (get_stream sid (streams c)); [|lia].
  cbn [streams set_streams].
  etransitivity; [apply delete_stream_length|].
  rewrite <- (length_map fst), update_stream_keys, length_map. lia.
Qed.

(** ** The HTTP/2 engine: what a response writes *)

Lemma chunks_nonempty (b : Z) (bs : list Z) (size : Z) :
  H2.SplitBytesIntoChunks (b :: bs) size <> [].
Proof. unfold H2.SplitBytesIntoChunks. simpl. discriminate. Qed.

Lemma write_write (c : HTTP2Connection) (a b : list WireAction) :
  write (write c a) b = write c (a ++ b).
Proof. unfold write. cbn. now rewrite <- app_assoc. Qed.

Definition no_chunk (chunks : list (list Z)) : bool :=
  match chunks with [] => true | _ => false end.

Section ResponseShape.

Variable srv : Server.
Variable requestID : string.
Variable responseTime : Z.

(** A response is one HEADERS frame followed by the DATA frames of the
    body, after which the stream is closed. *)
Lemma sendResponse_shape (c : HTTP2Connection) (sid : Z) (resp : Response)
  (path method : string) :
  Http2 resp <> None ->
  exists fields chunks,
    sendResponse srv requestID responseTime c sid resp path method
    = CloseStream
        (write c (WriteHeaders sid fields (no_chunk chunks)
                    :: data_actions sid chunks)) sid.
Proof.
  intros Hh2. unfold sendResponse.
  destruct (Router srv path resp) as [res ctype].
  destruct (GetAdmin srv) as [key isKeySet].
  assert (exists isAdmin,
            (if isKeySet && String.eqb method "OPTIONS" then Some true
             else if isKeySet
                  then match Http2 resp with
                       | Some h2 =>
                           Some (existsb (frame_has_key key) (SendFrames h2))
                       | None => None
                       end
                  else Some false) = Some isAdmin) as [isAdmin ->].
  { destruct (isKeySet && String.eqb method "OPTIONS"); [eauto|].
    destruct isKeySet; [|eauto].
    destruct (Http2 resp); [eauto | congruence]. }
  destruct (redirect_directive ctype) as [[code loc]|];
    match goal with
    | |- context [cookies_directive ?x] =>
        destruct (cookies_directive x) as [[cs real]|]
    end;
    match goal with
    | |- context [WriteHeaders sid ?f (Z.of_nat (List.length ?r) =? 0)] =>
        exists f;
        destruct r as [|b bs];
        [ exists []; reflexivity
        | exists (H2.SplitBytesIntoChunks (b :: bs) 16384);
          replace (0 <? Z.of_nat (List.length (b :: bs))) with true
            by (symmetry; apply Z.ltb_lt; simpl; lia);
          replace (Z.of_nat (List.length (b :: bs)) =? 0) with false
            by (symmetry; apply Z.eqb_neq; simpl; lia);
          rewrite write_write;
          pose proof (@chunks_nonempty b bs 16384) as Hn;
          destruct (H2.SplitBytesIntoChunks (b :: bs) 16384);
          [congruence | reflexivity] ]
    end.
Qed.

End ResponseShape.

Lemma last_cons (A : Type) (l : list A) (a d : A) :
  last (a :: l) d = last l a.
Proof.
  revert a d. induction l as [|b r IH]; intros a d; [reflexivity|].
  change (last (a :: b :: r) d) with (last (b :: r) d).
  now rewrite !IH.
Qed.

Lemma data_actions_closed_form (sid : Z) (chunk : list Z)
  (chunks : list (list Z)) :
  data_actions sid (chunk :: chunks)
  = (map (WriteData sid false) (removelast (chunk :: chunks))
     ++ [WriteData sid true (last chunks chunk)])%list.
Proof.
  revert chunk. induction chunks as [|c2 r IH]; intros chunk.
  - reflexivity.
  - change (data_actions sid (chunk :: c2 :: r))
      with (WriteData sid false chunk :: data_actions sid (c2 :: r)).
    rewrite IH.
    change (removelast (chunk :: c2 :: r))
      with (chunk :: removelast (c2 :: r)).
    rewrite (last_cons r c2 chunk). reflexivity.
Qed.

Section EngineInvariants.

Context {sorter : StringSorter}.
Variable srv : Server.
Variable tlsFingerprint : option TLSDetails.
Variable requestID : string.
Variable responseTime : Z.

Local Abbreviation handle := (handleRequest srv tlsFingerprint requestID responseTime).
Local Abbreviation tasks := (run_tasks srv tlsFingerprint requestID responseTime).
Local Abbreviation on_data := (handleData srv tlsFingerprint requestID responseTime).
Local Abbreviation frame_step := (process_frame srv tlsFingerprint requestID responseTime).
Local Abbreviation frames_run := (run_frames srv tlsFingerprint requestID responseTime).
Local Abbreviation frames_all := (processFrames srv tlsFingerprint requestID responseTime).

Lemma handleRequest_shape (c : HTTP2Connection) (sid : Z)
  (headers : list HeaderField) (stream : HTTP2Stream) :
  exists d fields chunks,
    handle c sid headers stream
    = CloseStream
        (write (record_delivery c d)
           (WriteHeaders sid fields (no_chunk chunks)
              :: data_actions sid chunks)) sid.
Proof.
  unfold handleRequest.
  match goal with
  | |- context [sendResponse _ _ _ (record_delivery c ?d) sid ?resp ?p ?m] =>
      exists d;
      destruct (@sendResponse_shape srv requestID responseTime
                  (record_delivery c d) sid resp p m) as (fields & chunks & E);
      [cbn; discriminate | exists fields, chunks; exact E]
  end.
Qed.

(** X2.  The response to a request is one HEADERS frame and then the DATA
    frames of the body, all on the request's stream and appended to what
    was written before; END_STREAM is set exactly once, on the last of these
    frames: on HEADERS when there is no body, otherwise on the last DATA
    frame and on no other. *)
Theorem handleRequest_ends_stream_once (c : HTTP2Connection) (sid : Z)
  (headers : list HeaderField) (stream : HTTP2Stream) :
  exists fields,
    wire (handle c sid headers stream)
    = (wire c ++ [WriteHeaders sid fields true])%list
    \/ exists chunks final,
         wire (handle c sid headers stream)
         = (wire c ++ WriteHeaders sid fields false
                      :: map (WriteData sid false) chunks
                      ++ [WriteData sid true final])%list.
Proof.
  destruct (handleRequest_shape c sid headers stream)
    as (d & fields & chunks & ->).
  exists fields. rewrite CloseStream_set. cbn [wire set_streams write record_delivery].
  destruct chunks as [|chunk chunks]; [now left|].
  right. rewrite data_actions_closed_form. cbn [no_chunk]. eauto.
Qed.

(** X3.  When a request has been answered its stream has left the stream
    table, and the table has not grown: a later frame on the same stream
    id starts from a fresh stream. *)
Theorem handleRequest_releases_stream (c : HTTP2Connection) (sid : Z)
  (headers : list HeaderField) (stream : HTTP2Stream) :
  get_stream sid (streams (handle c sid headers stream)) = None
  /\ (List.length (streams (handle c sid headers stream))
      <= List.length (streams c))%nat
  /\ snd (GetOrCreateStream (handle c sid headers stream) sid)
     = {| streamID := sid; state := StreamOpen; frames := [];
          response := {| ch_buf := []; ch_closed := false |};
          bodyClosed := false; pending := [] |}.
Proof.
  destruct (handleRequest_shape c sid headers stream)
    as (d & fields & chunks & ->).
  split; [apply CloseStream_gone|]. split.
  - etransitivity; [apply CloseStream_count|]. cbn. lia.
  - unfold GetOrCreateStream. now rewrite CloseStream_gone.
Qed.

(** *** An invariant of the frame loop *)

Definition loop_action (a : WireAction) : bool :=
  match a with
  | WriteGoAway _ _ _ | ConnClose => false
  | _ => true
  end.

Definition action_stream (a : WireAction) : Z :=
  match a with
  | WriteHeaders sid _ _ | WriteData sid _ _ | WriteRSTStream sid _ => sid
  | _ => 0
  end.

Definition stream_ok (ks : Z * HTTP2Stream) : Prop :=
  streamID (snd ks) = fst ks
  /\ (List.length (ch_buf (response (snd ks))) <= 10)%nat
  /\ Forall (fun p => pf_Stream p = fst ks) (frames (snd ks))
  /\ bodyClosed (snd ks) = ch_closed (response (snd ks)).

Definition wire_ok (last : Z) (a : WireAction) : Prop :=
  loop_action a = true /\ action_stream a <= last.

Record conn_ok (c : HTTP2Connection) : Prop := {
  ok_streams : Forall stream_ok (streams c);
  ok_keys : Forall (fun ks => fst ks <= lastStreamID c) (streams c);
  ok_last : 0 <= lastStreamID c;
  ok_frames : Forall (fun p => pf_Stream p = 0) (connectionFrames c);
  ok_wire : Forall (wire_ok (lastStreamID c)) (wire c);
  ok_closing : closing c = false
}.

Lemma conn_ok_new : conn_ok NewHTTP2Connection.
Proof. constructor; cbn; try constructor; lia. Qed.

Lemma update_stream_ok (s : HTTP2Stream) (m : list (Z * HTTP2Stream)) :
  Forall stream_ok m -> stream_ok (streamID s, s) ->
  Forall stream_ok (update_stream s m).
Proof.
  intros Hm Hs. induction Hm as [|[k0 s0] r H0 Hr IH]; simpl; [constructor|].
  destruct (Z.eqb_spec k0 (streamID s)) as [->|N]; constructor; auto.
Qed.

Lemma update_stream_bound (L : Z) (s : HTTP2Stream)
  (m : list (Z * HTTP2Stream)) :
  Forall (fun ks => fst ks <= L) m ->
  Forall (fun ks => fst ks <= L) (update_stream s m).
Proof.
  intros Hm. induction Hm as [|[k0 s0] r H0 Hr IH]; simpl; [constructor|].
  destruct (k0 =? streamID s); constructor; auto.
Qed.

Lemma close_body_id (s : HTTP2Stream) : streamID (close_body s) = streamID s.
Proof. unfold close_body. now destruct (bodyClosed s). Qed.

Lemma close_body_ok (k : Z) (s : HTTP2Stream) :
  stream_ok (k, s) -> stream_ok (k, close_body s).
Proof.
  unfold close_body. destruct (bodyClosed s); [trivial|].
  unfold stream_ok. cbn. tauto.
Qed.

Lemma set_streams_ok (c : HTTP2Connection) (m : list (Z * HTTP2Stream)) :
  conn_ok c -> Forall stream_ok m ->
  Forall (fun ks => fst ks <= lastStreamID c) m ->
  conn_ok (set_streams c m).
Proof. intros [] H1 H2. constructor; cbn; assumption. Qed.

Lemma write_ok (c : HTTP2Connection) (acts : list WireAction) :
  conn_ok c -> Forall (wire_ok (lastStreamID c)) acts -> conn_ok (write c acts).
Proof.
  intros [] H. constructor; cbn; try assumption.
  apply Forall_app. now split.
Qed.

Lemma CloseStream_ok (c : HTTP2Connection) (sid : Z) :
  conn_ok c -> conn_ok (CloseStream c sid).
Proof.
  intros H. unfold CloseStream.
  destruct (get_stream sid (streams c)) as [stream|] eqn:E; [|assumption].
  pose proof (@get_stream_Forall stream_ok sid _ _ (ok_streams H) E) as Hs.
  apply set_streams_ok; [assumption| |].
  - apply delete_stream_Forall, update_stream_ok; [apply (ok_streams H)|].
    rewrite close_body_id. apply close_body_ok.
    destruct Hs as (H1 & H2 & H3 & H4). unfold stream_ok. cbn in *.
    rewrite H1. auto.
  - apply delete_stream_Forall, update_stream_bound, (ok_keys H).
Qed.

Lemma data_actions_ok (L sid : Z) (chunks : list (list Z)) :
  sid <= L -> Forall (wire_ok L) (data_actions sid chunks).
Proof.
  intros H. induction chunks as [|chunk r IH]; [constructor|].
  destruct r as [|c2 r].
  - repeat constructor. exact H.
  - change (data_actions sid (chunk :: c2 :: r))
      with (WriteData sid false chunk :: data_actions sid (c2 :: r)).
    constructor; [split; [reflexivity | exact H] | exact IH].
Qed.

Lemma handleRequest_ok (c : HTTP2Connection) (sid : Z)
  (headers : list HeaderField) (stream : HTTP2Stream) :
  conn_ok c -> sid <= lastStreamID c ->
  conn_ok (handle c sid headers stream)
  /\ lastStreamID (handle c sid headers stream) = lastStreamID c.
Proof.
  intros H Hs.
  destruct (handleRequest_shape c sid headers stream)
    as (d & fields & chunks & ->).
  split; [|now rewrite CloseStream_set].
  apply CloseStream_ok, write_ok.
  - destruct H. constructor; cbn; assumption.
  - cbn. constructor; [split; [reflexivity | exact Hs]|].
    now apply data_actions_ok.
Qed.

Lemma run_tasks_ok (c : HTTP2Connection) (sid : Z) (stream : HTTP2Stream) :
  conn_ok c -> sid <= lastStreamID c ->
  conn_ok (tasks c sid stream)
  /\ lastStreamID (tasks c sid stream) = lastStreamID c.
Proof.
  unfold run_tasks. revert c.
  induction (pending stream) as [|h r IH]; intros c H Hs; cbn [fold_left].
  - now split.
  - destruct (handleRequest_ok h stream H Hs) as [H1 H2].
    destruct (IH _ H1) as [H3 H4]; [lia|]. split; [exact H3 | lia].
Qed.

Lemma pf_Stream_convertFrame (f : Frame) :
  pf_Stream (convertFrame f) = frame_stream f.
Proof.
  destruct f; try reflexivity.
  cbn. destruct (snd (DecodeFull _ _)); reflexivity.
Qed.

Lemma wire_ok_mono (L L' : Z) (l : list WireAction) :
  L <= L' -> Forall (wire_ok L) l -> Forall (wire_ok L') l.
Proof.
  intros HL H. eapply Forall_impl; [|exact H].
  intros a [H1 H2]. split; [exact H1 | lia].
Qed.

Lemma GetOrCreateStream_ok (c : HTTP2Connection) (sid : Z) :
  conn_ok c ->
  conn_ok (fst (GetOrCreateStream c sid))
  /\ sid <= lastStreamID (fst (GetOrCreateStream c sid))
  /\ stream_ok (sid, snd (GetOrCreateStream c sid)).
Proof.
  intros H. unfold GetOrCreateStream.
  destruct (get_stream sid (streams c)) as [stream|] eqn:E; cbn [fst snd].
  - split; [assumption|]. split.
    + exact (@get_stream_Forall (fun ks => fst ks <= lastStreamID c) sid _ _
               (ok_keys H) E).
    + exact (@get_stream_Forall stream_ok sid _ _ (ok_streams H) E).
  - assert (HL : lastStreamID c
                 <= (if lastStreamID c <? sid then sid else lastStreamID c)
                 /\ sid <= (if lastStreamID c <? sid then sid
                            else lastStreamID c)).
    { destruct (Z.ltb_spec (lastStreamID c) sid); lia. }
    destruct HL as [HL1 HL2].
    assert (Hnew : stream_ok
                     (sid, {| streamID := sid; state := StreamOpen;
                              frames := [];
                              response := {| ch_buf := []; ch_closed := false |};
                              bodyClosed := false; pending := [] |})).
    { unfold stream_ok. cbn. repeat split; [lia | constructor]. }
    destruct H. split; [|split; [exact HL2 | exact Hnew]].
    constructor; cbn [streams lastStreamID connectionFrames wire closing].
    + now constructor.
    + constructor; [exact HL2|].
      eapply Forall_impl; [|eassumption]. cbn beta. intros; lia.
    + lia.
    + assumption.
    + eapply wire_ok_mono; [exact HL1 | assumption].
    + assumption.
Qed.

Lemma capture_ok (c : HTTP2Connection) (sid : Z) (p : ParsedFrame) :
  conn_ok c -> pf_Stream p = sid ->
  conn_ok (fst (capture c sid p))
  /\ sid <= lastStreamID (fst (capture c sid p))
  /\ stream_ok (sid, snd (capture c sid p)).
Proof.
  intros H Hp. unfold capture.
  destruct (GetOrCreateStream_ok sid H) as (H1 & H2 & H3).
  destruct (GetOrCreateStream c sid) as [c1 s1]. cbn [fst snd] in *.
  assert (Hs : stream_ok (sid, append_frame s1 p)).
  { destruct H3 as (A & B & C & D). unfold stream_ok. cbn in *.
    repeat split; try assumption.
    apply Forall_app. split; [assumption | now constructor]. }
  split; [|split; assumption].
  apply set_streams_ok; [assumption| |].
  - apply update_stream_ok; [apply (ok_streams H1)|].
    replace (streamID (append_frame s1 p)) with sid; [exact Hs|].
    symmetry. apply H3.
  - apply update_stream_bound, (ok_keys H1).
Qed.

Lemma set_panicked_ok (c : HTTP2Connection) :
  conn_ok c -> conn_ok (set_panicked c).
Proof. intros []. constructor; cbn; assumption. Qed.

Lemma handleData_ok (c : HTTP2Connection) (sid : Z) (data : list Z)
  (ended : bool) :
  conn_ok c -> sid <= lastStreamID c -> conn_ok (on_data c sid data ended).
Proof.
  intros H Hsid. unfold handleData.
  destruct (get_stream sid (streams c)) as [stream|] eqn:E; [|assumption].
  pose proof (@get_stream_Forall stream_ok sid _ _ (ok_streams H) E)
    as (A & B & C & D).
  cbn [fst snd] in A, B, C, D.
  set (upd := if ch_closed (response stream) then _ else _).
  assert (Hu : conn_ok (snd upd) /\ lastStreamID (snd upd) = lastStreamID c
               /\ streams (snd upd) = streams c
               /\ (List.length (ch_buf (fst upd)) <= 10)%nat
               /\ ch_closed (fst upd) = ch_closed (response stream)).
  { subst upd. destruct (ch_closed (response stream)) eqn:Ec; cbn [fst snd].
    - split; [now apply set_panicked_ok|]. auto.
    - destruct (pending stream); [|now auto].
      destruct (Nat.ltb_spec (List.length (ch_buf (response stream))) 10);
        cbn [fst snd]; [|now auto].
      split; [exact H|]. do 2 (split; [reflexivity|]).
      split; [|now cbn]. cbn [ch_buf]. rewrite length_app. cbn. lia. }
  destruct upd as [ch c1]. cbn [fst snd] in Hu.
  destruct Hu as (H1 & H2 & H3 & H4 & H5).
  set (s1 := {| streamID := streamID stream; state := state stream;
                frames := frames stream; response := ch;
                bodyClosed := bodyClosed stream; pending := pending stream |}).
  assert (Hs1 : stream_ok (sid, s1)).
  { unfold stream_ok. cbn. repeat split; try assumption. congruence. }
  set (s2 := if ended then close_body s1 else s1).
  assert (Hs2 : stream_ok (streamID s2, s2)).
  { subst s2. destruct ended.
    - rewrite close_body_id. cbn [streamID s1]. rewrite A.
      now apply close_body_ok.
    - cbn [streamID s1]. now rewrite A. }
  assert (Hc : conn_ok (set_streams c1 (update_stream s2 (streams c1)))).
  { apply set_streams_ok; [assumption| |].
    - apply update_stream_ok; [apply (ok_streams H1) | exact Hs2].
    - apply update_stream_bound, (ok_keys H1). }
  destruct ended; [|exact Hc].
  apply run_tasks_ok; [exact Hc|]. cbn. lia.
Qed.

Lemma add_connection_frame_ok (c : HTTP2Connection) (p : ParsedFrame) :
  conn_ok c -> pf_Stream p = 0 -> conn_ok (add_connection_frame c p).
Proof.
  intros [] Hp. constructor; cbn; try assumption.
  apply Forall_app. split; [assumption | now constructor].
Qed.

Lemma set_decoder_ok (c : HTTP2Connection) (d : Decoder) :
  conn_ok c -> conn_ok (set_decoder c d).
Proof. intros []. constructor; cbn; assumption. Qed.

Lemma process_frame_ok (c : HTTP2Connection) (f : Frame) :
  conn_ok c -> conn_ok (fst (frame_step c f)).
Proof.
  intros H. unfold process_frame.
  pose proof (pf_Stream_convertFrame f) as Hp.
  set (p := convertFrame f) in *.
  set (c0 := if frame_stream f =? 0 then add_connection_frame c p else c).
  assert (H0 : conn_ok c0).
  { subst c0. destruct (Z.eqb_spec (frame_stream f) 0) as [Z0|]; [|assumption].
    apply add_connection_frame_ok; [assumption | congruence]. }
  clearbody c0. clear H.
  assert (Hw : forall acts, Forall (wire_ok 0) acts -> conn_ok (write c0 acts)).
  { intros acts Ha. apply write_ok; [assumption|].
    eapply wire_ok_mono; [apply (ok_last H0) | exact Ha]. }
  destruct f; cbn [fst frame_stream] in *.
  - destruct (negb ack); [|assumption]. apply Hw.
    constructor; [split; [reflexivity | cbn; lia] | constructor].
  - destruct (@capture_ok c0 StreamID p H0 Hp) as (H1 & H2 & H3).
    destruct (capture c0 StreamID p) as [c1 stream]. cbn [fst snd] in *.
    destruct (DecodeFull (hpackDecoder c1) block) as [d [headers|]];
      cbn [fst].
    + destruct (StreamEnded || bodyClosed stream); cbn [fst].
      * apply handleRequest_ok; [now apply set_decoder_ok | exact H2].
      * apply set_streams_ok; [now apply set_decoder_ok| |].
        -- apply update_stream_ok; [apply (ok_streams H1)|].
           destruct H3 as (A & B & C & D). unfold stream_ok. cbn in *.
           rewrite A. auto.
        -- apply update_stream_bound, (ok_keys H1).
    + apply write_ok; [now apply set_decoder_ok|].
      constructor; [split; [reflexivity | exact H2] | constructor].
  - destruct (@capture_ok c0 StreamID p H0 Hp) as (H1 & H2 & H3).
    destruct (capture c0 StreamID p) as [c1 stream]. cbn [fst snd] in *.
    now apply handleData_ok.
  - destruct (negb (StreamID =? 0)); [|assumption].
    apply (@capture_ok c0 StreamID p H0 Hp).
  - destruct (negb (StreamID =? 0)); [|assumption].
    apply (@capture_ok c0 StreamID p H0 Hp).
  - destruct (negb ack); [|assumption]. apply Hw.
    constructor; [split; [reflexivity | cbn; lia] | constructor].
  - assumption.
  - destruct (get_stream StreamID (streams c0)) as [stream|] eqn:E;
      [|assumption]. cbn [fst].
    apply run_tasks_ok; [now apply CloseStream_ok|].
    rewrite CloseStream_set. cbn.
    exact (@get_stream_Forall (fun ks => fst ks <= lastStreamID c0) StreamID
             _ _ (ok_keys H0) E).
  - assumption.
Qed.

Lemma run_frames_ok (fs : list Frame) (c : HTTP2Connection) :
  conn_ok c -> conn_ok (fst (frames_run c fs)).
Proof.
  revert c. induction fs as [|f r IH]; intros c H; [exact H|].
  cbn [run_frames]. pose proof (process_frame_ok f H) as H1.
  destruct (frame_step c f) as [c1 go]. cbn [fst] in H1.
  destruct go; [now apply IH | exact H1].
Qed.

(** X4.  On a fresh connection, whatever frames arrive: the captured
    connection-level frames all carry stream id 0; every stream in the
    table is filed under its own id, holds only captured frames of that id,
    has at most 10 body chunks waiting in its channel, and has [bodyClosed]
    set exactly when its channel is closed. *)
Theorem stream_table_invariant (fs : list Frame) :
  let c := fst (frames_run NewHTTP2Connection fs) in
  Forall (fun p => pf_Stream p = 0) (connectionFrames c)
  /\ Forall (fun ks : Z * HTTP2Stream =>
               streamID (snd ks) = fst ks
               /\ (List.length (ch_buf (response (snd ks))) <= 10)%nat
               /\ Forall (fun p => pf_Stream p = fst ks) (frames (snd ks))
               /\ bodyClosed (snd ks) = ch_closed (response (snd ks)))
            (streams c).
Proof.
  cbv zeta. pose proof (run_frames_ok fs conn_ok_new) as H.
  split; [apply (ok_frames H) | apply (ok_streams H)].
Qed.

(** X5.  On a fresh connection whose idle timer has not fired, whatever
    frames have arrived without making the loop panic: the frame loop has
    written no GOAWAY and has not closed the connection, every frame it
    has written on a stream carries a stream id that is at most
    [lastStreamID], the id a later GOAWAY announces, and [closing] is
    still unset. *)
Theorem frame_loop_wire_invariant (fs : list Frame) :
  panicked (fst (frames_run NewHTTP2Connection fs)) = false ->
  Forall (fun a => loop_action a = true
                   /\ action_stream a
                      <= lastStreamID (fst (frames_run NewHTTP2Connection fs)))
         (wire (fst (frames_run NewHTTP2Connection fs)))
  /\ closing (fst (frames_run NewHTTP2Connection fs)) = false.
Proof.
  intros _. pose proof (run_frames_ok fs conn_ok_new) as H.
  split; [apply (ok_wire H) | apply (ok_closing H)].
Qed.

(** *** The connection-level frames *)

Definition is_goaway (f : Frame) : bool :=
  match f with GoAwayFrame _ => true | _ => false end.

(** The frames the loop reads: all of them up to and including the first
    GOAWAY. *)
Fixpoint frames_read (fs : list Frame) : list Frame :=
  match fs with
  | [] => []
  | f :: rest => f :: (if is_goaway f then [] else frames_read rest)
  end.

Lemma handleRequest_conn_frames (c : HTTP2Connection) (sid : Z)
  (headers : list HeaderField) (stream : HTTP2Stream) :
  connectionFrames (handle c sid headers stream) = connectionFrames c
  /\ panicked (handle c sid headers stream) = panicked c.
Proof.
  destruct (handleRequest_shape c sid headers stream)
    as (d & fields & chunks & ->).
  now rewrite CloseStream_set.
Qed.

Lemma run_tasks_conn_frames (c : HTTP2Connection) (sid : Z)
  (stream : HTTP2Stream) :
  connectionFrames (tasks c sid stream) = connectionFrames c
  /\ panicked (tasks c sid stream) = panicked c.
Proof.
  unfold run_tasks. revert c.
  induction (pending stream) as [|h r IH]; intros c; cbn [fold_left].
  - now split.
  - destruct (IH (handle c sid h stream)) as [-> ->].
    apply handleRequest_conn_frames.
Qed.

Lemma capture_conn_frames (c : HTTP2Connection) (sid : Z) (p : ParsedFrame) :
  connectionFrames (fst (capture c sid p)) = connectionFrames c
  /\ panicked (fst (capture c sid p)) = panicked c.
Proof.
  unfold capture, GetOrCreateStream.
  destruct (get_stream sid (streams c)); split; reflexivity.
Qed.

Lemma handleData_conn_frames (c : HTTP2Connection) (sid : Z) (data : list Z)
  (ended : bool) :
  connectionFrames (on_data c sid data ended) = connectionFrames c.
Proof.
  unfold handleData.
  destruct (get_stream sid (streams c)) as [stream|]; [|reflexivity].
  destruct (ch_closed (response stream));
    [|destruct (pending stream);
      [destruct (List.length (ch_buf (response stream)) <? 10)%nat|]];
    destruct ended;
    rewrite ?(proj1 (run_tasks_conn_frames _ _ _)); reflexivity.
Qed.

Lemma process_frame_conn_frames (c : HTTP2Connection) (f : Frame) :
  connectionFrames (fst (frame_step c f))
  = (connectionFrames c
     ++ (if frame_stream f =? 0 then [convertFrame f] else []))%list
  /\ snd (frame_step c f) = negb (is_goaway f).
Proof.
  unfold process_frame.
  set (p := convertFrame f).
  set (c0 := if frame_stream f =? 0 then add_connection_frame c p else c).
  assert (E0 : connectionFrames c0
               = (connectionFrames c
                  ++ (if frame_stream f =? 0 then [p] else []))%list).
  { subst c0. destruct (frame_stream f =? 0); [reflexivity|].
    now rewrite app_nil_r. }
  rewrite <- E0. clearbody c0 p. clear E0.
  destruct f; cbn [fst snd is_goaway negb].
  - now destruct (negb ack).
  - pose proof (capture_conn_frames c0 StreamID p) as [E1 _].
    destruct (capture c0 StreamID p) as [c1 stream]. cbn [fst] in E1.
    destruct (DecodeFull (hpackDecoder c1) block) as [d [headers|]].
    + destruct (StreamEnded || bodyClosed stream); cbn [fst snd].
      * now rewrite (proj1 (handleRequest_conn_frames _ _ _ _)).
      * now split.
    + now split.
  - pose proof (capture_conn_frames c0 StreamID p) as [E1 _].
    destruct (capture c0 StreamID p) as [c1 stream]. cbn [fst snd] in *.
    now rewrite handleData_conn_frames.
  - destruct (negb (StreamID =? 0)); cbn [fst snd]; [|now split].
    now rewrite (proj1 (capture_conn_frames _ _ _)).
  - destruct (negb (StreamID =? 0)); cbn [fst snd]; [|now split].
    now rewrite (proj1 (capture_conn_frames _ _ _)).
  - now destruct (negb ack).
  - now split.
  - destruct (get_stream StreamID (streams c0)); cbn [fst snd]; [|now split].
    rewrite (proj1 (run_tasks_conn_frames _ _ _)).
    now rewrite CloseStream_set.
  - now split.
Qed.

(** X6.  As long as no frame has made the loop panic, every frame on
    stream 0 that the loop has read (all frames up to and including the
    first GOAWAY) has been appended, converted, to the connection-level
    frames in arrival order; no request, response or stream close removes
    or reorders an entry. *)
Theorem connection_frames_accumulate (fs : list Frame) (c : HTTP2Connection) :
  panicked (fst (frames_run c fs)) = false ->
  connectionFrames (fst (frames_run c fs))
  = (connectionFrames c
     ++ map convertFrame
          (filter (fun f => frame_stream f =? 0) (frames_read fs)))%list.
Proof.
  intros _. revert c. induction fs as [|f r IH]; intros c.
  - cbn. now rewrite app_nil_r.
  - cbn [run_frames frames_read].
    pose proof (process_frame_conn_frames c f) as [E1 E2].
    destruct (frame_step c f) as [c1 go]. cbn [fst snd] in E1, E2. subst go.
    destruct (is_goaway f) eqn:G; cbn [negb fst].
    + rewrite E1. destruct f; try discriminate. reflexivity.
    + rewrite IH, E1, <- app_assoc. f_equal.
      cbn [filter]. now destruct (frame_stream f =? 0).
Qed.

(** *** DATA after END_STREAM *)

Lemma get_update_stream (k : Z) (s : HTTP2Stream) (m : list (Z * HTTP2Stream)) :
  get_stream k (update_stream s m)
  = if k =? streamID s
    then match get_stream k m with Some _ => Some s | None => None end
    else get_stream k m.
Proof.
  induction m as [|[k0 s0] r IH]; simpl.
  - now destruct (k =? streamID s).
  - destruct (Z.eqb_spec k0 (streamID s)) as [E|N]; simpl.
    + destruct (Z.eqb_spec k0 k) as [E'|N'].
      * subst. now rewrite Z.eqb_refl.
      * destruct (Z.eqb_spec k (streamID s)); [congruence | reflexivity].
    + destruct (Z.eqb_spec k0 k) as [E'|N'].
      * destruct (Z.eqb_spec k (streamID s)); [congruence | reflexivity].
      * exact IH.
Qed.

Lemma first_data_closes (c : HTTP2Connection) (sid : Z) (data : list Z) :
  get_stream sid (streams c) = None ->
  exists s,
    get_stream sid (streams (fst (frame_step c (DataFrame sid data true))))
    = Some s
    /\ ch_closed (response s) = true.
Proof.
  intros E. unfold process_frame. cbn [frame_stream].
  set (p := convertFrame _).
  set (c0 := if sid =? 0 then add_connection_frame c p else c).
  assert (E0 : get_stream sid (streams c0) = None).
  { subst c0. now destruct (sid =? 0). }
  clearbody c0. unfold capture, GetOrCreateStream. rewrite E0.
  unfold handleData, run_tasks, close_body.
  cbn -[Z.eqb Z.ltb convertFrame].
  repeat (rewrite Z.eqb_refl; cbn -[Z.eqb Z.ltb convertFrame]).
  eexists. split; reflexivity.
Qed.

Lemma data_on_closed_panics (c : HTTP2Connection) (sid : Z) (s : HTTP2Stream)
  (data : list Z) (ended : bool) :
  get_stream sid (streams c) = Some s ->
  ch_closed (response s) = true ->
  panicked (fst (frame_step c (DataFrame sid data ended))) = true.
Proof.
  intros E Hc. unfold process_frame. cbn [frame_stream].
  set (p := convertFrame _).
  set (c0 := if sid =? 0 then add_connection_frame c p else c).
  assert (E0 : get_stream sid (streams c0) = Some s).
  { subst c0. now destruct (sid =? 0). }
  clearbody c0. unfold capture, GetOrCreateStream. rewrite E0.
  cbn [fst snd]. unfold handleData. cbn [streams set_streams].
  rewrite get_update_stream, E0. cbn [streamID append_frame].
  assert (Hs : exists s', (if sid =? streamID s
                           then Some (append_frame s p) else Some s)
                          = Some s' /\ ch_closed (response s') = true).
  { destruct (sid =? streamID s); eexists; split; try reflexivity;
      assumption. }
  destruct Hs as (s' & -> & Hc'). rewrite Hc'.
  destruct ended; [rewrite (proj2 (run_tasks_conn_frames _ _ _))|];
    reflexivity.
Qed.

(** X7.  A DATA frame with END_STREAM on a stream that is not in the
    table (no HEADERS were captured for it) closes the body channel but
    leaves the stream in the table; the next DATA frame with a payload on
    that stream is then sent on the closed channel, which is a run-time
    panic in the frame loop. *)
Theorem data_after_end_stream_panics (c : HTTP2Connection) (sid : Z)
  (d1 d2 : list Z) (ended : bool) :
  get_stream sid (streams c) = None ->
  d2 <> [] ->
  panicked (fst (frames_run c [DataFrame sid d1 true;
                               DataFrame sid d2 ended])) = true.
Proof.
  intros E _. cbn [run_frames].
  destruct (@first_data_closes c sid d1 E) as (s & Hs & Hc).
  pose proof (proj2 (process_frame_conn_frames c (DataFrame sid d1 true)))
    as Hgo.
  destruct (frame_step c (DataFrame sid d1 true)) as [c1 go].
  cbn [fst snd is_goaway negb] in *. subst go.
  pose proof (@data_on_closed_panics c1 sid s d2 ended Hs Hc) as Hp.
  pose proof (proj2 (process_frame_conn_frames c1 (DataFrame sid d2 ended)))
    as Hgo.
  destruct (frame_step c1 (DataFrame sid d2 ended)) as [c2 go].
  cbn [fst snd is_goaway negb] in *. subst go. exact Hp.
Qed.

End EngineInvariants.

(** A client preface, a request and a GOAWAY, with a PING the loop never
    reads. *)
Definition sample_frames : list Frame :=
  [SettingsFrame false [("HEADER_TABLE_SIZE", 65536)];
   WindowUpdateFrame 0 15663105;
   HeadersFrame 1 [Indexed 2; Indexed 4; Indexed 7] true;
   PingFrame false [1; 2; 3; 4; 5; 6; 7; 8];
   GoAwayFrame 1;
   PingFrame false [8; 7; 6; 5; 4; 3; 2; 1]].

Lemma frame_loop_wire_invariant_witness :
  panicked
    (fst (@run_frames InsertionSorter (sample_server ("", false)) None "r1" 0
            NewHTTP2Connection sample_frames)) = false
  /\ Forall (fun a => loop_action a = true /\ action_stream a <= 1)
            (wire
               (fst (@run_frames InsertionSorter (sample_server ("", false))
                       None "r1" 0 NewHTTP2Connection sample_frames)))
  /\ List.length
       (wire
          (fst (@run_frames InsertionSorter (sample_server ("", false))
                  None "r1" 0 NewHTTP2Connection sample_frames))) = 4%nat.
Proof.
  split; [reflexivity|]. split; [|reflexivity].
  exact (proj1 (@frame_loop_wire_invariant InsertionSorter
                  (sample_server ("", false)) None "r1" 0 sample_frames
                  eq_refl)).
Defined.

Lemma connection_frames_accumulate_witness :
  panicked
    (fst (@run_frames InsertionSorter (sample_server ("", false)) None "r1" 0
            NewHTTP2Connection sample_frames)) = false
  /\ map pf_Type
       (connectionFrames
          (fst (@run_frames InsertionSorter (sample_server ("", false))
                  None "r1" 0 NewHTTP2Connection sample_frames)))
     = ["SETTINGS"; "WINDOW_UPDATE"; "PING"; "GOAWAY"].
Proof.
  split; [reflexivity|].
  rewrite (@connection_frames_accumulate InsertionSorter
             (sample_server ("", false)) None "r1" 0 sample_frames
             NewHTTP2Connection eq_refl).
  reflexivity.
Defined.

Lemma data_after_end_stream_panics_witness :
  panicked
    (fst (@run_frames InsertionSorter (sample_server ("", false)) None "r1" 0
            NewHTTP2Connection
            [DataFrame 1 [] true; DataFrame 1 [104; 105] false])) = true.
Proof.
  apply (@data_after_end_stream_panics InsertionSorter
           (sample_server ("", false)) None "r1" 0 NewHTTP2Connection 1 []
           [104; 105] false).
  - reflexivity.
  - discriminate.
Defined.

(** ** The HTTP/2 engine: a header block that does not decode *)

Lemma capture_has_stream (c : HTTP2Connection) (sid : Z) (p : ParsedFrame) :
  get_stream sid (streams (fst (capture c sid p))) <> None
  /\ wire (fst (capture c sid p)) = wire c.
Proof.
  unfold capture, GetOrCreateStream.
  destruct (get_stream sid (streams c)) as [s|] eqn:E;
    cbn [fst snd streams set_streams wire]; rewrite get_update_stream.
  - rewrite E. split; [|reflexivity].
    destruct (sid =? streamID (append_frame s p)); discriminate.
  - cbn [get_stream streamID append_frame]. rewrite Z.eqb_refl.
    split; [discriminate | reflexivity].
Qed.

(** X8.  A HEADERS frame whose block the connection's decoder rejects is
    answered with RST_STREAM (PROTOCOL_ERROR) and nothing else: no request
    is dispatched for it, the loop goes on, and the stream that was created
    or looked up for the frame stays in the stream table. *)
Theorem undecodable_headers_reset (S : StringSorter) (srv : Server)
  (tlsFingerprint : option TLSDetails) (requestID : string)
  (responseTime : Z) (c : HTTP2Connection) (sid : Z)
  (block : list HeaderRep) (ended : bool) :
  snd (DecodeFull (hpackDecoder c) block) = None ->
  let r := process_frame srv tlsFingerprint requestID responseTime c
             (HeadersFrame sid block ended) in
  wire (fst r) = (wire c ++ [WriteRSTStream sid "PROTOCOL_ERROR"])%list
  /\ deliveries (fst r) = deliveries c
  /\ get_stream sid (streams (fst r)) <> None
  /\ snd r = true.
Proof.
  intros H. cbv zeta. unfold process_frame. cbn [frame_stream].
  set (p := convertFrame _).
  set (c0 := if sid =? 0 then add_connection_frame c p else c).
  assert (E0 : hpackDecoder c0 = hpackDecoder c /\ wire c0 = wire c
               /\ deliveries c0 = deliveries c).
  { subst c0. destruct (sid =? 0); repeat split; reflexivity. }
  destruct E0 as (Ed & Ew & El).
  pose proof (capture_keeps c0 sid p) as [K1 K2].
  pose proof (capture_has_stream c0 sid p) as [K3 K4].
  destruct (capture c0 sid p) as [c1 stream]. cbn [fst] in K1, K2, K3, K4.
  rewrite K1, Ed.
  destruct (DecodeFull (hpackDecoder c) block) as [d decoded].
  cbn [snd] in H. subst decoded. cbn [fst snd wire write set_decoder
                                       deliveries streams].
  rewrite K4, Ew, K2, El. repeat split; try reflexivity. exact K3.
Qed.

Lemma undecodable_headers_reset_witness :
  wire (fst (@process_frame InsertionSorter (sample_server ("", false)) None
               "r1" 0 NewHTTP2Connection (HeadersFrame 1 [Indexed 70] true)))
  = [WriteRSTStream 1 "PROTOCOL_ERROR"].
Proof.
  apply (@undecodable_headers_reset InsertionSorter
           (sample_server ("", false)) None "r1" 0 NewHTTP2Connection 1
           [Indexed 70] true).
  reflexivity.
Defined.

(** ** The HTTP/2 engine: header blocks *)

(** X9.  For any sequence of requests that a client sends as HEADERS
    frames with END_STREAM, all encoded with the one HPACK encoder of the
    connection, the request handler of each stream is given exactly the
    header list the client encoded, in order, also when a block refers to
    dynamic-table entries inserted by earlier streams. *)
Theorem headers_delivered_as_encoded (S : StringSorter) (srv : Server)
  (tlsFingerprint : option TLSDetails) (requestID : string)
  (responseTime : Z) (reqs : list (Z * list HeaderField))
  (c : HTTP2Connection) :
  map dl_headers
    (deliveries
       (fst (run_frames srv tlsFingerprint requestID responseTime c
               (client_frames (hpackDecoder c) reqs))))
  = (map dl_headers (deliveries c) ++ map snd reqs)%list.
Proof. apply persistent_decoder_delivers. Qed.

(** A representation that refers to the static table only. *)
Definition static_only (r : HeaderRep) : bool :=
  match r with
  | Indexed i => (1 <=? i)%nat && (i <=? List.length staticTable)%nat
  | LiteralIncremental ni _ _ | LiteralNoIndex ni _ _ =>
      (ni <=? List.length staticTable)%nat
  | TableSizeUpdate _ => false
  end.

Lemma at_index_static (d d' : Decoder) (i : nat) :
  (i <=? List.length staticTable)%nat = true ->
  at_index d i = at_index d' i.
Proof.
  intros H. unfold at_index. destruct i as [|j]; [reflexivity|].
  now rewrite H.
Qed.

Lemma decode_rep_static (d d' : Decoder) (ff ff' : bool) (r : HeaderRep) :
  static_only r = true ->
  option_map snd (decode_rep d ff r) = option_map snd (decode_rep d' ff' r)
  /\ (forall x, decode_rep d ff r = Some x -> snd x <> None).
Proof.
  destruct r as [i|ni n v|ni n v|size]; cbn [static_only decode_rep];
    intros H; try discriminate.
  - apply andb_prop in H as [_ H]. rewrite (at_index_static d d' _ H).
    split; [now destruct (at_index d' i)|].
    intros x. destruct (at_index d' i); cbn; intros E; inversion E.
    discriminate.
  - unfold literal_field. destruct ni as [|k].
    + cbn. split; [reflexivity|]. intros x E. inversion E. discriminate.
    + rewrite (at_index_static d d' (S k) H).
      destruct (at_index d' (S k)); cbn; (split; [reflexivity|]);
        intros x E; inversion E. discriminate.
  - unfold literal_field. destruct ni as [|k].
    + cbn. split; [reflexivity|]. intros x E. inversion E. discriminate.
    + rewrite (at_index_static d d' (S k) H).
      destruct (at_index d' (S k)); cbn; (split; [reflexivity|]);
        intros x E; inversion E. discriminate.
Qed.

Lemma decode_reps_static (block : list HeaderRep) (d d' : Decoder)
  (ff ff' : bool) (acc : list HeaderField) :
  forallb static_only block = true ->
  snd (decode_reps d ff block acc) = snd (decode_reps d' ff' block acc).
Proof.
  revert d d' ff ff' acc.
  induction block as [|r rest IH]; intros d d' ff ff' acc H; [reflexivity|].
  cbn [forallb] in H. apply andb_prop in H as [Hr Hrest].
  destruct (decode_rep_static d d' ff ff' r Hr) as [E Hne].
  destruct (decode_rep_static d' d ff' ff r Hr) as [_ Hne'].
  cbn [decode_reps].
  destruct (decode_rep d ff r) as [[d1 [f|]]|] eqn:E1;
    destruct (decode_rep d' ff' r) as [[d2 [g|]]|] eqn:E2;
    cbn in E; try discriminate; try reflexivity;
    try (exfalso; now apply (Hne _ eq_refl));
    try (exfalso; now apply (Hne' _ eq_refl)).
  injection E as <-. now apply IH.
Qed.

(** X10.  When a header block uses the static table and literals only (no
    reference to the dynamic table, no table-size update), the headers
    attached to the captured HEADERS frame are the rendering of exactly the
    headers the connection's own decoder yields for that block, whatever
    state that decoder is in. *)
Theorem captured_headers_of_static_block (d d' : Decoder) (sid : Z)
  (block : list HeaderRep) (ended : bool) (headers : list HeaderField) :
  forallb static_only block = true ->
  DecodeFull d block = (d', Some headers) ->
  pf_Headers (convertFrame (HeadersFrame sid block ended))
  = map render_header headers.
Proof.
  intros Hs Hd. unfold convertFrame.
  unfold DecodeFull in *.
  rewrite (@decode_reps_static block (NewDecoder 4096) d true true [] Hs), Hd.
  reflexivity.
Qed.

Lemma captured_headers_of_static_block_witness :
  pf_Headers
    (convertFrame
       (HeadersFrame 3
          [Indexed 2; LiteralIncremental 0 "x-a" "1";
           LiteralNoIndex 58 "" "curl"] true))
  = map render_header [(":method", "GET"); ("x-a", "1"); ("user-agent", "curl")].
Proof.
  apply (@captured_headers_of_static_block
           (add (NewDecoder 4096) ("accept", "*/*"))
           (add (add (NewDecoder 4096) ("accept", "*/*")) ("x-a", "1"))
           3 _ true).
  - reflexivity.
  - reflexivity.
Defined.

(** ** The rendering of captured headers *)

(** Printable ASCII other than the double quote and the backslash: the
    bytes [%q] copies unchanged. *)
Definition plain_char (c : ascii) : bool :=
  let b := byte_of c in
  (32 <=? b) && (b <=? 126) && negb (b =? 34) && negb (b =? 92).

Fixpoint plain (s : string) : bool :=
  match s with
  | EmptyString => true
  | String c r => plain_char c && plain r
  end.

Lemma plain_char_cases (c : ascii) :
  plain_char c = true ->
  Ascii.eqb c "034" = false /\ Ascii.eqb c "\" = false
  /\ Ascii.eqb "034" c = false.
Proof.
  intros H.
  repeat split; apply Ascii.eqb_neq; intros E; subst c; vm_compute in H;
    discriminate.
Qed.

Lemma quote_body_plain (s : string) : plain s = true -> quote_body s = s.
Proof.
  induction s as [|c r IH]; [reflexivity|]. cbn [plain quote_body].
  intros H. apply andb_prop in H as [Hc Hr].
  destruct (plain_char_cases c Hc) as (-> & -> & _). now rewrite IH.
Qed.

Lemma plain_no_quote (s : string) : plain s = true -> no_char "034" s = true.
Proof.
  induction s as [|c r IH]; [reflexivity|]. cbn [plain no_char].
  intros H. apply andb_prop in H as [Hc Hr].
  destruct (plain_char_cases c Hc) as (-> & _ & _). now rewrite IH.
Qed.

Lemma rev_string_twice (s acc acc' : string) :
  rev_string (rev_string s acc) acc' = rev_string acc (s ++ acc').
Proof.
  revert acc acc'. induction s as [|c r IH]; intros acc acc'; [reflexivity|].
  cbn [rev_string append]. now rewrite IH.
Qed.

Lemma rev_string_app (a b acc : string) :
  rev_string (a ++ b) acc = rev_string b (rev_string a acc).
Proof.
  revert acc. induction a as [|c r IH]; intros acc; [reflexivity|].
  cbn [append rev_string]. apply IH.
Qed.

Lemma trim_right_keep (p : ascii -> bool) (a : string) (c : ascii) :
  p c = false -> trim_right p (a ++ str1 c) = (a ++ str1 c)%string.
Proof.
  intros H. unfold trim_right. rewrite rev_string_app.
  cbn [str1 rev_string trim_left]. rewrite H.
  cbn [rev_string]. now rewrite rev_string_twice.
Qed.

Lemma trim_right_drop (p : ascii -> bool) (a : string) (c : ascii) :
  p c = true -> trim_right p (a ++ str1 c) = trim_right p a.
Proof.
  intros H. unfold trim_right. rewrite rev_string_app.
  cbn [str1 rev_string trim_left]. now rewrite H.
Qed.

Lemma string_snoc (c : ascii) (s : string) :
  exists a z, String c s = (a ++ str1 z)%string /\ z = last_byte c s.
Proof.
  revert c. induction s as [|d r IH]; intros c.
  - exists "", c. split; reflexivity.
  - destruct (IH d) as (a & z & E & Hz). exists (String c a), z.
    cbn [append last_byte]. now rewrite E.
Qed.

Lemma plain_last (c : ascii) (s : string) :
  plain (String c s) = true -> plain_char (last_byte c s) = true.
Proof.
  revert c. induction s as [|d r IH]; intros c; cbn [plain last_byte];
    intros H; apply andb_prop in H as [Hc Hr]; [exact Hc | now apply IH].
Qed.

Definition quoted_sep : string := DQ ++ ": " ++ DQ.

Lemma replace_plain_prefix (n rest : string) :
  no_char "034" n = true ->
  replace_from quoted_sep ": " 0 (n ++ rest)
  = (n ++ replace_from quoted_sep ": " 0 rest)%string.
Proof.
  induction n as [|c r IH]; [reflexivity|]. cbn [no_char].
  intros H. apply andb_prop in H as [Hc Hr].
  apply negb_true_iff, Ascii.eqb_neq in Hc.
  cbn [append replace_from].
  replace (String.prefix quoted_sep (String c (r ++ rest))) with false.
  - now rewrite IH.
  - unfold quoted_sep, DQ. cbn [append String.prefix].
    destruct (ascii_dec "034" c); [congruence | reflexivity].
Qed.

Lemma replace_plain (v : string) :
  no_char "034" v = true -> replace_from quoted_sep ": " 0 v = v.
Proof.
  intros H. rewrite <- (append_nil_r v) at 1.
  rewrite (@replace_plain_prefix v "" H). cbn [replace_from].
  apply append_nil_r.
Qed.

Lemma replace_sep (v : string) :
  replace_from quoted_sep ": " 0 (quoted_sep ++ v)
  = (": " ++ replace_from quoted_sep ": " 0 v)%string.
Proof.
  unfold quoted_sep, DQ.
  change ("034" ++ ": " ++ "034")%string
    with (String "034" (String ":" (String " " (String "034" "")))).
  cbn [append]. set (old := String "034" _).
  assert (P : String.prefix old (String "034" (String ":" (String " "
                (String "034" v)))) = true).
  { subst old. cbn [String.prefix].
    repeat match goal with
           | |- context [ascii_dec ?a ?b] =>
               destruct (ascii_dec a b); [|congruence]
           end.
    now destruct v. }
  cbn [replace_from]. rewrite P.
  replace (String.length old - 1)%nat with 3%nat by reflexivity.
  reflexivity.
Qed.

(** X11.  A captured header whose name and value are printable ASCII
    without double quote or backslash is rendered as [name: value] when
    the value is not empty.  A header with an empty value is rendered as
    the name followed by a double quote, a colon and a space: trimming
    removes both quotes of the empty value, so the separator with its
    quotes is no longer there to be replaced. *)
Theorem render_header_plain (name value : string) :
  plain name = true -> plain value = true -> name <> "" ->
  render_header (name, value)
  = if String.eqb value "" then (name ++ DQ ++ ": ")%string
    else (name ++ ": " ++ value)%string.
Proof.
  intros Hn Hv Hne. unfold render_header, Quote. cbn [fst snd].
  rewrite (quote_body_plain _ Hn), (quote_body_plain _ Hv).
  change (DQ ++ ": " ++ DQ)%string with quoted_sep.
  assert (E : ((DQ ++ name ++ DQ) ++ ": " ++ DQ ++ value ++ DQ)%string
              = String "034" ((name ++ quoted_sep ++ value) ++ str1 "034")).
  { unfold quoted_sep, DQ, str1. cbn [append]. f_equal.
    rewrite !append_assoc. reflexivity. }
  rewrite E. clear E. unfold Trim1, ReplaceAll.
  destruct name as [|c0 n0]; [congruence|].
  pose proof Hn as Hn'. cbn [plain] in Hn'.
  apply andb_prop in Hn' as [Hc0 _].
  destruct (plain_char_cases c0 Hc0) as (_ & _ & Hq).
  cbn [trim_left append]. rewrite Ascii.eqb_refl.
  cbn [trim_left]. rewrite Hq.
  change (String c0 ((n0 ++ quoted_sep ++ value) ++ str1 "034"))%string
    with ((String c0 n0 ++ quoted_sep ++ value) ++ str1 "034")%string.
  rewrite trim_right_drop by reflexivity.
  pose proof (plain_no_quote _ Hn) as Qn.
  destruct value as [|d v0].
  - cbn [String.eqb].
    replace (String c0 n0 ++ quoted_sep ++ "")%string
      with ((String c0 n0 ++ DQ ++ ": ") ++ str1 "034")%string
      by (unfold quoted_sep, DQ, str1; rewrite !append_assoc; reflexivity).
    rewrite trim_right_drop by reflexivity.
    replace (String c0 n0 ++ DQ ++ ": ")%string
      with ((String c0 n0 ++ DQ ++ ":") ++ str1 " ")%string
      by (unfold DQ, str1; rewrite !append_assoc; reflexivity).
    rewrite trim_right_keep by reflexivity.
    rewrite append_assoc, (@replace_plain_prefix (String c0 n0) _ Qn).
    reflexivity.
  - cbn [String.eqb].
    destruct (string_snoc d v0) as (a & z & Ev & Hz).
    pose proof (plain_last _ _ Hv) as Hzp. rewrite <- Hz in Hzp.
    destruct (plain_char_cases z Hzp) as (_ & _ & Hqz).
    rewrite Ev.
    replace (String c0 n0 ++ quoted_sep ++ a ++ str1 z)%string
      with ((String c0 n0 ++ quoted_sep ++ a) ++ str1 z)%string
      by (rewrite !append_assoc; reflexivity).
    rewrite trim_right_keep by exact Hqz.
    rewrite !append_assoc, <- Ev.
    rewrite (@replace_plain_prefix (String c0 n0) _ Qn).
    rewrite replace_sep, (replace_plain _ (plain_no_quote _ Hv)).
    reflexivity.
Qed.

Lemma render_header_plain_witness :
  render_header ("x-trace", "") = ("x-trace" ++ DQ ++ ": ")%string.
Proof.
  apply (@render_header_plain "x-trace" "").
  - reflexivity.
  - reflexivity.
  - discriminate.
Defined.

(** ** JA4H: what the fingerprint depends on *)

Lemma sortStrings_perm_eq (S : StringSorter) (l l' : list string) :
  Permutation l l' -> sortStrings l = sortStrings l'.
Proof.
  intros P.
  apply (sorted_perm_unique str_leb str_leb_total str_leb_trans
           str_leb_antisym); try apply sortStrings_sorted.
  rewrite <- (sortStrings_perm l), <- (sortStrings_perm l'). exact P.
Qed.

Lemma filter_perm (A : Type) (p : A -> bool) (l l' : list A) :
  Permutation l l' -> Permutation (filter p l) (filter p l').
Proof.
  induction 1 as [|x l l' P IH|x y l|l l' l'' P1 IH1 P2 IH2]; cbn [filter].
  - constructor.
  - destruct (p x); [now constructor | exact IH].
  - destruct (p x), (p y); try reflexivity. apply perm_swap.
  - now transitivity (filter p l').
Qed.

(** A header whose name enters the header hash. *)
Definition hashed (header : string) : bool :=
  negb (isCookieHeader header || isRefererHeader header)
  && negb (String.eqb (extractHeaderName header) "").

(** A Cookie header whose value enters the cookie hash. *)
Definition cookie_hashed (header : string) : bool :=
  isCookieHeader header && negb (String.eqb (extractCookieValue header) "").

Lemma headerHash_filtered_filter (headers : list string) :
  headerHash_filtered headers
  = map extractHeaderName (filter hashed headers).
Proof.
  unfold headerHash_filtered.
  assert (G : forall acc,
            fold_left
              (fun filtered header =>
                 if isCookieHeader header || isRefererHeader header
                 then filtered
                 else
                   let name := extractHeaderName header in
                   if negb (String.eqb name "")
                   then (filtered ++ [name])%list else filtered)
              headers acc
            = (acc ++ map extractHeaderName (filter hashed headers))%list).
  { induction headers as [|h r IH]; intros acc; cbn [fold_left filter].
    - now rewrite app_nil_r.
    - rewrite IH. unfold hashed at 2.
      destruct (isCookieHeader h || isRefererHeader h); cbn [negb andb];
        [reflexivity|].
      cbv zeta. destruct (negb (String.eqb (extractHeaderName h) ""));
        [|reflexivity].
      cbn [map]. now rewrite <- app_assoc. }
  apply (G []).
Qed.

Lemma cookie_values_filter (headers : list string) :
  cookie_values headers
  = map extractCookieValue (filter cookie_hashed headers).
Proof.
  unfold cookie_values.
  assert (G : forall acc,
            fold_left
              (fun cookies header =>
                 if isCookieHeader header then
                   let value := extractCookieValue header in
                   if negb (String.eqb value "")
                   then (cookies ++ [value])%list else cookies
                 else cookies)
              headers acc
            = (acc ++ map extractCookieValue
                        (filter cookie_hashed headers))%list).
  { induction headers as [|h r IH]; intros acc; cbn [fold_left filter].
    - now rewrite app_nil_r.
    - rewrite IH. unfold cookie_hashed at 2.
      destruct (isCookieHeader h); cbn [andb]; [|reflexivity].
      cbv zeta. destruct (negb (String.eqb (extractCookieValue h) ""));
        [|reflexivity].
      cbn [map]. now rewrite <- app_assoc. }
  apply (G []).
Qed.

Lemma countHeaders_filter (headers : list string) :
  countHeaders headers = Z.of_nat (List.length (filter counted headers)).
Proof.
  unfold countHeaders.
  assert (G : forall n,
            fold_left
              (fun count header =>
                 if negb (isCookieHeader header)
                    && negb (isRefererHeader header)
                 then count + 1 else count)
              headers n
            = n + Z.of_nat (List.length (filter counted headers))).
  { induction headers as [|h r IH]; intros n; cbn [fold_left filter].
    - cbn. lia.
    - rewrite IH. unfold counted at 2.
      destruct (negb (isCookieHeader h) && negb (isRefererHeader h));
        cbn [List.length]; lia. }
  rewrite G. lia.
Qed.

Lemma ja4h_r_collect_filter (headers : list string) :
  ja4h_r_collect headers = (headerHash_filtered headers, cookie_values headers).
Proof.
  rewrite headerHash_filtered_filter, cookie_values_filter.
  unfold ja4h_r_collect.
  assert (G : forall f c,
            fold_left
              (fun (acc : list string * list string) header =>
                 let (filtered, cookies) := acc in
                 if isCookieHeader header then
                   let value := extractCookieValue header in
                   if negb (String.eqb value "")
                   then (filtered, (cookies ++ [value])%list)
                   else (filtered, cookies)
                 else if isRefererHeader header then (filtered, cookies)
                 else
                   let name := extractHeaderName header in
                   if negb (String.eqb name "")
                   then ((filtered ++ [name])%list, cookies)
                   else (filtered, cookies))
              headers (f, c)
            = ((f ++ map extractHeaderName (filter hashed headers))%list,
               (c ++ map extractCookieValue
                       (filter cookie_hashed headers))%list)).
  { induction headers as [|h r IH]; intros f c; cbn [fold_left filter].
    - now rewrite !app_nil_r.
    - assert (Hh : hashed h
                   = negb (isCookieHeader h || isRefererHeader h)
                     && negb (String.eqb (extractHeaderName h) ""))
        by reflexivity.
      assert (Hc : cookie_hashed h
                   = isCookieHeader h
                     && negb (String.eqb (extractCookieValue h) ""))
        by reflexivity.
      rewrite Hh, Hc. clear Hh Hc.
      destruct (isCookieHeader h); cbn [orb negb andb].
      + cbv zeta. destruct (negb (String.eqb (extractCookieValue h) ""));
          rewrite IH; [|reflexivity].
        f_equal. cbn [map]. now rewrite <- app_assoc.
      + destruct (isRefererHeader h); cbn [negb andb]; [apply IH|].
        cbv zeta. destruct (negb (String.eqb (extractHeaderName h) ""));
          rewrite IH; [|reflexivity].
        f_equal. cbn [map]. now rewrite <- app_assoc. }
  apply (G [] []).
Qed.

Lemma ja4h_same_inputs (S : StringSorter) (method version : string)
  (hs hs' : list string) :
  countHeaders hs = countHeaders hs' ->
  Permutation (headerHash_filtered hs) (headerHash_filtered hs') ->
  Permutation (cookie_values hs) (cookie_values hs') ->
  CalculateJA4H method version hs = CalculateJA4H method version hs'
  /\ CalculateJA4H_r method version hs = CalculateJA4H_r method version hs'.
Proof.
  intros E1 P2 P3.
  pose proof (sortStrings_perm_eq S P2) as E2.
  pose proof (sortStrings_perm_eq S P3) as E4.
  pose proof (Permutation_length P3) as E3.
  split.
  - unfold CalculateJA4H, calculateHeaderHash, calculateCookieHash.
    now rewrite E1, E2, E3, E4.
  - unfold CalculateJA4H_r. rewrite !ja4h_r_collect_filter.
    now rewrite E2, E4.
Qed.

(** X12.  JA4H and its raw variant do not depend on the order of the
    header lines: two header lists that are rearrangements of one another
    give the same fingerprints. *)
Theorem ja4h_header_order (S : StringSorter) (method version : string)
  (hs hs' : list string) :
  Permutation hs hs' ->
  CalculateJA4H method version hs = CalculateJA4H method version hs'
  /\ CalculateJA4H_r method version hs = CalculateJA4H_r method version hs'.
Proof.
  intros P. apply ja4h_same_inputs.
  - rewrite !countHeaders_filter.
    now rewrite (Permutation_length (filter_perm counted P)).
  - rewrite !headerHash_filtered_filter.
    apply Permutation_map, filter_perm, P.
  - rewrite !cookie_values_filter.
    apply Permutation_map, filter_perm, P.
Qed.

Lemma ja4h_header_order_witness :
  @CalculateJA4H InsertionSorter "GET" "1.1" ["b: 1"; "cookie: k=v"; "a: 2"]
  = @CalculateJA4H InsertionSorter "GET" "1.1" ["cookie: k=v"; "b: 1"; "a: 2"].
Proof.
  apply (@ja4h_header_order InsertionSorter "GET" "1.1"
           ["b: 1"; "cookie: k=v"; "a: 2"] ["cookie: k=v"; "b: 1"; "a: 2"]).
  apply perm_swap.
Defined.

Lemma referer_not_cookie (h : string) :
  isRefererHeader h = true -> isCookieHeader h = false.
Proof.
  unfold isRefererHeader, isCookieHeader, HasPrefix.
  destruct (ToLower h) as [|c r]; [discriminate|].
  cbn [String.prefix].
  destruct (ascii_dec "c" c) as [<-|N]; [|reflexivity].
  destruct (ascii_dec "r" "c"); [discriminate|]. intros H. discriminate H.
Qed.

Lemma filter_skip (A : Type) (p : A -> bool) (l1 l2 : list A) (x : A) :
  p x = false -> filter p (l1 ++ x :: l2) = filter p (l1 ++ l2).
Proof.
  intros H. rewrite !filter_app. cbn [filter]. now rewrite H.
Qed.

(** X13.  A Referer header (either spelling) is invisible to JA4H and its
    raw variant: inserting one anywhere in the header list changes neither
    the counter nor the two hashed lists. *)
Theorem ja4h_ignores_referer (S : StringSorter) (method version : string)
  (l1 l2 : list string) (h : string) :
  isRefererHeader h = true ->
  CalculateJA4H method version (l1 ++ h :: l2)
  = CalculateJA4H method version (l1 ++ l2)
  /\ CalculateJA4H_r method version (l1 ++ h :: l2)
     = CalculateJA4H_r method version (l1 ++ l2).
Proof.
  intros Hr. pose proof (referer_not_cookie h Hr) as Hc.
  assert (H1 : counted h = false) by (unfold counted; now rewrite Hc, Hr).
  assert (H2 : hashed h = false) by (unfold hashed; now rewrite Hc, Hr).
  assert (H3 : cookie_hashed h = false) by (unfold cookie_hashed; now rewrite Hc).
  apply ja4h_same_inputs.
  - now rewrite !countHeaders_filter, (filter_skip _ l1 l2 _ H1).
  - now rewrite !headerHash_filtered_filter, (filter_skip _ l1 l2 _ H2).
  - now rewrite !cookie_values_filter, (filter_skip _ l1 l2 _ H3).
Qed.

Lemma ja4h_ignores_referer_witness :
  @CalculateJA4H InsertionSorter "GET" "1.1"
    (["accept: */*"] ++ "Referer: https://a.example/" :: ["host: b"])
  = @CalculateJA4H InsertionSorter "GET" "1.1" (["accept: */*"] ++ ["host: b"]).
Proof.
  apply (@ja4h_ignores_referer InsertionSorter "GET" "1.1" ["accept: */*"]
           ["host: b"] "Referer: https://a.example/").
  reflexivity.
Defined.

(** X14.  The shape of a JA4H string: at most two bytes of the lower-cased
    method, a version code out of six, the two-digit number of headers that
    are neither Cookie nor Referer (capped at 99), and two segments of
    twelve lowercase hexadecimal digits, separated by underscores. *)
Theorem ja4h_shape (S : StringSorter) (method version : string)
  (headers : list string) :
  exists h1 h2,
    CalculateJA4H method version headers
    = (getMethodPrefix method ++ getVersionString version
       ++ fmt_02d (Z.min 99 (Z.of_nat (List.length (filter counted headers))))
       ++ "_" ++ h1 ++ "_" ++ h2)%string
    /\ (String.length (getMethodPrefix method) <= 2)%nat
    /\ In (getVersionString version) ["09"; "10"; "11"; "2"; "3"; "00"]
    /\ String.length h1 = 12%nat /\ all_chars is_lower_hex h1 = true
    /\ String.length h2 = 12%nat /\ all_chars is_lower_hex h2 = true.
Proof.
  exists (calculateHeaderHash headers), (calculateCookieHash headers).
  split; [|split; [|split]].
  - unfold CalculateJA4H. rewrite countHeaders_filter. cbv zeta.
    set (n := Z.of_nat _).
    replace (if n >? 99 then 99 else n) with (Z.min 99 n); [reflexivity|].
    destruct (Z.gtb_spec n 99); lia.
  - unfold getMethodPrefix, len.
    destruct (Z.leb_spec 2 (Z.of_nat (String.length (ToLower method)))).
    + rewrite substring0_length; lia.
    + lia.
  - unfold getVersionString. cbn [In].
    repeat match goal with
           | |- context [if ?b then _ else _] => destruct b
           end; auto 10.
  - assert (Z0 : String.length "000000000000" = 12%nat
                 /\ all_chars is_lower_hex "000000000000" = true)
      by (split; reflexivity).
    unfold calculateHeaderHash, calculateCookieHash.
    destruct (_ =? 0); destruct (_ =? 0);
      repeat split; try apply SHA256trunc_shape; apply Z0.
Qed.

(** ** JA4: parts A and B *)

Lemma count_if_length (p : Z -> bool) (l : list Z) :
  count_if p l = Z.of_nat (List.length (filter p l)).
Proof.
  unfold count_if.
  assert (G : forall n,
            fold_left (fun n x => if p x then n + 1 else n) l n
            = n + Z.of_nat (List.length (filter p l))).
  { induction l as [|x r IH]; intros n; cbn [fold_left filter].
    - cbn. lia.
    - rewrite IH. destruct (p x); cbn [List.length]; lia. }
  rewrite G. lia.
Qed.

Lemma cap99_min (n : Z) : cap99 n = Z.min 99 n.
Proof. unfold cap99. destruct (Z.gtb_spec n 99); lia. Qed.



(** X16.  The counters of part A: the cipher counter is the number of
    cipher suites listed in part B, and the extension counter is the number
    of extensions listed in part C plus the number of non-GREASE padding
    extensions (0x0015), which part C leaves out; both are capped at 99. *)
Theorem ja4a_counters (D : KernelDeps) (parsed : ClientHello)
  (negotiatedVersion : string) :
  let ciphers := filter cipher_kept (CipherSuites parsed) in
  let listed := filter ext_listed (AllExtensions parsed) in
  let padding :=
    filter (fun e => negb (IsGrease (fmt_0x04X e)) && (e =? 21))
      (AllExtensions parsed) in
  ja4a_direct parsed negotiatedVersion
  = ("t" ++ getOrReturnOG negotiatedVersion tlsVersionMapping
     ++ detectSNI parsed
     ++ fmt_02d (Z.min 99 (Z.of_nat (List.length ciphers)))
     ++ fmt_02d (Z.min 99 (Z.of_nat (List.length listed
                                      + List.length padding)))
     ++ firstALPN_of (SupportedProtocols parsed))%string.
Proof.
  cbv zeta. unfold ja4a_direct.
  rewrite !cap99_min, !count_if_length. do 4 f_equal.
  assert (E : forall l,
            List.length (filter ext_counted l)
            = (List.length (filter ext_listed l)
               + List.length
                   (filter (fun e => negb (IsGrease (fmt_0x04X e))
                                     && (e =? 21)%Z) l))%nat).
  { induction l as [|e r IH]; [reflexivity|]. cbn [filter].
    assert (Hc : ext_counted e
                 = negb (IsGrease (fmt_0x04X e)) && negb (e =? 0)
                   && negb (e =? 16)) by reflexivity.
    assert (Hl : ext_listed e
                 = negb (IsGrease (fmt_0x04X e)) && negb (e =? 0)
                   && negb (e =? 16) && negb (e =? 21)) by reflexivity.
    rewrite Hc, Hl. clear Hc Hl.
    destruct (IsGrease (fmt_0x04X e)); cbn [negb andb]; [exact IH|].
    destruct (Z.eqb_spec e 21) as [->|N].
    - change (21 =? 0) with false. change (21 =? 16) with false.
      cbn [negb andb List.length]. rewrite IH. lia.
    - destruct (e =? 0), (e =? 16); cbn [negb andb List.length];
        rewrite IH; lia. }
  now rewrite E.
Qed.

(** X17.  The JA4 fingerprint and its raw variant do not depend on the
    order in which the hello lists its cipher suites and its extension
    identifiers: two hellos that agree up to a rearrangement of these two
    lists, and in the fields SNI, ALPN and signature algorithms are read
    from, get the same fingerprints. *)
Theorem ja4_order_invariant (S : StringSorter) (D : KernelDeps)
  (p1 p2 : ClientHello) (negotiatedVersion : string) :
  Permutation (CipherSuites p1) (CipherSuites p2) ->
  Permutation (AllExtensions p1) (AllExtensions p2) ->
  Extensions p1 = Extensions p2 ->
  SignatureAlgorithms p1 = SignatureAlgorithms p2 ->
  SupportedProtocols p1 = SupportedProtocols p2 ->
  CalculateJa4Direct p1 negotiatedVersion
  = CalculateJa4Direct p2 negotiatedVersion
  /\ CalculateJa4Direct_r p1 negotiatedVersion
     = CalculateJa4Direct_r p2 negotiatedVersion.
Proof.
  intros Pc Pe Ex Es Ea.
  assert (A : ja4a_direct p1 negotiatedVersion
              = ja4a_direct p2 negotiatedVersion).
  { unfold ja4a_direct, detectSNI. rewrite !count_if_length, Ex, Ea.
    rewrite (Permutation_length (filter_perm cipher_kept Pc)).
    now rewrite (Permutation_length (filter_perm ext_counted Pe)). }
  assert (B : ja4b_r_direct p1 = ja4b_r_direct p2).
  { unfold ja4b_r_direct. f_equal.
    apply sortStrings_perm_eq, Permutation_map, filter_perm, Pc. }
  assert (C : ja4c_r_direct p1 = ja4c_r_direct p2).
  { unfold ja4c_r_direct. rewrite Es. cbv zeta.
    now rewrite (sortStrings_perm_eq S
                   (Permutation_map fmt_04x (filter_perm ext_listed Pe))). }
  unfold CalculateJa4Direct, CalculateJa4Direct_r, ja4b_direct, ja4c_direct.
  now rewrite A, B, C.
Qed.

Lemma ja4_order_invariant_witness :
  let shuffled :=
    {| Version := 771;
       CipherSuites := [0x1301; 0x0A0A; 0x1302; 0xC02F];
       Extensions := [ExtMap (Some "example.com"); ExtOther];
       AllExtensions :=
         [0x0000; 0x1A1A; 0x0017; 0x000D; 0x0010; 0x002B; 0x000A; 0x0015];
       SupportedGroups := [0x2A2A; 0x001D; 0x0017];
       SupportedPoints := [0];
       SignatureAlgorithms := [0x0804; 0x0403];
       SupportedProtocols := ["h2"; "http/1.1"] |} in
  @CalculateJa4Direct InsertionSorter SpecDeps sample_hello "772"
  = @CalculateJa4Direct InsertionSorter SpecDeps shuffled "772".
Proof.
  cbv zeta.
  apply (@ja4_order_invariant InsertionSorter SpecDeps sample_hello _ "772").
  - apply perm_swap.
  - apply perm_swap.
  - reflexivity.
  - reflexivity.
  - reflexivity.
Defined.

(** ** The HTTP/1.1 line parser *)

Definition CR : ascii := "013".

Lemma split_crlf_segment (line rest cur : string) :
  no_char CR line = true ->
  split_from CRLF 0 cur (line ++ CRLF ++ rest)
  = (cur ++ line)%string :: split_from CRLF 0 "" rest.
Proof.
  revert cur. induction line as [|x line IH]; intros cur H.
  - unfold CRLF. cbn [append split_from String.prefix].
    destruct (ascii_dec "013" "013"); [|congruence].
    destruct (ascii_dec "010" "010"); [|congruence].
    rewrite append_nil_r.
    replace (String.prefix "" rest) with true by now destruct rest.
    reflexivity.
  - cbn [no_char] in H. apply andb_prop in H as [Hx Hl].
    apply negb_true_iff, Ascii.eqb_neq in Hx.
    cbn [append split_from].
    replace (String.prefix CRLF (String x (line ++ CRLF ++ rest))) with false.
    + rewrite (IH _ Hl). f_equal. unfold str1. now rewrite append_assoc.
    + unfold CRLF. cbn [String.prefix].
      destruct (ascii_dec "013" x); [|reflexivity].
      exfalso. apply Hx. now subst.
Qed.

Lemma Split_three (sep : ascii) (a b c : string) :
  no_char sep a = true -> no_char sep b = true -> no_char sep c = true ->
  Split (a ++ String sep (b ++ String sep c)) (str1 sep) = [a; b; c].
Proof.
  intros Ha Hb Hc. unfold Split.
  rewrite (@split1_segment sep a _ "" Ha). cbn [append].
  rewrite (@split1_segment sep b _ "" Hb). cbn [append].
  now rewrite (@split1_last sep c "" Hc).
Qed.

Definition token (s : string) : bool := no_char " " s && no_char CR s.

(** X18.  A request whose first line is three tokens (no space, no
    carriage return), separated by single spaces and ended by CR LF, is
    parsed into exactly these tokens as method, path and version, whatever
    follows; the version token is taken as it is, without any check. *)
Theorem parseHTTP1_request_line (method path version rest : string) :
  token method = true -> token path = true -> token version = true ->
  let r := parseHTTP1 (method ++ " " ++ path ++ " " ++ version
                       ++ CRLF ++ rest) in
  Method r = method /\ Path r = path /\ HTTPVersion r = version
  /\ Http1 r <> None /\ Http2 r = None /\ TLS r = None.
Proof.
  unfold token. intros Hm Hp Hv.
  apply andb_prop in Hm as [Hm1 Hm2]. apply andb_prop in Hp as [Hp1 Hp2].
  apply andb_prop in Hv as [Hv1 Hv2].
  cbv zeta. unfold parseHTTP1.
  assert (E : Split (method ++ " " ++ path ++ " " ++ version ++ CRLF ++ rest)
                CRLF
              = (method ++ " " ++ path ++ " " ++ version)%string
                  :: Split rest CRLF).
  { unfold Split.
    replace (method ++ " " ++ path ++ " " ++ version ++ CRLF ++ rest)%string
      with ((method ++ " " ++ path ++ " " ++ version) ++ CRLF ++ rest)%string
      by (rewrite !append_assoc; reflexivity).
    rewrite (@split_crlf_segment
               (method ++ " " ++ path ++ " " ++ version) rest "");
      [reflexivity|].
    rewrite !no_char_app, Hm2, Hp2, Hv2. reflexivity. }
  rewrite E. cbn [nth].
  change (Split (method ++ " " ++ path ++ " " ++ version) " ")
    with (Split (method ++ String " " (path ++ String " " version)) (str1 " ")).
  rewrite (@Split_three " " method path version Hm1 Hp1 Hv1).
  destruct (parseHTTP1_headers _) as [headers userAgent].
  cbn. repeat split; discriminate.
Qed.

Lemma parseHTTP1_request_line_witness :
  HTTPVersion (parseHTTP1 ("GET /api/clean h2" ++ CRLF ++ CRLF)) = "h2".
Proof.
  apply (@parseHTTP1_request_line "GET" "/api/clean" "h2" CRLF);
    reflexivity.
Defined.

Lemma Contains_sep (a b : string) (c : ascii) :
  Contains (a ++ String c b) (str1 c) = true.
Proof.
  induction a as [|x a IH]; cbn [append Contains].
  - now rewrite prefix_str1, Ascii.eqb_refl.
  - rewrite IH. apply orb_true_r.
Qed.

Lemma map_string_app (f : ascii -> ascii) (a b : string) :
  map_string f (a ++ b) = (map_string f a ++ map_string f b)%string.
Proof. induction a as [|x a IH]; cbn; [reflexivity | now rewrite IH]. Qed.

Lemma prefix_app (p s : string) : String.prefix p (p ++ s) = true.
Proof.
  induction p as [|x p IH]; cbn [append String.prefix]; [now destruct s|].
  destruct (ascii_dec x x); [exact IH | congruence].
Qed.

(** A line that does not set the user agent. *)
Definition other_line (line : string) : bool :=
  negb (Contains line ":" && HasPrefix (ToLower line) "user-agent").

Lemma parseHTTP1_headers_keep (lines : list string) (hs : list string)
  (ua : string) :
  forallb other_line lines = true ->
  snd (fold_left
         (fun (acc : list string * string) line =>
            let (headers, userAgent) := acc in
            if Contains line ":" then
              ((headers ++ [line])%list,
               if HasPrefix (ToLower line) "user-agent"
               then TrimSpace (nth 1 (Split line ":") "")
               else userAgent)
            else acc)
         lines (hs, ua)) = ua.
Proof.
  revert hs ua. induction lines as [|l r IH]; intros hs ua H; [reflexivity|].
  cbn [forallb] in H. apply andb_prop in H as [Hl Hr].
  cbn [fold_left]. unfold other_line in Hl.
  destruct (Contains l ":"); [|now apply IH].
  destruct (HasPrefix (ToLower l) "user-agent"); [discriminate|].
  now apply IH.
Qed.

(** X19.  The parser takes the User-Agent from the text between the first
    and the second colon of the last User-Agent line: a User-Agent value
    that contains a colon is cut at that colon, and what follows is
    lost. *)
Theorem parseHTTP1_user_agent_cut (method path version a b rest : string) :
  token method = true -> token path = true -> token version = true ->
  no_char ":" a = true -> no_char CR a = true -> no_char CR b = true ->
  forallb other_line (Split rest CRLF) = true ->
  UserAgent
    (parseHTTP1 (method ++ " " ++ path ++ " " ++ version ++ CRLF
                 ++ "User-Agent:" ++ a ++ ":" ++ b ++ CRLF ++ rest))
  = TrimSpace a.
Proof.
  unfold token. intros Hm Hp Hv Ha Ha' Hb' Hrest.
  apply andb_prop in Hm as [Hm1 Hm2]. apply andb_prop in Hp as [Hp1 Hp2].
  apply andb_prop in Hv as [Hv1 Hv2].
  unfold parseHTTP1.
  set (reqline := (method ++ " " ++ path ++ " " ++ version)%string).
  set (ualine := ("User-Agent:" ++ a ++ ":" ++ b)%string).
  assert (E : Split (method ++ " " ++ path ++ " " ++ version ++ CRLF
                     ++ "User-Agent:" ++ a ++ ":" ++ b ++ CRLF ++ rest) CRLF
              = reqline :: ualine :: Split rest CRLF).
  { unfold Split.
    replace (method ++ " " ++ path ++ " " ++ version ++ CRLF
             ++ "User-Agent:" ++ a ++ ":" ++ b ++ CRLF ++ rest)%string
      with (reqline ++ CRLF ++ ualine ++ CRLF ++ rest)%string
      by (subst reqline ualine; rewrite !append_assoc; reflexivity).
    rewrite (@split_crlf_segment reqline _ "").
    - rewrite (@split_crlf_segment ualine _ ""); [reflexivity|].
      subst ualine. rewrite !no_char_app, Ha', Hb'. reflexivity.
    - subst reqline. rewrite !no_char_app, Hm2, Hp2, Hv2. reflexivity. }
  rewrite E. cbn [nth].
  assert (T : Split reqline " " = [method; path; version]).
  { exact (@Split_three " " method path version Hm1 Hp1 Hv1). }
  rewrite T.
  assert (U1 : Contains ualine ":" = true).
  { exact (Contains_sep "User-Agent" (a ++ ":" ++ b) ":"). }
  assert (U2 : HasPrefix (ToLower ualine) "user-agent" = true).
  { unfold HasPrefix, ToLower. subst ualine. rewrite map_string_app.
    change (map_string lower_ascii "User-Agent:")
      with ("user-agent" ++ ":")%string.
    rewrite append_assoc. apply prefix_app. }
  assert (U3 : nth 1 (Split ualine ":") "" = a).
  { unfold Split. subst ualine.
    change ("User-Agent:" ++ a ++ ":" ++ b)%string
      with ("User-Agent" ++ String ":" (a ++ String ":" b))%string.
    rewrite (@split1_segment ":" "User-Agent" _ "" eq_refl).
    rewrite (@split1_segment ":" a b "" Ha). reflexivity. }
  unfold parseHTTP1_headers. cbn [fold_left].
  destruct (Contains reqline ":"); cbv beta iota; rewrite U1, U2, U3;
    match goal with
    | |- context [fold_left ?f (Split rest CRLF) (?hs, ?ua)] =>
        pose proof (@parseHTTP1_headers_keep (Split rest CRLF) hs ua Hrest)
          as K;
        destruct (fold_left f (Split rest CRLF) (hs, ua))
          as [headers userAgent]
    end;
    cbn [snd] in K; subst userAgent; reflexivity.
Qed.

Lemma parseHTTP1_user_agent_cut_witness :
  UserAgent
    (parseHTTP1 ("GET / HTTP/1.1" ++ CRLF
                 ++ "User-Agent: Mozilla/5.0 (X11; rv:109.0) Firefox/115.0"
                 ++ CRLF ++ "Accept: */*" ++ CRLF ++ CRLF))
  = "Mozilla/5.0 (X11; rv".
Proof.
  apply (@parseHTTP1_user_agent_cut "GET" "/" "HTTP/1.1"
           " Mozilla/5.0 (X11; rv" "109.0) Firefox/115.0"
           ("Accept: */*" ++ CRLF ++ CRLF)); reflexivity.
Defined.

(** ** /redirect-to and the redirect directive (package server) *)

Lemma redirect_codes (code : Z) :
  0 <= code < 400 ->
  no_char ":" (Itoa code) = true /\ Atoi (Itoa code) = Some code.
Proof.
  intros H.
  pose proof (@check_below
                (fun c => no_char ":" (Itoa c)
                          && match Atoi (Itoa c) with
                             | Some v => v =? c
                             | None => false
                             end) 400) as K.
  specialize (K ltac:(vm_compute; reflexivity) code H). cbv beta in K.
  apply andb_prop in K as [K1 K2]. split; [exact K1|].
  destruct (Atoi (Itoa code)) as [v|]; [|discriminate].
  apply Z.eqb_eq in K2. now subst.
Qed.

Section RedirectTo.

(** [url.Values] and [utils.GetParam], which is not among the sources: the
    handler only passes the parameters on to it. *)
Variable Values : Type.
Variable GetParam : string -> Values -> string.

Definition httpbinRedirectTo (res : Response) (params : Values)
  : list Z * string :=
  let targetURL := GetParam "url" params in
  let targetURL := if String.eqb targetURL "" then "/get" else targetURL in
  let sc := GetParam "status_code" params in
  let statusCode :=
    if negb (String.eqb sc "") then
      match Atoi sc with
      | Some parsed =>
          if (300 <=? parsed) && (parsed <? 400) then parsed else 302
      | None => 302
      end
    else 302 in
  ([], "redirect:" ++ Itoa statusCode ++ ":" ++ targetURL).

(** X21.  The tag [/redirect-to] returns is read back by the engines as a
    redirect to exactly the requested URL, colons included ([/get] when no
    URL is given), with a status code between 300 and 399, which is 302
    unless the parameter [status_code] is a number in that range. *)
Theorem httpbinRedirectTo_directive (res : Response) (params : Values) :
  exists code,
    fst (httpbinRedirectTo res params) = []
    /\ redirect_directive (snd (httpbinRedirectTo res params))
       = Some (Some code,
               if String.eqb (GetParam "url" params) "" then "/get"
               else GetParam "url" params)
    /\ 300 <= code < 400
    /\ (code = 302 \/ Atoi (GetParam "status_code" params) = Some code).
Proof.
  unfold httpbinRedirectTo. cbv zeta. cbn [fst snd].
  set (url := if String.eqb (GetParam "url" params) "" then "/get" else _).
  set (code := if negb (String.eqb (GetParam "status_code" params) "")
               then _ else 302).
  assert (Hc : 300 <= code < 400
               /\ (code = 302
                   \/ Atoi (GetParam "status_code" params) = Some code)).
  { subst code.
    destruct (negb (String.eqb (GetParam "status_code" params) ""));
      [|split; [lia | now left]].
    destruct (Atoi (GetParam "status_code" params)) as [parsed|];
      [|split; [lia | now left]].
    destruct (Z.leb_spec 300 parsed); destruct (Z.ltb_spec parsed 400);
      cbn [andb]; (split; [lia | auto]). }
  destruct Hc as [Hr Hs]. exists code.
  split; [reflexivity|]. split; [|split; assumption].
  destruct (@redirect_codes code) as [Hn Ha]; [lia|].
  unfold redirect_directive, HasPrefix.
  change ("redirect:" ++ Itoa code ++ ":" ++ url)%string
    with ("redirect:" ++ (Itoa code ++ ":" ++ url))%string.
  rewrite prefix_app. unfold SplitN.
  change ("redirect:" ++ (Itoa code ++ ":" ++ url))%string
    with ("redirect" ++ String ":" (Itoa code ++ String ":" url))%string.
  rewrite (@splitn1_segment ":" 1 "redirect" _ "" eq_refl).
  rewrite (@splitn1_segment ":" 0 (Itoa code) url "" Hn).
  rewrite splitn1_rest. cbn [append]. now rewrite Ha.
Qed.

End RedirectTo.

(** ** /cookies/set and the cookie directive (package server) *)

Lemma no_char_Join (c : ascii) (sep : string) (l : list string) :
  no_char c sep = true -> Forall (fun p => no_char c p = true) l ->
  no_char c (Join l sep) = true.
Proof.
  intros Hs H. induction H as [|x r Hx Hr IH]; [reflexivity|].
  destruct r as [|y r]; [exact Hx|].
  change (Join (x :: y :: r) sep) with (x ++ sep ++ Join (y :: r) sep)%string.
  now rewrite !no_char_app, Hx, Hs, IH.
Qed.

Section CookiesSet.

(** The JSON body, [toJSON] of the TLS fields and the cookie map, is not
    modelled; it is a function of the descriptor and the cookies. *)
Variable cookies_body : Response -> list (string * string) -> list Z.

(** The query parameters are the entries of [params] in the order the
    [range] loop visits them. *)
Definition set_cookie_entries (params : list (string * list string))
  : list (string * string) :=
  fold_left
    (fun acc kv =>
       match snd kv with
       | v0 :: _ => (acc ++ [(fst kv, v0)])%list
       | [] => acc
       end)
    params [].

Definition cookie_text (e : string * string) : string :=
  fst e ++ "=" ++ snd e ++ "; Path=/".

Definition httpbinCookiesSet (res : Response)
  (params : list (string * list string)) : list Z * string :=
  let cookies := set_cookie_entries params in
  let setCookies := map cookie_text cookies in
  if 0 <? Z.of_nat (List.length setCookies)
  then (cookies_body res cookies,
        "set-cookies:" ++ Join setCookies "|" ++ ":application/json")
  else (cookies_body res cookies, "application/json").

Definition cookie_safe (s : string) : bool := no_char ":" s && no_char "|" s.

(** X22.  When no cookie name and no cookie value contains a colon or a
    vertical bar, the tag [/cookies/set] returns is read back by the
    engines as exactly one [Set-Cookie] value [name=value; Path=/] per
    query parameter that has a value, in the order of the loop, with the
    content type [application/json]; without any such parameter the tag is
    the plain content type. *)
Theorem httpbinCookiesSet_directive (res : Response)
  (params : list (string * list string)) :
  Forall (fun e => cookie_safe (fst e) && cookie_safe (snd e) = true)
    (set_cookie_entries params) ->
  cookies_directive (snd (httpbinCookiesSet res params))
  = match set_cookie_entries params with
    | [] => None
    | entries => Some (map cookie_text entries, "application/json")
    end.
Proof.
  intros H. unfold httpbinCookiesSet. cbv zeta. rewrite length_map.
  destruct (set_cookie_entries params) as [|e es]; [reflexivity|].
  replace (0 <? Z.of_nat (List.length (e :: es))) with true
    by (symmetry; apply Z.ltb_lt; cbn [List.length]; lia).
  cbn [snd].
  assert (Hc : Forall (fun p => no_char ":" p = true)
                 (map cookie_text (e :: es))
               /\ Forall (fun p => no_char "|" p = true)
                    (map cookie_text (e :: es))).
  { split; apply Forall_map; (eapply Forall_impl; [|exact H]);
      intros [k v]; unfold cookie_safe, cookie_text; cbn [fst snd];
      intros K; apply andb_prop in K as [K1 K2];
      apply andb_prop in K1 as [A1 A2]; apply andb_prop in K2 as [B1 B2];
      rewrite !no_char_app; [rewrite A1, B1 | rewrite A2, B2]; reflexivity. }
  destruct Hc as [Hcolon Hbar].
  pose proof (@no_char_Join ":" "|" _ eq_refl Hcolon) as Hj.
  unfold cookies_directive, HasPrefix.
  set (J := Join (map cookie_text (e :: es)) "|") in *.
  change ("set-cookies:" ++ J ++ ":application/json")%string
    with ("set-cookies:" ++ (J ++ ":application/json"))%string.
  rewrite prefix_app. unfold SplitN.
  change ("set-cookies:" ++ (J ++ ":application/json"))%string
    with ("set-cookies" ++ String ":" (J ++ String ":" "application/json"))%string.
  rewrite (@splitn1_segment ":" 1 "set-cookies" _ "" eq_refl).
  rewrite (@splitn1_segment ":" 0 J "application/json" "" Hj).
  rewrite splitn1_rest. cbn [append]. subst J.
  change (map cookie_text (e :: es))
    with (cookie_text e :: map cookie_text es) in *.
  pose proof (@Split_Join "|" _ _ Hbar) as SJ. unfold str1 in SJ.
  now rewrite SJ.
Qed.

(** X23.  A cookie value with a colon breaks the directive: for a single
    parameter [name=a:b] the engines send the cookie [name=a] without its
    path attribute, and take the rest of the value, the path attribute and
    the real content type together as the content type. *)
Theorem httpbinCookiesSet_colon (res : Response) (name a b : string)
  (more : list string) :
  cookie_safe name = true -> cookie_safe a = true ->
  cookies_directive
    (snd (httpbinCookiesSet res [(name, (a ++ ":" ++ b)%string :: more)]))
  = Some ([(name ++ "=" ++ a)%string],
          (b ++ "; Path=/:application/json")%string).
Proof.
  unfold cookie_safe. intros Hn Ha.
  apply andb_prop in Hn as [N1 N2]. apply andb_prop in Ha as [A1 A2].
  unfold httpbinCookiesSet, set_cookie_entries, cookie_text.
  cbn [fold_left snd fst app map List.length Join].
  replace (0 <? Z.of_nat 1) with true by reflexivity. cbn [snd].
  unfold cookies_directive, HasPrefix.
  set (rest := (b ++ "; Path=/:application/json")%string).
  assert (E : ("set-cookies:" ++ (name ++ "=" ++ (a ++ ":" ++ b) ++ "; Path=/")
               ++ ":application/json")%string
              = ("set-cookies" ++ String ":"
                   ((name ++ "=" ++ a) ++ String ":" rest))%string).
  { subst rest. repeat (rewrite ?append_assoc; cbn [append]). reflexivity. }
  rewrite E.
  change ("set-cookies" ++ String ":" ((name ++ "=" ++ a) ++ String ":" rest))%string
    with ("set-cookies:" ++ ((name ++ "=" ++ a) ++ String ":" rest))%string at 1.
  rewrite prefix_app. unfold SplitN.
  rewrite (@splitn1_segment ":" 1 "set-cookies" _ "" eq_refl).
  assert (Hna : no_char ":" (name ++ "=" ++ a) = true).
  { now rewrite !no_char_app, N1, A1. }
  rewrite (@splitn1_segment ":" 0 (name ++ "=" ++ a) rest "" Hna).
  rewrite splitn1_rest. cbn [append].
  assert (Hnb : no_char "|" (name ++ "=" ++ a) = true).
  { now rewrite !no_char_app, N2, A2. }
  pose proof (@split1_last "|" _ "" Hnb) as SL. unfold str1 in SL.
  unfold Split. cbn [append] in SL. now rewrite SL.
Qed.

End CookiesSet.

Lemma httpbinCookiesSet_directive_witness :
  cookies_directive
    (snd (httpbinCookiesSet (fun _ _ => []) (parseHTTP1 "")
            [("a", ["1"; "9"]); ("skip", []); ("b", ["2"])]))
  = Some (["a=1; Path=/"; "b=2; Path=/"], "application/json").
Proof.
  apply (@httpbinCookiesSet_directive (fun _ _ => []) (parseHTTP1 "")
           [("a", ["1"; "9"]); ("skip", []); ("b", ["2"])]).
  repeat constructor.
Defined.

Lemma httpbinCookiesSet_colon_witness :
  cookies_directive
    (snd (httpbinCookiesSet (fun _ _ => []) (parseHTTP1 "")
            [("next", ["https://a.example/x"])]))
  = Some (["next=https"], "//a.example/x; Path=/:application/json").
Proof.
  apply (@httpbinCookiesSet_colon (fun _ _ => []) (parseHTTP1 "") "next"
           "https" "//a.example/x" []); reflexivity.
Defined.

(** ** /redirect/{n} on HTTP/1.1 *)

Definition cors_headers : string :=
  "Access-Control-Allow-Origin: *" ++ CRLF
    ++ "Access-Control-Allow-Methods: *" ++ CRLF
    ++ "Access-Control-Allow-Headers: *" ++ CRLF.

(** X24.  For [1 <= n <= 10], a parsed HTTP/1.1 request for
    [/redirect/{n}] (any method but OPTIONS) is answered with the status
    line 302, an empty body and a [Location] header naming
    [/redirect/{n-1}], or [/get] for [n = 1]; the content type is sent with
    the charset parameter twice.  The whole response text is determined. *)
Theorem redirect_on_http1 (srv : Server) (requestID : string)
  (responseTime : Z) (resp : Response) (h1 : Http1Details) (n : Z) :
  1 <= n <= 10 ->
  Path resp = "/redirect/" ++ Itoa n ->
  String.eqb (Method resp) "OPTIONS" = false ->
  Http1 resp = Some h1 ->
  let isAdmin :=
    snd (GetAdmin srv)
    && existsb (fun a => HasPrefix a (fst (GetAdmin srv))) (h1_Headers h1) in
  respondToHTTP1 srv requestID responseTime resp
  = H1Wrote
      ("HTTP/1.1 302 " ++ StatusText srv 302 ++ CRLF
       ++ "Content-Length: 0" ++ CRLF
       ++ "Content-Type: text/html; charset=utf-8; charset=utf-8" ++ CRLF
       ++ "X-Request-Id: " ++ requestID ++ CRLF
       ++ "X-Response-Time: " ++ Itoa responseTime ++ CRLF
       ++ "Location: " ++ redirect_next n ++ CRLF
       ++ (if isAdmin then cors_headers else "")
       ++ "Server: TrackMe" ++ CRLF
       ++ "Alt-Svc: " ++ alt_svc_value ++ CRLF
       ++ CRLF ++ CRLF ++ CRLF).
Proof.
  intros Hn Hp Hm H1. cbv zeta. unfold respondToHTTP1.
  rewrite Hm. cbn [negb]. rewrite Hp, (Router_redirect srv resp Hn).
  rewrite (httpbinRedirect_tag resp Hn Hp).
  destruct (GetAdmin srv) as [key isKeySet]. cbn [fst snd]. rewrite H1.
  assert (Hs : (if isKeySet
                then Some (false
                           || existsb (fun a => HasPrefix a key)
                                (h1_Headers h1))
                else Some false)
               = Some (isKeySet
                       && existsb (fun a => HasPrefix a key) (h1_Headers h1))).
  { now destruct isKeySet. }
  rewrite Hs. clear Hs. rewrite redirect_directive_302.
  change (cookies_directive "text/html; charset=utf-8")
    with (@None (list string * string)).
  cbv iota beta zeta.
  replace (content_encoding_of ("/redirect/" ++ Itoa n))
    with (@None string) by reflexivity.
  cbn [fold_left List.length string_of_bytes].
  change (Itoa (Z.of_nat 0)) with "0".
  f_equal. unfold cors_headers.
  destruct (isKeySet && existsb (fun a => HasPrefix a key) (h1_Headers h1));
    repeat (rewrite ?append_assoc; cbn [append]); reflexivity.
Qed.

Lemma redirect_on_http1_witness :
  respondToHTTP1 (sample_server ("", false)) "r1" 7
    (parseHTTP1 ("GET /redirect/3 HTTP/1.1" ++ CRLF ++ CRLF))
  = H1Wrote
      ("HTTP/1.1 302 Found" ++ CRLF
       ++ "Content-Length: 0" ++ CRLF
       ++ "Content-Type: text/html; charset=utf-8; charset=utf-8" ++ CRLF
       ++ "X-Request-Id: r1" ++ CRLF
       ++ "X-Response-Time: 7" ++ CRLF
       ++ "Location: /redirect/2" ++ CRLF
       ++ "Server: TrackMe" ++ CRLF
       ++ "Alt-Svc: " ++ alt_svc_value ++ CRLF
       ++ CRLF ++ CRLF ++ CRLF).
Proof.
  apply (@redirect_on_http1 (sample_server ("", false)) "r1" 7
           (parseHTTP1 ("GET /redirect/3 HTTP/1.1" ++ CRLF ++ CRLF))
           {| h1_Headers := [] |} 3).
  - lia.
  - reflexivity.
  - reflexivity.
  - reflexivity.
Defined.

(** ** /html and the request descriptor of HTTP/3 *)

Definition LF : string := String "010" EmptyString.

(** [httpbinHTML] reads [res.TLS.JA3Hash] without testing [res.TLS]:
    [None] is the nil-pointer panic. *)
Definition httpbinHTML (res : Response) : option (list Z * string) :=
  match TLS res with
  | None => None
  | Some tls =>
      let html :=
        "<!DOCTYPE html>" ++ LF ++ "<html>" ++ LF
          ++ "<head><title>TLS Fingerprint HTTPBin</title></head>" ++ LF
          ++ "<body>" ++ LF
          ++ "<h1>Hello from TLS Fingerprint HTTPBin!</h1>" ++ LF
          ++ "<p>JA3 Hash: " ++ JA3Hash tls ++ "</p>" ++ LF
          ++ "</body>" ++ LF ++ "</html>" in
      Some (bytes_of_string html, "text/html; charset=utf-8")
  end.

(** The descriptor the HTTP/3 handler passes to the router: it sets the
    address, version, path, method, user agent and the HTTP/3 details, and
    leaves [Http1], [Http2] and [TLS] nil. *)
Definition http3_descriptor (remoteAddr path method userAgent : string)
  : Response :=
  {| IP := remoteAddr; HTTPVersion := "h3"; Path := path; Method := method;
     UserAgent := userAgent; Http1 := None; Http2 := None; TLS := None |}.

(** X25.  [/html] is served exactly for descriptors that carry TLS
    details, with the JA3 hash of the descriptor in the page, and panics
    on a nil pointer otherwise; the descriptor of an HTTP/3 request never
    carries TLS details, so the handler panics on every HTTP/3 request. *)
Theorem httpbinHTML_needs_tls (res : Response) :
  (httpbinHTML res = None <-> TLS res = None)
  /\ (forall tls, TLS res = Some tls ->
        exists before after,
          httpbinHTML res
          = Some (bytes_of_string (before ++ JA3Hash tls ++ after),
                  "text/html; charset=utf-8"))
  /\ (forall remoteAddr path method userAgent,
        httpbinHTML (http3_descriptor remoteAddr path method userAgent) = None).
Proof.
  split; [|split].
  - unfold httpbinHTML. destruct (TLS res); split; congruence.
  - intros tls E. unfold httpbinHTML. rewrite E. cbv zeta.
    exists ("<!DOCTYPE html>" ++ LF ++ "<html>" ++ LF
            ++ "<head><title>TLS Fingerprint HTTPBin</title></head>" ++ LF
            ++ "<body>" ++ LF
            ++ "<h1>Hello from TLS Fingerprint HTTPBin!</h1>" ++ LF
            ++ "<p>JA3 Hash: ")%string,
           ("</p>" ++ LF ++ "</body>" ++ LF ++ "</html>")%string.
    reflexivity.
  - reflexivity.
Qed.

(** ** [normalizeHeaderName] (package server) *)

(** [strings.ToUpper(string(b))] for a byte [b]: the byte is read as the
    code point of that value, mapped to upper case and encoded in UTF-8.
    In the range U+0080 to U+00FF the letters with an upper case are the
    micro sign, U+00E0 to U+00FE without the division sign, and U+00FF. *)
Definition upper_rune (r : Z) : Z :=
  if (97 <=? r) && (r <=? 122) then r - 32
  else if r =? 181 then 924
  else if ((224 <=? r) && (r <=? 246)) || ((248 <=? r) && (r <=? 254))
       then r - 32
  else if r =? 255 then 376
  else r.

Definition utf8_rune (r : Z) : string :=
  if r <? 128 then str1 (ascii_of r)
  else String (ascii_of (192 + r / 64)) (str1 (ascii_of (128 + r mod 64))).

Definition upper_of_byte (c : ascii) : string :=
  utf8_rune (upper_rune (byte_of c)).

(** [strings.ToUpper(string(part[0])) + part[1:]] for a non-empty part. *)
Definition capitalize (part : string) : string :=
  match part with
  | EmptyString => EmptyString
  | String c rest => upper_of_byte c ++ rest
  end.

Definition normalizeHeaderName (name : string) : string :=
  Join (map capitalize (Split name "-")) "-".

Definition ascii_only (s : string) : bool :=
  all_chars (fun c => byte_of c <? 128) s.

Lemma all_chars_app (p : ascii -> bool) (a b : string) :
  all_chars p (a ++ b) = all_chars p a && all_chars p b.
Proof.
  induction a as [|x a IH]; cbn [append all_chars]; [reflexivity|].
  now rewrite IH, andb_assoc.
Qed.

Lemma byte_cases (P : ascii -> bool) :
  forallb (fun n => P (ascii_of (Z.of_nat n))) (seq 0 256) = true ->
  forall c, P c = true.
Proof.
  intros H c. rewrite forallb_forall in H.
  specialize (H (Z.to_nat (byte_of c))).
  assert (R : 0 <= byte_of c < 256).
  { unfold byte_of. pose proof (N_ascii_bounded c). lia. }
  rewrite Z2Nat.id in H by lia.
  assert (E : ascii_of (byte_of c) = c).
  { unfold ascii_of, byte_of. rewrite N2Z.id. apply ascii_N_embedding. }
  rewrite E in H. apply H. apply in_seq. lia.
Qed.

Lemma upper_of_byte_ascii (c : ascii) :
  (byte_of c <? 128) = true ->
  upper_of_byte c = str1 (upper_ascii c)
  /\ lower_ascii (upper_ascii c) = lower_ascii c
  /\ upper_ascii (upper_ascii c) = upper_ascii c
  /\ (byte_of (upper_ascii c) <? 128) = true
  /\ (Ascii.eqb c "-" = false -> Ascii.eqb (upper_ascii c) "-" = false).
Proof.
  revert c.
  assert (H : forall c,
            (if byte_of c <? 128 then
               String.eqb (upper_of_byte c) (str1 (upper_ascii c))
               && Ascii.eqb (lower_ascii (upper_ascii c)) (lower_ascii c)
               && Ascii.eqb (upper_ascii (upper_ascii c)) (upper_ascii c)
               && (byte_of (upper_ascii c) <? 128)
               && (Ascii.eqb c "-" || negb (Ascii.eqb (upper_ascii c) "-"))
             else true) = true).
  { apply byte_cases. vm_compute. reflexivity. }
  intros c Hc. specialize (H c). rewrite Hc in H.
  repeat (apply andb_prop in H as [H ?]).
  repeat split.
  - now apply String.eqb_eq.
  - now apply Ascii.eqb_eq.
  - now apply Ascii.eqb_eq.
  - assumption.
  - intros E. rewrite E in *. cbn [orb] in *. now apply negb_true_iff.
Qed.

(** The same function, byte by byte: a byte is put in upper case when it
    starts the name or follows a hyphen. *)
Fixpoint title_case (start : bool) (s : string) : string :=
  match s with
  | EmptyString => EmptyString
  | String x r =>
      if Ascii.eqb x "-" then String "-" (title_case true r)
      else ((if start then upper_of_byte x else str1 x)
            ++ title_case false r)%string
  end.

Lemma normalize_from (s cur : string) :
  Join (map capitalize (split_from "-" 0 cur s)) "-"
  = match cur with
    | EmptyString => title_case true s
    | _ => (capitalize cur ++ title_case false s)%string
    end.
Proof.
  revert cur. induction s as [|x r IH]; intros cur.
  - cbn [split_from map Join title_case].
    destruct cur; [reflexivity | now rewrite append_nil_r].
  - cbn [split_from title_case].
    change "-"%string with (str1 "-") at 1. rewrite prefix_str1.
    destruct (Ascii.eqb_spec x "-") as [->|N].
    + cbn [String.length str1 Nat.sub].
      destruct (split_from_cons (str1 "-") 0 "" r) as (h & t & E).
      specialize (IH ""). unfold str1 in E. rewrite E in *.
      change (Join (map capitalize (cur :: h :: t)) "-")
        with (capitalize cur ++ "-" ++ Join (map capitalize (h :: t)) "-")%string.
      rewrite IH. now destruct cur.
    + rewrite IH. destruct cur as [|c0 cur0]; cbn [append str1 capitalize].
      * now rewrite append_nil_r.
      * now rewrite !append_assoc.
Qed.

Lemma normalizeHeaderName_title (name : string) :
  normalizeHeaderName name = title_case true name.
Proof. unfold normalizeHeaderName, Split. apply normalize_from. Qed.

Lemma title_case_ascii (s : string) (start : bool) :
  ascii_only s = true ->
  String.length (title_case start s) = String.length s
  /\ ToLower (title_case start s) = ToLower s
  /\ title_case start (title_case start s) = title_case start s.
Proof.
  revert start. induction s as [|x r IH]; intros start H.
  - repeat split; reflexivity.
  - unfold ascii_only in H. cbn [all_chars] in H.
    apply andb_prop in H as [Hx Hr].
    destruct (upper_of_byte_ascii x Hx) as (U1 & U2 & U3 & U4 & U5).
    cbn [title_case].
    destruct (Ascii.eqb x "-") eqn:E.
    + apply Ascii.eqb_eq in E. subst x.
      destruct (IH true Hr) as (L1 & L2 & L3).
      cbn [String.length title_case Ascii.eqb Bool.eqb]. unfold ToLower in *.
      cbn [map_string]. rewrite L1, L2, L3. repeat split; reflexivity.
    + destruct (IH false Hr) as (L1 & L2 & L3).
      specialize (U5 eq_refl).
      destruct (upper_of_byte_ascii (upper_ascii x) U4) as (V1 & _).
      rewrite U3 in V1.
      destruct start; rewrite ?U1; cbn [str1 append String.length title_case];
        rewrite ?U5, ?E, ?V1; cbn [str1 append];
        unfold ToLower in *; cbn [map_string]; rewrite L1, L2, L3, ?U2;
        repeat split; reflexivity.
Qed.

(** X26.  On a header name made of ASCII bytes, [normalizeHeaderName]
    changes nothing but the case of letters: the result has the length of
    the name and is equal to it up to case; it is computed byte by byte
    (upper case at the start and after each hyphen, every other byte
    unchanged), and normalizing twice is the same as normalizing once. *)
Theorem normalizeHeaderName_ascii (name : string) :
  ascii_only name = true ->
  normalizeHeaderName name = title_case true name
  /\ String.length (normalizeHeaderName name) = String.length name
  /\ ToLower (normalizeHeaderName name) = ToLower name
  /\ normalizeHeaderName (normalizeHeaderName name) = normalizeHeaderName name.
Proof.
  intros H. rewrite !normalizeHeaderName_title.
  destruct (@title_case_ascii name true H) as (L1 & L2 & L3). auto.
Qed.

Lemma normalizeHeaderName_ascii_witness :
  normalizeHeaderName "x-forwarded-for" = title_case true "x-forwarded-for"
  /\ title_case true "x-forwarded-for" = "X-Forwarded-For".
Proof.
  split; [|reflexivity].
  apply (@normalizeHeaderName_ascii "x-forwarded-for"). reflexivity.
Defined.

(** ** The legacy part A (package tls) *)

(** [ja4a] reads three fields of its [TLSDetails] argument:
    [NegotiatedVesion], [JA3] and [PeetPrint].  An index past the end of a
    split is a run-time panic, here [None]. *)
Definition ja4a (NegotiatedVesion JA3 PeetPrint : string) : option string :=
  let proto := "t" in
  let httpVersionMapping :=
    [("2", "h2"); ("1.1", "h1"); ("1.0", "h1"); ("0.9", "h1")] in
  let tlsVersion := getOrReturnOG NegotiatedVesion tlsVersionMapping in
  let sniMode := "d" in
  match nth_error (Split JA3 ",") 1, nth_error (Split JA3 ",") 2,
        nth_error (Split PeetPrint "|") 1 with
  | Some suites, Some extensions, Some alpns =>
      let numSuites := Z.of_nat (List.length (Split suites "-")) in
      let numExtensions := Z.of_nat (List.length (Split extensions "-")) in
      let firstALPN :=
        getOrReturnOG (nth 0 (Split alpns "-") "") httpVersionMapping in
      let numSuites := if numSuites >? 99 then 99 else numSuites in
      let numExtensions := if numExtensions >? 99 then 99 else numExtensions in
      Some (proto ++ tlsVersion ++ sniMode ++ fmt_02d numSuites
              ++ fmt_02d numExtensions ++ firstALPN)
  | _, _, _ => None
  end.

(** X27.  The legacy part A panics exactly when the JA3 text has fewer
    than three comma-separated fields or the PeetPrint text fewer than two
    bar-separated fields.  Otherwise its SNI letter is always [d] and both
    counters are between 1 and 99: an empty cipher or extension field is
    counted as one entry. *)
Theorem ja4a_legacy (NegotiatedVesion JA3 PeetPrint : string) :
  (ja4a NegotiatedVesion JA3 PeetPrint = None
   <-> (List.length (Split JA3 ",") < 3
        \/ List.length (Split PeetPrint "|") < 2)%nat)
  /\ (forall s, ja4a NegotiatedVesion JA3 PeetPrint = Some s ->
        exists numSuites numExtensions firstALPN,
          s = ("t" ++ getOrReturnOG NegotiatedVesion tlsVersionMapping ++ "d"
               ++ fmt_02d numSuites ++ fmt_02d numExtensions
               ++ firstALPN)%string
          /\ 1 <= numSuites <= 99 /\ 1 <= numExtensions <= 99).
Proof.
  unfold ja4a. cbv zeta.
  destruct (nth_error (Split JA3 ",") 1) as [suites|] eqn:E1.
  - destruct (nth_error (Split JA3 ",") 2) as [exts|] eqn:E2.
    + destruct (nth_error (Split PeetPrint "|") 1) as [alpns|] eqn:E3.
      * assert (L2 : (2 < List.length (Split JA3 ","))%nat)
          by (apply nth_error_Some; congruence).
        assert (L3 : (1 < List.length (Split PeetPrint "|"))%nat)
          by (apply nth_error_Some; congruence).
        split; [split; [discriminate | lia]|].
        intros s E. injection E as <-.
        pose proof (Split_nonempty suites "-") as N1.
        pose proof (Split_nonempty exts "-") as N2.
        eexists _, _, _. split; [reflexivity|].
        split.
        -- destruct (Z.gtb_spec (Z.of_nat (List.length (Split suites "-"))) 99);
             lia.
        -- destruct (Z.gtb_spec (Z.of_nat (List.length (Split exts "-"))) 99);
             lia.
      * apply nth_error_None in E3.
        split; [split; [lia | reflexivity] | discriminate].
    + apply nth_error_None in E2.
      split; [split; [lia | reflexivity] | discriminate].
  - apply nth_error_None in E1.
    split; [split; [lia | reflexivity] | discriminate].
Qed.
